(** * UAV flight-data analysis platform: trajectory metrics and cross-flight
      analytics

    A shallow embedding of the numeric core of the platform:

    - [models/TrajectoryAnalyzer.js]  (module [TrajectoryAnalyzer]),
    - [models/UAVDataProcessor.js]    (module [UAVDataProcessor]),
    - the trajectory router with its helper functions (module [Routes]).

    Number model.  The modules [TrajectoryAnalyzer], [UAVDataProcessor] and
    [Routes] model JavaScript numbers as exact real numbers extended with the
    three IEEE special values that the code can produce through an unguarded
    division ([Infinity], [-Infinity], [NaN]); they carry the statements on
    structure, counts, selection, guards and case analyses, which do not
    depend on rounding.  The functions whose results depend on the rounding
    of binary64 arithmetic (means, deviations, distances, correlations,
    relative changes against a threshold) are written a second time in the
    module [Float], over an abstract arithmetic with two readings:
    [Float.binary64] computes with IEEE-754 binary64 numbers, and
    [Float.rounded rnd] computes with real numbers, every operation being
    followed by the rounding [rnd].  The statements on these functions hold
    for every rounding of the standard model of floating-point arithmetic
    ([Rounding.StandardModel]: monotone, of relative error at most [2^-53],
    odd, exact on the integers up to [2^53]), which round-to-nearest binary64
    satisfies short of overflow and underflow; the values binary64 produces
    on particular inputs are computed with [Float.binary64]. *)

From Stdlib Require Import String DecimalString Reals Lra Lia List Bool Arith.
From Stdlib Require Import Sorting.Permutation Sorting.Sorted.
From Stdlib Require PrimFloat.
Import ListNotations.

#[local] Set Warnings "-register-all".

Open Scope R_scope.

(* ================================================================== *)
(** * JavaScript numbers *)
(* ================================================================== *)

Module JSNum.

Inductive num : Type :=
| Fin (r : R)
| PosInf
| NegInf
| NaN.

Definition Rltb (a b : R) : bool := if Rlt_dec a b then true else false.
Definition Rleb (a b : R) : bool := if Rle_dec a b then true else false.
Definition Reqb (a b : R) : bool := if Req_dec_T a b then true else false.

(** Selects by the sign of a finite number. *)
Definition by_sign (r : R) (pos neg zero : num) : num :=
  if Rlt_dec 0 r then pos else if Rlt_dec r 0 then neg else zero.

(** ToNumber of a possibly [undefined] number. *)
Definition of_option (o : option R) : num :=
  match o with Some r => Fin r | None => NaN end.

Definition of_nat (n : nat) : num := Fin (INR n).

Definition neg (a : num) : num :=
  match a with
  | Fin x => Fin (- x)
  | PosInf => NegInf
  | NegInf => PosInf
  | NaN => NaN
  end.

Definition add (a b : num) : num :=
  match a, b with
  | NaN, _ | _, NaN => NaN
  | Fin x, Fin y => Fin (x + y)
  | PosInf, NegInf | NegInf, PosInf => NaN
  | PosInf, _ | _, PosInf => PosInf
  | NegInf, _ | _, NegInf => NegInf
  end.

Definition sub (a b : num) : num := add a (neg b).

Definition mul (a b : num) : num :=
  match a, b with
  | NaN, _ | _, NaN => NaN
  | Fin x, Fin y => Fin (x * y)
  | Fin x, PosInf | PosInf, Fin x => by_sign x PosInf NegInf NaN
  | Fin x, NegInf | NegInf, Fin x => by_sign x NegInf PosInf NaN
  | PosInf, PosInf | NegInf, NegInf => PosInf
  | PosInf, NegInf | NegInf, PosInf => NegInf
  end.

(** [x / 0] is [NaN] for [x = 0] and an infinity of the sign of [x]
    otherwise (the zero divisors of this development are never negative
    zeros: they are sums started at [0], or lengths). *)
Definition div (a b : num) : num :=
  match a, b with
  | NaN, _ | _, NaN => NaN
  | Fin x, Fin y =>
      if Req_dec_T y 0 then by_sign x PosInf NegInf NaN else Fin (x / y)
  | Fin _, (PosInf | NegInf) => Fin 0
  | PosInf, Fin y => if Rlt_dec y 0 then NegInf else PosInf
  | NegInf, Fin y => if Rlt_dec y 0 then PosInf else NegInf
  | (PosInf | NegInf), (PosInf | NegInf) => NaN
  end.

(** [Math.sqrt] *)
Definition sqrt (a : num) : num :=
  match a with
  | Fin x => if Rlt_dec x 0 then NaN else Fin (R_sqrt.sqrt x)
  | PosInf => PosInf
  | NegInf | NaN => NaN
  end.

(** [Math.abs] *)
Definition abs (a : num) : num :=
  match a with
  | Fin x => Fin (Rabs x)
  | PosInf | NegInf => PosInf
  | NaN => NaN
  end.

(** [a < b]; every comparison with [NaN] is false. *)
Definition ltb (a b : num) : bool :=
  match a, b with
  | NaN, _ | _, NaN => false
  | Fin x, Fin y => Rltb x y
  | _, NegInf => false
  | PosInf, _ => false
  | NegInf, _ => true
  | Fin _, PosInf => true
  end.

Definition gtb (a b : num) : bool := ltb b a.

(** [a === b] on numbers. *)
Definition eqb (a b : num) : bool :=
  match a, b with
  | Fin x, Fin y => Reqb x y
  | PosInf, PosInf | NegInf, NegInf => true
  | _, _ => false
  end.

(** Two-argument [Math.min] and [Math.max]. *)
Definition min (a b : num) : num :=
  match a, b with
  | NaN, _ | _, NaN => NaN
  | _, _ => if ltb b a then b else a
  end.

Definition max (a b : num) : num :=
  match a, b with
  | NaN, _ | _, NaN => NaN
  | _, _ => if ltb a b then b else a
  end.

(** [Math.min(...l)] and [Math.max(...l)]: the fold starts at the
    infinities, which is what the calls return on an empty list. *)
Definition min_list (l : list num) : num := fold_left min l PosInf.
Definition max_list (l : list num) : num := fold_left max l NegInf.

(** A number is finite when it is neither [NaN] nor an infinity
    ([Number.isFinite]). *)
Definition is_finite (a : num) : bool :=
  match a with Fin _ => true | _ => false end.

(** Truthiness of a number: [0] and [NaN] are falsy. *)
Definition truthy (a : num) : bool :=
  match a with
  | Fin x => negb (Reqb x 0)
  | NaN => false
  | PosInf | NegInf => true
  end.

(** The number that [x.toFixed(d)] renders, for the magnitudes this code
    formats: the multiple of [10^-d] nearest to [x], the one of larger
    magnitude on a tie ([Int_part] is the floor).  The rendering itself (a
    string) is not modelled; a field built with [toFixed] carries this
    number. *)
Definition round_half_up (x : R) : R := IZR (Int_part (x + / 2)).

Definition toFixedR (d : nat) (x : R) : R :=
  if Rlt_dec x 0
  then - (round_half_up (- x * 10 ^ d) / 10 ^ d)
  else round_half_up (x * 10 ^ d) / 10 ^ d.

Definition toFixed (d : nat) (a : num) : num :=
  match a with Fin x => Fin (toFixedR d x) | _ => a end.

End JSNum.

Import JSNum.

Declare Scope num_scope.
Delimit Scope num_scope with num.
Infix "+" := add : num_scope.
Infix "-" := sub : num_scope.
Infix "*" := mul : num_scope.
Infix "/" := div : num_scope.
Infix "<?" := ltb : num_scope.
Infix ">?" := gtb (at level 70) : num_scope.
Infix "===" := eqb (at level 70) : num_scope.

(* ================================================================== *)
(** * Data model *)
(* ================================================================== *)

(** One telemetry observation, with the fields the analysers read.  A field
    of option type may be [undefined] in the JavaScript object. *)
Record Sample : Type := mkSample {
  x : R;
  y : R;
  z : R;
  time : R;
  error : option R;
  error_xy : option R;
  error_z : option R;
  phase : string;
  stabilized : bool;
  networkQuality : option R;
  sequence_index : option nat
}.

(** A waypoint of the ideal path: [[x, y, z]]. *)
Definition Waypoint : Type := (R * R * R)%type.

(** The argument of [analyzeTrajectory]: [position_data] and the optional
    [sequence]. *)
Record FlightInput : Type := mkFlightInput {
  position_data : list Sample;
  sequence : option (list Waypoint)
}.

(** [o || d] on a possibly undefined number: [undefined] and [0] are falsy. *)
Definition or_default (o : option R) (d : R) : R :=
  match o with
  | Some r => if Reqb r 0 then d else r
  | None => d
  end.

(** [values.reduce((sum, val) => sum + val, 0)] *)
Definition sum_list (values : list R) : R := fold_left Rplus values 0.

(** [l.filter(f).length] *)
Definition count {A : Type} (f : A -> bool) (l : list A) : nat :=
  length (filter f l).

(** [0 < n] on lengths. *)
Definition nonempty {A : Type} (l : list A) : bool := (0 <? length l)%nat.

(* ================================================================== *)
(** * models/TrajectoryAnalyzer.js *)
(* ================================================================== *)

Module TrajectoryAnalyzer.

Definition calculateMean (values : list R) : R :=
  if (length values =? 0)%nat then 0
  else sum_list values / INR (length values).

Definition calculateStandardDeviation (values : list R) : R :=
  if (length values =? 0)%nat then 0
  else
    let mean := calculateMean values in
    let squaredDiffs := map (fun val => (val - mean) ^ 2) values in
    R_sqrt.sqrt (calculateMean squaredDiffs).

(** ** calculatePathAccuracy *)

Record AxisAccuracy : Type := mkAxisAccuracy {
  axis_average : R;
  axis_max : num;
  axis_min : num
}.

Record PathAccuracy : Type := mkPathAccuracy {
  averageError : R;
  maxError : R;
  minError : num;
  pa_totalPoints : nat;
  xyPlaneAccuracy : AxisAccuracy;
  altitudeAccuracy : AxisAccuracy
}.

(** The variables the [forEach] callback updates. *)
Record AccuracyAcc : Type := mkAccuracyAcc {
  acc_errors : list R;
  acc_xyErrors : list R;
  acc_zErrors : list R;
  acc_totalDeviation : R;
  acc_maxDeviation : R
}.

Definition accuracy_step (st : AccuracyAcc) (pos : Sample) : AccuracyAcc :=
  let st1 :=
    match error pos with
    | Some e =>
        mkAccuracyAcc (acc_errors st ++ [e]) (acc_xyErrors st) (acc_zErrors st)
          (acc_totalDeviation st + e)
          (if Rltb (acc_maxDeviation st) e then e else acc_maxDeviation st)
    | None => st
    end in
  let st2 :=
    match error_xy pos with
    | Some e =>
        mkAccuracyAcc (acc_errors st1) (acc_xyErrors st1 ++ [e])
          (acc_zErrors st1) (acc_totalDeviation st1) (acc_maxDeviation st1)
    | None => st1
    end in
  match error_z pos with
  | Some e =>
      mkAccuracyAcc (acc_errors st2) (acc_xyErrors st2)
        (acc_zErrors st2 ++ [e]) (acc_totalDeviation st2) (acc_maxDeviation st2)
  | None => st2
  end.

Definition axisAccuracy (errs : list R) : AxisAccuracy :=
  mkAxisAccuracy
    (if nonempty errs then calculateMean errs else 0)
    (if nonempty errs then max_list (map Fin errs) else Fin 0)
    (if nonempty errs then min_list (map Fin errs) else Fin 0).

Definition calculatePathAccuracy (positions : list Sample) : PathAccuracy :=
  let st := fold_left accuracy_step positions (mkAccuracyAcc [] [] [] 0 0) in
  let errors := acc_errors st in
  mkPathAccuracy
    (if nonempty errors then acc_totalDeviation st / INR (length errors) else 0)
    (acc_maxDeviation st)
    (if nonempty errors then min_list (map Fin errors) else Fin 0)
    (length errors)
    (axisAccuracy (acc_xyErrors st))
    (axisAccuracy (acc_zErrors st)).

(** ** calculateBasicStats and extractSequenceInfo *)

Definition is_phase (name : string) (p : Sample) : bool :=
  String.eqb (phase p) name.

(** [Set.add] keeps the first occurrence. *)
Definition set_add (s : list nat) (i : nat) : list nat :=
  if existsb (Nat.eqb i) s then s else s ++ [i].

(** Decimal rendering of an index, for the default (string) order of
    [Array.prototype.sort]. *)
Definition decimal (n : nat) : string :=
  NilEmpty.string_of_uint (Nat.to_uint n).

Fixpoint insert_by_string (i : nat) (sorted : list nat) : list nat :=
  match sorted with
  | [] => [i]
  | h :: t =>
      if String.ltb (decimal h) (decimal i)
      then h :: insert_by_string i t
      else if String.eqb (decimal h) (decimal i) then h :: insert_by_string i t
      else i :: h :: t
  end.

Definition default_sort (l : list nat) : list nat :=
  fold_left (fun sorted i => insert_by_string i sorted) l [].

Definition extractSequenceInfo (positions : list Sample) : list nat :=
  let sequenceIndices :=
    fold_left
      (fun s pos =>
         match sequence_index pos with Some i => set_add s i | None => s end)
      positions [] in
  default_sort sequenceIndices.

Record BasicStats : Type := mkBasicStats {
  bs_totalPoints : nat;
  waypointPoints : nat;
  transitPoints : nat;
  sequenceIndices : list nat
}.

Definition calculateBasicStats (positions : list Sample) : BasicStats :=
  let waypointPositions := filter (is_phase "waypoint") positions in
  let transitPositions := filter (is_phase "transit") positions in
  mkBasicStats (length positions) (length waypointPositions)
    (length transitPositions) (extractSequenceInfo positions).

(** ** analyzePhases *)

Record PhaseStats : Type := mkPhaseStats {
  ph_count : nat;
  ph_averageError : R;
  stabilizedCount : nat;
  stabilizationRate : R
}.

Definition phaseStats (ps : list Sample) : PhaseStats :=
  mkPhaseStats
    (length ps)
    (if nonempty ps
     then calculateMean (map (fun p => or_default (error p) 0) ps) else 0)
    (count stabilized ps)
    (if nonempty ps then INR (count stabilized ps) / INR (length ps) else 0).

Record PhaseAnalysis : Type := mkPhaseAnalysis {
  waypoint : PhaseStats;
  transit : PhaseStats
}.

Definition analyzePhases (positions : list Sample) : PhaseAnalysis :=
  let waypointPositions := filter (is_phase "waypoint") positions in
  let transitPositions := filter (is_phase "transit") positions in
  mkPhaseAnalysis (phaseStats waypointPositions) (phaseStats transitPositions).

(** ** calculateStabilityMetrics *)

Record StabilityMetrics : Type := mkStabilityMetrics {
  stabilizationRatio : R;
  stabilizedPoints : nat;
  unstabilizedPoints : nat;
  errorVariance : R;
  overallStabilityScore : R
}.

Definition calculateStabilityMetrics (positions : list Sample)
  : StabilityMetrics :=
  let stabilizedCount := count stabilized positions in
  let stabilizationRatio :=
    if nonempty positions
    then INR stabilizedCount / INR (length positions) else 0 in
  let errors := map (fun p => or_default (error p) 0) positions in
  let errorVariance := calculateStandardDeviation errors in
  mkStabilityMetrics
    stabilizationRatio
    stabilizedCount
    (length positions - stabilizedCount)
    errorVariance
    (Rmax 0 (100 - errorVariance * 1000)).

(** ** calculateActualDistance and calculateEfficiency *)

(** The distance loops: [i] runs from [1], [prev] is the element before
    [curr], and [total] is the running sum. *)
Fixpoint path_loop {A : Type} (dist : A -> A -> R)
    (prev : A) (rest : list A) (total : R) : R :=
  match rest with
  | [] => total
  | curr :: rest' => path_loop dist curr rest' (total + dist curr prev)
  end.

Definition path_length {A : Type} (dist : A -> A -> R) (l : list A) : R :=
  match l with
  | [] => 0
  | first :: rest => path_loop dist first rest 0
  end.

Definition sample_dist (curr prev : Sample) : R :=
  R_sqrt.sqrt ((x curr - x prev) ^ 2 + (y curr - y prev) ^ 2
               + (z curr - z prev) ^ 2).

Definition waypoint_dist (curr prev : Waypoint) : R :=
  let '(cx, cy, cz) := curr in
  let '(px, py, pz) := prev in
  R_sqrt.sqrt ((cx - px) ^ 2 + (cy - py) ^ 2 + (cz - pz) ^ 2).

Definition calculateActualDistance (positions : list Sample) : R :=
  path_length sample_dist positions.

Record Efficiency : Type := mkEfficiency {
  efficiencyRatio : num;
  actualDistance : R;
  idealDistance : R;
  excessDistance : option R
}.

(** [!sequence || sequence.length < 2] *)
Definition no_ideal_path (sequence : option (list Waypoint)) : bool :=
  match sequence with
  | None => true
  | Some s => (length s <? 2)%nat
  end.

Definition calculateEfficiency (positions : list Sample)
    (sequence : option (list Waypoint)) : Efficiency :=
  match sequence with
  | None =>
      mkEfficiency (Fin 0.85) (calculateActualDistance positions) 0 None
  | Some s =>
      if (length s <? 2)%nat then
        mkEfficiency (Fin 0.85) (calculateActualDistance positions) 0 None
      else
        let actualDistance := calculateActualDistance positions in
        let idealDistance := path_length waypoint_dist s in
        let efficiencyRatio :=
          if Rltb 0 idealDistance
          then (Fin idealDistance / Fin actualDistance)%num
          else Fin 0.85 in
        mkEfficiency (min (Fin 1) efficiencyRatio) actualDistance
          idealDistance (Some (actualDistance - idealDistance))
  end.

(** ** analyzeTrajectory *)

Record TrajectoryAnalysis : Type := mkTrajectoryAnalysis {
  pathAccuracy : PathAccuracy;
  basicStats : BasicStats;
  phaseAnalysis : PhaseAnalysis;
  stabilityMetrics : StabilityMetrics;
  trajectoryEfficiency : Efficiency
}.

Definition analyzeTrajectory (flightData : FlightInput) : TrajectoryAnalysis :=
  let positions := position_data flightData in
  mkTrajectoryAnalysis
    (calculatePathAccuracy positions)
    (calculateBasicStats positions)
    (analyzePhases positions)
    (calculateStabilityMetrics positions)
    (calculateEfficiency positions (sequence flightData)).

(** ** generateTrajectoryReport *)

(** The five summary entries carry the numbers the code renders with
    [toFixed]; the two percentages are rendered from [ratio * 100]. *)
Record ReportSummary : Type := mkReportSummary {
  averageAccuracy : R;
  rs_maxError : R;
  rs_totalPoints : nat;
  rs_stabilizationRate : R;
  rs_efficiencyRatio : num
}.

Record TrajectoryReport : Type := mkTrajectoryReport {
  summary : ReportSummary;
  detailed : TrajectoryAnalysis
}.

Definition generateTrajectoryReport (flightData : FlightInput)
  : TrajectoryReport :=
  let analysis := analyzeTrajectory flightData in
  mkTrajectoryReport
    (mkReportSummary
       (toFixedR 4 (averageError (pathAccuracy analysis)))
       (toFixedR 4 (maxError (pathAccuracy analysis)))
       (bs_totalPoints (basicStats analysis))
       (toFixedR 1 (stabilizationRatio (stabilityMetrics analysis) * 100))
       (toFixed 1
          (efficiencyRatio (trajectoryEfficiency analysis) * Fin 100)%num))
    analysis.

End TrajectoryAnalyzer.

(* ================================================================== *)
(** * models/UAVDataProcessor.js *)
(* ================================================================== *)

Module UAVDataProcessor.

(** [values.slice().sort((a, b) => a - b)]: a stable sort driven by the sign
    of the comparator. *)
Definition compare_numbers (a b : R) : R := a - b.

Fixpoint insert_sorted (a : R) (sorted : list R) : list R :=
  match sorted with
  | [] => [a]
  | h :: t =>
      if Rltb 0 (compare_numbers a h)
      then h :: insert_sorted a t
      else a :: h :: t
  end.

Definition sort_numbers (values : list R) : list R :=
  fold_right insert_sorted [] values.

Record Stats : Type := mkStats {
  average : R;
  median : R;
  min : R;
  max : R
}.

(** [sorted[i]]; the three indices read below are in range whenever the list
    is not empty, so the default is never returned. *)
Definition at_index (sorted : list R) (i : nat) : R := nth i sorted 0.

Definition calculateStats (values : list R) : Stats :=
  if (length values =? 0)%nat then mkStats 0 0 0 0
  else
    let sorted := sort_numbers values in
    let sum := fold_left Rplus values 0 in
    mkStats
      (sum / INR (length values))
      (at_index sorted (length sorted / 2))
      (at_index sorted 0)
      (at_index sorted (length sorted - 1)).

(** ** calculateBasicAnalysis *)

(** [l.map(p => p.error).filter(e => e !== undefined)] *)
Definition defined_errors (l : list Sample) : list R :=
  flat_map (fun p => match error p with Some e => [e] | None => [] end) l.

Definition is_waypoint (p : Sample) : bool := String.eqb (phase p) "waypoint".

Record WaypointAccuracy : Type := mkWaypointAccuracy {
  wa_stats : Stats;
  wa_count : nat;
  wa_percentage : num
}.

Record PositionAccuracy : Type := mkPositionAccuracy {
  pa_overall : Stats;
  pa_waypoint : WaypointAccuracy
}.

Record BasicAnalysis : Type := mkBasicAnalysis {
  ba_totalPoints : nat;
  ba_waypointPoints : nat;
  ba_transitPoints : nat;
  ba_responseTime : R;
  ba_positionAccuracy : PositionAccuracy
}.

(** [positions[positions.length - 1].time - positions[0].time], or 0 without
    positions. *)
Definition time_span (positions : list Sample) : R :=
  match positions with
  | [] => 0
  | first :: _ => time (last positions first) - time first
  end.

Definition calculateBasicAnalysis (positions : list Sample) : BasicAnalysis :=
  let errors := defined_errors positions in
  let waypointPositions := filter is_waypoint positions in
  let overallStats := calculateStats errors in
  let waypointErrors := defined_errors waypointPositions in
  let waypointStats := calculateStats waypointErrors in
  let responseTime := time_span positions in
  mkBasicAnalysis
    (length positions)
    (length waypointPositions)
    (length positions - length waypointPositions)
    responseTime
    (mkPositionAccuracy
       overallStats
       (mkWaypointAccuracy
          waypointStats
          (length waypointPositions)
          ((of_nat (length waypointPositions) / of_nat (length positions))
           * Fin 100)%num)).

Definition assignQualityGrade (score : R) : string :=
  if Rleb 90 score then "A"
  else if Rleb 80 score then "B"
  else if Rleb 70 score then "C"
  else if Rleb 60 score then "D"
  else "F".

Record QualityAssessment : Type := mkQualityAssessment {
  overallScore : R;
  breakdown_accuracy : R;
  grade : string
}.

(** The score before [Math.round]: [Math.min(100, Math.max(0, 100 - avgError
    * 1000))]. *)
Definition accuracyScore (avgError : R) : R :=
  Rmin 100 (Rmax 0 (100 - avgError * 1000)).

(** [Math.round] is [round_half_up]. *)
Definition calculateSimpleQualityScore (analysis : BasicAnalysis)
  : QualityAssessment :=
  let avgError := average (pa_overall (ba_positionAccuracy analysis)) in
  let accuracyScore := accuracyScore avgError in
  mkQualityAssessment
    (round_half_up accuracyScore)
    (round_half_up accuracyScore)
    (assignQualityGrade accuracyScore).

(** ** processFlightData *)

(** The uploaded document: [timestamp] and the analyser input. *)
Record Upload : Type := mkUpload {
  up_timestamp : string;
  up_data : FlightInput
}.

(** [{x, y, z, time, error: point.error || 0, phase: point.phase ||
    'transit'}]: every other property of the point is dropped.  An absent
    phase is the empty string, which is falsy too. *)
Definition processPoint (point : Sample) : Sample :=
  mkSample (x point) (y point) (z point) (time point)
    (Some (or_default (error point) 0)) None None
    (if String.eqb (phase point) "" then "transit" else phase point)
    false None None.

Record ProcessedFlight : Type := mkProcessedFlight {
  pf_flightName : string;
  pf_timestamp : string;
  pf_sequence : list Waypoint;
  pf_positionData : list Sample;
  pf_analysis : BasicAnalysis;
  pf_trajectoryAnalysis : TrajectoryAnalyzer.TrajectoryReport;
  pf_reliability : R;
  pf_performanceImpact : R;
  pf_qualityAssessment : QualityAssessment
}.

(** [createMockPerformanceMetrics] and [createMockNetworkAnalysis] *)
Definition createMockPerformanceMetrics : R := 95.
Definition createMockNetworkAnalysis : R := 5.

(** [metadata.flightName] is [None] when absent; the empty name is falsy. *)
Definition processFlightData (jsonData : Upload) (flightName : option string)
  : ProcessedFlight :=
  let flightName :=
    match flightName with
    | Some name =>
        if String.eqb name "" then ("Flight_" ++ up_timestamp jsonData)%string
        else name
    | None => ("Flight_" ++ up_timestamp jsonData)%string
    end in
  let processedPositions :=
    map processPoint (position_data (up_data jsonData)) in
  let basicAnalysis := calculateBasicAnalysis processedPositions in
  let trajectoryReport :=
    TrajectoryAnalyzer.generateTrajectoryReport (up_data jsonData) in
  mkProcessedFlight
    flightName
    (up_timestamp jsonData)
    (match sequence (up_data jsonData) with Some s => s | None => [] end)
    processedPositions
    basicAnalysis
    trajectoryReport
    createMockPerformanceMetrics
    createMockNetworkAnalysis
    (calculateSimpleQualityScore basicAnalysis).

End UAVDataProcessor.

(* ================================================================== *)
(** * JavaScript objects and exceptions *)
(* ================================================================== *)

(** The values an analysis result is made of.  An object is the list of its
    own properties, in insertion order. *)
Inductive jsval : Type :=
| VUndefined
| VNumber (n : num)
| VString (s : string)
| VArray (items : list jsval)
| VObject (props : list (string * jsval)).

Inductive exn : Type :=
| TypeError (reading : string).

Inductive result (A : Type) : Type :=
| Ok (a : A)
| Throw (e : exn).

Arguments Ok {A} a.
Arguments Throw {A} e.

Definition bind {A B : Type} (r : result A) (k : A -> result B) : result B :=
  match r with
  | Ok a => k a
  | Throw e => Throw e
  end.

Notation "'let*' v ':=' r 'in' k" := (bind r (fun v => k))
  (at level 10, v name, r at level 100, k at level 200).

Fixpoint lookup {A : Type} (key : string) (props : list (string * A))
  : option A :=
  match props with
  | [] => None
  | (k, v) :: rest => if String.eqb k key then Some v else lookup key rest
  end.

(** [v.key]: reading a property of [undefined] throws a TypeError; a property
    an object does not have reads as [undefined]. *)
Definition get (v : jsval) (key : string) : result jsval :=
  match v with
  | VUndefined => Throw (TypeError key)
  | VObject props =>
      match lookup key props with
      | Some w => Ok w
      | None => Ok VUndefined
      end
  | VNumber _ | VString _ | VArray _ => Ok VUndefined
  end.

(** The object literal each analyser function returns. *)
Module Reflect.
Import TrajectoryAnalyzer.

Definition VNat (n : nat) : jsval := VNumber (of_nat n).
Definition VReal (r : R) : jsval := VNumber (Fin r).

Definition axis (a : AxisAccuracy) : jsval :=
  VObject [("average", VReal (axis_average a)); ("max", VNumber (axis_max a));
           ("min", VNumber (axis_min a))]%string.

Definition path_accuracy (p : PathAccuracy) : jsval :=
  VObject [("averageError", VReal (averageError p));
           ("maxError", VReal (maxError p));
           ("minError", VNumber (minError p));
           ("totalPoints", VNat (pa_totalPoints p));
           ("xyPlaneAccuracy", axis (xyPlaneAccuracy p));
           ("altitudeAccuracy", axis (altitudeAccuracy p))]%string.

Definition basic_stats (b : BasicStats) : jsval :=
  VObject [("totalPoints", VNat (bs_totalPoints b));
           ("waypointPoints", VNat (waypointPoints b));
           ("transitPoints", VNat (transitPoints b));
           ("sequenceIndices", VArray (map VNat (sequenceIndices b)))]%string.

Definition phase_stats (p : PhaseStats) : jsval :=
  VObject [("count", VNat (ph_count p));
           ("averageError", VReal (ph_averageError p));
           ("stabilizedCount", VNat (stabilizedCount p));
           ("stabilizationRate", VReal (stabilizationRate p))]%string.

Definition phase_analysis (p : PhaseAnalysis) : jsval :=
  VObject [("waypoint", phase_stats (waypoint p));
           ("transit", phase_stats (transit p))]%string.

Definition stability_metrics (s : StabilityMetrics) : jsval :=
  VObject [("stabilizationRatio", VReal (stabilizationRatio s));
           ("stabilizedPoints", VNat (stabilizedPoints s));
           ("unstabilizedPoints", VNat (unstabilizedPoints s));
           ("errorVariance", VReal (errorVariance s));
           ("overallStabilityScore", VReal (overallStabilityScore s))]%string.

Definition efficiency (e : Efficiency) : jsval :=
  match excessDistance e with
  | None =>
      VObject [("efficiencyRatio", VNumber (efficiencyRatio e));
               ("actualDistance", VReal (actualDistance e));
               ("idealDistance", VReal (idealDistance e))]%string
  | Some excess =>
      VObject [("actualDistance", VReal (actualDistance e));
               ("idealDistance", VReal (idealDistance e));
               ("efficiencyRatio", VNumber (efficiencyRatio e));
               ("excessDistance", VReal excess)]%string
  end.

Definition trajectory_analysis (a : TrajectoryAnalysis) : jsval :=
  VObject [("pathAccuracy", path_accuracy (pathAccuracy a));
           ("basicStats", basic_stats (basicStats a));
           ("phaseAnalysis", phase_analysis (phaseAnalysis a));
           ("stabilityMetrics", stability_metrics (stabilityMetrics a));
           ("trajectoryEfficiency",
            efficiency (trajectoryEfficiency a))]%string.

End Reflect.

(* ================================================================== *)
(** * The trajectory router and its helper functions *)
(* ================================================================== *)

Module Routes.

Open Scope string_scope.

(** ** Stored flights: the fields of a flight document the router reads *)

Record WaypointAccuracy : Type := mkWaypointAccuracy {
  wp_count : nat;
  percentage : R
}.

Record PositionAccuracy : Type := mkPositionAccuracy {
  overall : UAVDataProcessor.Stats;
  waypoint : WaypointAccuracy
}.

Record Battery : Type := mkBattery {
  startVoltage : option R
}.

Record Analysis : Type := mkAnalysis {
  responseTime : R;
  positionAccuracy : PositionAccuracy;
  battery : Battery
}.

Record Flight : Type := mkFlight {
  flightId : nat;
  flightName : string;
  timestamp : string;
  createdAt : R;
  positionData : list Sample;
  sequence : option (list Waypoint);
  analysis : Analysis
}.

Definition overall_average (flight : Flight) : R :=
  UAVDataProcessor.average (overall (positionAccuracy (analysis flight))).

(** ** router.post('/compare'): the metrics of one compared flight *)

Record Metrics : Type := mkMetrics {
  overallStabilityScore : jsval;
  efficiencyRatio : jsval;
  pathSmoothness : jsval;
  networkCorrelation : jsval;
  averageError : jsval;
  totalTurns : jsval;
  stabilizationRatio : jsval
}.

Record Comparison : Type := mkComparison {
  cmp_flightId : nat;
  cmp_flightName : string;
  cmp_timestamp : string;
  metrics : Metrics
}.

Definition flightDataForAnalysis (flight : Flight) : FlightInput :=
  mkFlightInput (positionData flight) (sequence flight).

(** The analysis object the handler receives. *)
Definition analysis_of (flight : Flight) : jsval :=
  Reflect.trajectory_analysis
    (TrajectoryAnalyzer.analyzeTrajectory (flightDataForAnalysis flight)).

(** [a.k1.k2] *)
Definition get2 (a : jsval) (k1 k2 : string) : result jsval :=
  let* inner := get a k1 in get inner k2.

(** The [metrics] literal, its properties evaluated in source order. *)
Definition comparisonMetrics (flight : Flight) : result Metrics :=
  let analysis := analysis_of flight in
  let* overallStabilityScore :=
    get2 analysis "stabilityMetrics" "overallStabilityScore" in
  let* efficiencyRatio :=
    get2 analysis "trajectoryEfficiency" "efficiencyRatio" in
  let* pathSmoothness := get2 analysis "turnAnalysis" "pathSmoothness" in
  let* networkCorrelation :=
    get2 analysis "networkCorrelation" "networkErrorCorrelation" in
  let averageError := VNumber (Fin (overall_average flight)) in
  let* totalTurns := get2 analysis "turnAnalysis" "totalTurns" in
  let* stabilizationRatio :=
    get2 analysis "stabilityMetrics" "stabilizationRatio" in
  Ok (mkMetrics overallStabilityScore efficiencyRatio pathSmoothness
        networkCorrelation averageError totalTurns stabilizationRatio).

(** The [for (const flight of flights)] loop filling [comparisons]; an
    exception leaves the loop (the handler answers with status 500). *)
Fixpoint buildComparisons (flights : list Flight)
    (comparisons : list Comparison) : result (list Comparison) :=
  match flights with
  | [] => Ok comparisons
  | flight :: rest =>
      let* m := comparisonMetrics flight in
      buildComparisons rest
        (comparisons ++
           [mkComparison (flightId flight) (flightName flight)
              (timestamp flight) m])%list
  end.

(** ** calculateTrendDirection *)

Record DataPoint : Type := mkDataPoint {
  date : R;
  value : R
}.

(** [points.reduce((sum, point) => sum + point.value, 0)] *)
Definition sum_values (points : list DataPoint) : R :=
  fold_left (fun sum point => sum + value point) points 0.

(** The average of a half: the sum divided by the length of the half. *)
Definition half_average (half : list DataPoint) : num :=
  (Fin (sum_values half) / of_nat (length half))%num.

(** [((secondAvg - firstAvg) / firstAvg) * 100] *)
Definition changePercent (dataPoints : list DataPoint) : num :=
  let firstHalf := firstn (length dataPoints / 2) dataPoints in
  let secondHalf := skipn (length dataPoints / 2) dataPoints in
  let firstAvg := half_average firstHalf in
  let secondAvg := half_average secondHalf in
  (((secondAvg - firstAvg) / firstAvg) * Fin 100)%num.

Definition calculateTrendDirection (dataPoints : list DataPoint) : string :=
  if (length dataPoints <? 2)%nat then "insufficient_data"
  else
    let changePercent := changePercent dataPoints in
    if (changePercent >? Fin 10)%num then "improving"
    else if (changePercent <? Fin (-10))%num then "declining"
    else "stable".

(** ** identifyCommonIssues *)

Definition high_error_issue : string :=
  "More than 50% of flights show high positioning errors (>10cm)".

Definition low_battery_issue : string :=
  "30% of flights started with low battery voltage (<3.9V)".

Definition is_high_error (flight : Flight) : bool :=
  Rltb 0.1 (overall_average flight).

(** [undefined < 3.9] is false. *)
Definition is_low_battery (flight : Flight) : bool :=
  (of_option (startVoltage (battery (analysis flight))) <? Fin 3.9)%num.

Definition identifyCommonIssues (flights : list Flight) : list string :=
  let issues := [] in
  let highErrorFlights := filter is_high_error flights in
  let issues :=
    if Rltb (INR (length flights) * 0.5) (INR (length highErrorFlights))
    then (issues ++ [high_error_issue])%list else issues in
  let lowBatteryFlights := filter is_low_battery flights in
  let issues :=
    if Rltb (INR (length flights) * 0.3) (INR (length lowBatteryFlights))
    then (issues ++ [low_battery_issue])%list else issues in
  issues.

(** ** analyzeFlightPatterns *)

Record Patterns : Type := mkPatterns {
  trend_accuracy : string;
  trend_stability : string;
  insights : list string;
  recommendations : list string
}.

Definition analyzeFlightPatterns (flights : list Flight) : Patterns :=
  let accuracyTrend :=
    map (fun flight => mkDataPoint (createdAt flight) (overall_average flight))
      flights in
  let accuracy := calculateTrendDirection accuracyTrend in
  let stabilityTrend :=
    map (fun flight =>
           mkDataPoint (createdAt flight)
             (percentage (waypoint (positionAccuracy (analysis flight)))))
      flights in
  let stability := calculateTrendDirection stabilityTrend in
  let '(insights, recommendations) :=
    if String.eqb accuracy "improving"
    then (["Flight accuracy is improving over time"], [])
    else if String.eqb accuracy "declining"
    then (["Flight accuracy is declining - consider system maintenance"],
          ["Review and recalibrate positioning sensors"])
    else ([], []) in
  mkPatterns accuracy stability
    (insights ++ identifyCommonIssues flights)%list
    recommendations.

(** ** calculateTrendSummary *)

Record TrendPoint : Type := mkTrendPoint {
  period : string;
  tp_value : R;
  flightCount : nat;
  tp_date : R
}.

(** [overallChange] and [averageValue] carry the numbers the code renders
    with [toFixed(2)] and [toFixed(3)]. *)
Record TrendSummary : Type := mkTrendSummary {
  totalDataPoints : nat;
  overallChange : num;
  trend : string;
  averageValue : num
}.

Inductive SummaryResult : Type :=
| Message (message : string)
| Summary (s : TrendSummary).

(** [trends.reduce((sum, trend) => sum + trend.value, 0)] *)
Definition sum_trend_values (trends : list TrendPoint) : R :=
  fold_left (fun sum t => sum + tp_value t) trends 0.

Definition calculateTrendSummary (trends : list TrendPoint) : SummaryResult :=
  match trends with
  | [] | [_] => Message "Insufficient data for trend analysis"
  | first :: _ =>
      let firstValue := Fin (tp_value first) in
      let lastValue := Fin (tp_value (last trends first)) in
      let change := (((lastValue - firstValue) / firstValue) * Fin 100)%num in
      Summary
        (mkTrendSummary
           (length trends)
           (toFixed 2 change)
           (if (change >? Fin 5)%num then "improving"
            else if (change <? Fin (-5))%num then "declining" else "stable")
           (toFixed 3
              (Fin (sum_trend_values trends) / of_nat (length trends))%num))
  end.

(** ** calculateCorrelation *)

(** [l.reduce((sum, val, i) => f(sum, val, i), 0)] from index [i] on. *)
Fixpoint reduce_indexed (f : num -> num -> nat -> num)
    (l : list num) (i : nat) (sum : num) : num :=
  match l with
  | [] => sum
  | val :: rest => reduce_indexed f rest (S i) (f sum val i)
  end.

(** [y[i]] used as a number: out of range it reads [undefined]. *)
Definition item (y : list num) (i : nat) : num :=
  match nth_error y i with Some v => v | None => NaN end.

Definition calculateCorrelation (x y : list num) : num :=
  let n := length x in
  if negb (n =? length y)%nat || (n =? 0)%nat then Fin 0
  else
    let sumX := fold_left add x (Fin 0) in
    let sumY := fold_left add y (Fin 0) in
    let sumXY :=
      reduce_indexed (fun sum val i => (sum + val * item y i)%num) x 0%nat
        (Fin 0) in
    let sumXX := fold_left (fun sum val => (sum + val * val)%num) x (Fin 0) in
    let sumYY := fold_left (fun sum val => (sum + val * val)%num) y (Fin 0) in
    let numerator := (of_nat n * sumXY - sumX * sumY)%num in
    let denominator :=
      JSNum.sqrt ((of_nat n * sumXX - sumX * sumX)
                  * (of_nat n * sumYY - sumY * sumY))%num in
    if (denominator === Fin 0)%num then Fin 0
    else (numerator / denominator)%num.

(** ** analyzeNetworkImpact *)

(** [p.networkQuality || 100] *)
Definition quality (p : Sample) : R := or_default (networkQuality p) 100.

Definition is_excellent (p : Sample) : bool := Rleb 90 (quality p).
Definition is_good (p : Sample) : bool :=
  Rleb 70 (quality p) && Rltb (quality p) 90.
Definition is_fair (p : Sample) : bool :=
  Rleb 50 (quality p) && Rltb (quality p) 70.
Definition is_poor (p : Sample) : bool := Rltb (quality p) 50.

Definition segments (positionData : list Sample)
  : list (string * list Sample) :=
  [("excellent", filter is_excellent positionData);
   ("good", filter is_good positionData);
   ("fair", filter is_fair positionData);
   ("poor", filter is_poor positionData)].

(** The three rendered fields carry the numbers given to [toFixed]. *)
Record SegmentStats : Type := mkSegmentStats {
  seg_count : nat;
  seg_percentage : num;
  seg_averageError : num;
  seg_stabilizationRate : num
}.

Definition segmentStats (positionData data : list Sample) : SegmentStats :=
  mkSegmentStats
    (length data)
    (toFixed 1
       (of_nat (length data) / of_nat (length positionData) * Fin 100)%num)
    (toFixed 3
       (fold_left (fun sum p => (sum + of_option (error p))%num) data (Fin 0)
        / of_nat (length data))%num)
    (toFixed 1
       (of_nat (count stabilized data) / of_nat (length data) * Fin 100)%num).

(** The [Object.keys(segments).forEach] loop filling [analysis]: a segment
    gets a property only when it has data. *)
Definition segmentAnalysis (positionData : list Sample)
  : list (string * SegmentStats) :=
  fold_left
    (fun analysis seg =>
       let '(segment, data) := seg in
       if nonempty data
       then (analysis ++ [(segment, segmentStats positionData data)])%list
       else analysis)
    (segments positionData) [].

(** ** generateNetworkRecommendations *)

(** The three rules; the first one quotes [analysis.poor.percentage] in its
    message. *)
Inductive Recommendation : Type :=
| PoorNetworkShare (share : num)
| StrongNegativeCorrelation
| LowExcellentShare.

Definition priority (r : Recommendation) : string :=
  match r with
  | PoorNetworkShare _ => "high"
  | StrongNegativeCorrelation | LowExcellentShare => "medium"
  end.

Definition generateNetworkRecommendations
    (analysis : list (string * SegmentStats)) (correlation : num)
  : list Recommendation :=
  let r1 :=
    match lookup "poor" analysis with
    | Some poor =>
        if (seg_percentage poor >? Fin 10)%num
        then [PoorNetworkShare (seg_percentage poor)] else []
    | None => []
    end in
  let r2 :=
    if (correlation <? Fin (-0.5))%num
    then [StrongNegativeCorrelation] else [] in
  let r3 :=
    match lookup "excellent" analysis with
    | Some excellent =>
        if (seg_percentage excellent <? Fin 50)%num
        then [LowExcellentShare] else []
    | None => []
    end in
  (r1 ++ r2 ++ r3)%list.

Record CorrelationReport : Type := mkCorrelationReport {
  coefficient : num;
  strength : string;
  interpretation : string
}.

Record NetworkImpact : Type := mkNetworkImpact {
  ni_segmentAnalysis : list (string * SegmentStats);
  ni_correlation : CorrelationReport;
  ni_recommendations : list Recommendation
}.

Definition analyzeNetworkImpact (positionData : list Sample) : NetworkImpact :=
  let networkQualities := map (fun p => Fin (quality p)) positionData in
  let errors := map (fun p => of_option (error p)) positionData in
  let analysis := segmentAnalysis positionData in
  let correlation := calculateCorrelation networkQualities errors in
  mkNetworkImpact
    analysis
    (mkCorrelationReport
       (toFixed 3 correlation)
       (if (JSNum.abs correlation >? Fin 0.7)%num then "strong"
        else if (JSNum.abs correlation >? Fin 0.3)%num then "moderate"
        else "weak")
       (if (correlation <? Fin (-0.3))%num
        then "Network degradation significantly impacts flight performance"
        else if (correlation >? Fin 0.3)%num
        then "Unexpected positive correlation - investigate data quality"
        else "Network quality has minimal direct impact on flight errors"))
    (generateNetworkRecommendations analysis correlation).

(** ** generateComparativeInsights *)

(** A compared flight with its metrics as numbers (the insight messages call
    [toFixed] on them, which only numbers have). *)
Record ComparedFlight : Type := mkComparedFlight {
  cf_flightId : nat;
  cf_flightName : string;
  cf_stability : num;
  cf_efficiency : num;
  cf_smoothness : num;
  cf_correlation : num;
  cf_averageError : num
}.





Definition sum_num (l : list num) : num := fold_left add l (Fin 0).


(** ** calculatePerformanceVariation and generateComparisonSummary *)

(** [Math.sqrt(variance)] of the stability scores. *)
Definition stability_stdDev (comparisons : list ComparedFlight) : num :=
  let stabilityScores := map cf_stability comparisons in
  let mean := (sum_num stabilityScores / of_nat (length stabilityScores))%num in
  let variance :=
    (fold_left (fun sum val => (sum + (val - mean) * (val - mean))%num)
       stabilityScores (Fin 0)
     / of_nat (length stabilityScores))%num in
  JSNum.sqrt variance.

Definition calculatePerformanceVariation (comparisons : list ComparedFlight)
  : string :=
  let stdDev := stability_stdDev comparisons in
  if (stdDev <? Fin 5)%num then "Low - Consistent performance"
  else if (stdDev <? Fin 15)%num then "Medium - Some variation in performance"
  else "High - Significant performance differences".

Record ComparisonSummary : Type := mkComparisonSummary {
  averageStability : num;
  averageEfficiency : num;
  averageAccuracy : num;
  averageSmoothness : num;
  performanceVariation : string
}.

Definition average_num (l : list num) : num :=
  (sum_num l / of_nat (length l))%num.

Definition generateComparisonSummary (comparisons : list ComparedFlight)
  : ComparisonSummary :=
  let stability := map cf_stability comparisons in
  let efficiency :=
    map (fun f => (cf_efficiency f * Fin 100)%num) comparisons in
  let accuracy := map cf_averageError comparisons in
  let smoothness :=
    map (fun f => (cf_smoothness f * Fin 100)%num) comparisons in
  mkComparisonSummary
    (toFixed 1 (average_num stability))
    (toFixed 1 (average_num efficiency))
    (toFixed 3 (average_num accuracy))
    (toFixed 1 (average_num smoothness))
    (calculatePerformanceVariation comparisons).

(** ** groupFlightsByPeriod and generatePerformanceTrends *)

Section PerformanceTrends.

(** The key of the period ([daily], [weekly], [monthly]) a creation date
    falls in: a date string, computed by the [Date] methods. *)
Variable periodKey : string -> R -> string.

(** [grouped[key].push(flight)], after creating the property if needed; a
    new property comes last. *)
Fixpoint group_push (key : string) (flight : Flight)
    (grouped : list (string * list Flight)) : list (string * list Flight) :=
  match grouped with
  | [] => [(key, [flight])]
  | (k, fs) :: rest =>
      if String.eqb k key then (k, (fs ++ [flight])%list) :: rest
      else (k, fs) :: group_push key flight rest
  end.

Definition groupFlightsByPeriod (flights : list Flight) (period : string)
  : list (string * list Flight) :=
  fold_left
    (fun grouped flight =>
       group_push (periodKey period (createdAt flight)) flight grouped)
    flights [].

Record PeriodTrend : Type := mkPeriodTrend {
  pt_period : string;
  pt_value : num;
  pt_flightCount : nat;
  pt_date : R
}.

(** [periodFlights.reduce((sum, flight) => sum + m(flight), 0) /
    periodFlights.length] *)
Definition sum_metric (m : Flight -> R) (periodFlights : list Flight) : R :=
  fold_left (fun sum flight => sum + m flight) periodFlights 0.

Definition period_average (m : Flight -> R) (periodFlights : list Flight)
  : num :=
  (Fin (sum_metric m periodFlights) / of_nat (length periodFlights))%num.

Definition metric_value (metric : string) (periodFlights : list Flight)
  : num :=
  if String.eqb metric "accuracy"
  then period_average overall_average periodFlights
  else if String.eqb metric "stability"
  then period_average
         (fun flight =>
            percentage (waypoint (positionAccuracy (analysis flight))))
         periodFlights
  else if String.eqb metric "response_time"
  then period_average (fun flight => responseTime (analysis flight))
         periodFlights
  else Fin 0.

(** [periodFlights[0].createdAt]; a group always has a first flight. *)
Definition first_date (periodFlights : list Flight) : R :=
  match periodFlights with
  | first :: _ => createdAt first
  | [] => 0
  end.

(** The stable sort by [new Date(a.date) - new Date(b.date)]. *)
Fixpoint insert_by_date (t : PeriodTrend) (sorted : list PeriodTrend)
  : list PeriodTrend :=
  match sorted with
  | [] => [t]
  | h :: rest =>
      if Rltb 0 (pt_date t - pt_date h)
      then h :: insert_by_date t rest
      else t :: h :: rest
  end.

Definition sort_by_date (l : list PeriodTrend) : list PeriodTrend :=
  fold_right insert_by_date [] l.

Definition generatePerformanceTrends (flights : list Flight)
    (metric period : string) : list PeriodTrend :=
  let groupedData := groupFlightsByPeriod flights period in
  sort_by_date
    (map (fun entry =>
            let '(periodKey, periodFlights) := entry in
            mkPeriodTrend periodKey (metric_value metric periodFlights)
              (length periodFlights) (first_date periodFlights))
       groupedData).

End PerformanceTrends.

End Routes.

(* ================================================================== *)
(** * models/UAVDataProcessor.js: the views of a stored flight *)
(* ================================================================== *)

Module FlightViews.

(** ** generate3DVisualizationData *)






(** ** generateSimpleAnalysisResult *)



End FlightViews.

(* ================================================================== *)
(** * models/UAVDataProcessor.js: validateFlightData *)
(* ================================================================== *)

Module Validation.

(** A parsed JSON document. *)
Inductive json : Type :=
| JNull
| JBool (b : bool)
| JNumber (n : num)
| JString (s : string)
| JArray (items : list json)
| JObject (props : list (string * json)).

(** [v[field]] for the field names the validator reads: it throws on
    [null], gives the property of an object, and is [undefined] ([None]) on
    every other value. *)
Definition read (v : json) (field : string) : result (option json) :=
  match v with
  | JNull => Throw (TypeError field)
  | JObject props => Ok (lookup field props)
  | JBool _ | JNumber _ | JString _ | JArray _ => Ok None
  end.

(** Truthiness: [undefined], [null], [false], [0], [NaN] and the empty
    string are falsy. *)
Definition truthy (v : option json) : bool :=
  match v with
  | None | Some JNull => false
  | Some (JBool b) => b
  | Some (JNumber n) => JSNum.truthy n
  | Some (JString s) => negb (String.eqb s "")
  | Some (JArray _) | Some (JObject _) => true
  end.

Inductive ValidationError : Type :=
| MissingRequiredField (field : string)
| NotANonEmptyArray
| MissingPointField (field : string)
| DataFormatError.

Inductive Validation : Type :=
| Valid
| Invalid (error : ValidationError).

(** The loop over the required fields: [Some] is an early [return]. *)
Fixpoint check_required (data : json) (fields : list string)
  : result (option Validation) :=
  match fields with
  | [] => Ok None
  | field :: rest =>
      let* v := read data field in
      if truthy v then check_required data rest
      else Ok (Some (Invalid (MissingRequiredField field)))
  end.

(** The loop over the fields of the first point; a property that is present
    with the value [null] is not [undefined]. *)
Fixpoint check_point (firstPoint : json) (fields : list string)
  : result (option Validation) :=
  match fields with
  | [] => Ok None
  | field :: rest =>
      let* v := read firstPoint field in
      match v with
      | None => Ok (Some (Invalid (MissingPointField field)))
      | Some _ => check_point firstPoint rest
      end
  end.

(** The body of the [try] block. *)
Definition validate_body (data : json) : result Validation :=
  let* required := check_required data ["timestamp"; "position_data"]%string in
  match required with
  | Some answer => Ok answer
  | None =>
      let* position_data := read data "position_data" in
      match position_data with
      | Some (JArray (firstPoint :: _)) =>
          let* missing := check_point firstPoint ["x"; "y"; "z"; "time"]%string in
          match missing with
          | Some answer => Ok answer
          | None => Ok Valid
          end
      | _ => Ok (Invalid NotANonEmptyArray)
      end
  end.

Definition validateFlightData (data : json) : Validation :=
  match validate_body data with
  | Ok answer => answer
  | Throw _ => Invalid DataFormatError
  end.

End Validation.

(* ================================================================== *)
(** * Vocabulary of the specification *)
(* ================================================================== *)

(** The notions the properties are stated with, defined independently of the
    code above. *)
Module Spec.

(** Sum of the distances between consecutive points of a path. *)
Fixpoint consecutive_sum {A : Type} (dist : A -> A -> R) (l : list A) : R :=
  match l with
  | [] => 0
  | a :: t =>
      match t with
      | [] => 0
      | b :: _ => dist b a + consecutive_sum dist t
      end
  end.

(** Arithmetic mean and population standard deviation. *)
Definition total (l : list R) : R := fold_right Rplus 0 l.

Definition mean (l : list R) : R := total l / INR (length l).

Definition population_stddev (l : list R) : R :=
  match l with
  | [] => 0
  | _ => R_sqrt.sqrt (mean (map (fun v => Rsqr (v - mean l)) l))
  end.

(** The error of each sample, an absent error counting as 0. *)
Definition sample_errors (positions : list Sample) : list R :=
  map (fun p => match error p with Some e => e | None => 0 end) positions.

(** Sums used by the Pearson coefficient. *)
Definition sum_squares (l : list R) : R := total (map (fun v => v * v) l).

Definition dot (x y : list R) : R :=
  total (map (fun p => fst p * snd p) (combine x y)).

(** [n * sum(v^2) - sum(v)^2], which is [n^2] times the population variance. *)
Definition spread (l : list R) : R :=
  INR (length l) * sum_squares l - total l * total l.



(** The two halves a series is split into, and the label the relative change
    of the mean of the second half over the mean [fa] of the first half
    gets: above 10 percent, below -10 percent, or neither.  A zero [fa]
    makes the change infinite, of the sign of the difference, or undefined
    when the difference is zero too. *)
Definition first_half (l : list R) : list R := firstn (length l / 2) l.
Definition second_half (l : list R) : list R := skipn (length l / 2) l.

Definition direction_of_means (fa sa : R) : string :=
  if Req_dec_T fa 0 then
    if Rlt_dec 0 (sa - fa) then "improving"
    else if Rlt_dec (sa - fa) 0 then "declining" else "stable"
  else
    if Rlt_dec 10 ((sa - fa) / fa * 100) then "improving"
    else if Rlt_dec ((sa - fa) / fa * 100) (-10) then "declining"
    else "stable".

(** Sum of the [count] fields of the segments present in a segment
    analysis. *)
Definition reported_total (analysis : list (string * Routes.SegmentStats))
  : nat :=
  fold_right (fun entry acc => (Routes.seg_count (snd entry) + acc)%nat)
    0%nat analysis.



(** What grouping by a key keeps true of the groups of the flights [done]:
    the keys are distinct, the groups partition the flights, no group is
    empty, a group holds flights of its key only, and every flight has its
    key among the groups. *)
Definition groups_of (key : Routes.Flight -> string)
    (done : list Routes.Flight)
    (grouped : list (string * list Routes.Flight)) : Prop :=
  NoDup (map fst grouped) /\
  list_sum (map (fun e => length (snd e)) grouped) = length done /\
  (forall k fs, In (k, fs) grouped ->
     exists first rest,
       fs = first :: rest /\ In first done /\
       forall f, In f fs -> key f = k) /\
  (forall f, In f done -> In (key f) (map fst grouped)).

End Spec.

(** Sample data for the examples below. *)
Module Examples.

Definition sample_with_error (e : R) : Sample :=
  mkSample 0 0 0 0 (Some e) None None "waypoint" true None None.

(** A stored flight with the given average error and start voltage. *)
Definition flight_with (avg : R) (voltage : option R) : Routes.Flight :=
  Routes.mkFlight 0 "flight" "20250513_194215" 0 [] None
    (Routes.mkAnalysis 0
       (Routes.mkPositionAccuracy
          (UAVDataProcessor.mkStats avg avg avg avg)
          (Routes.mkWaypointAccuracy 0 0))
       (Routes.mkBattery voltage)).

(** Ten flights, [k] of them with an average error of 0.2 m and the others
    with 0.05 m; none records a start voltage. *)
Definition ten_flights (k : nat) : list Routes.Flight :=
  repeat (flight_with 0.2 None) k ++ repeat (flight_with 0.05 None) (10 - k).

(** A metric series with the given values. *)
Definition series (values : list R) : list Routes.DataPoint :=
  map (Routes.mkDataPoint 0) values.

(** A trend series with the given values. *)
Definition trend_series (values : list R) : list Routes.TrendPoint :=
  map (fun v => Routes.mkTrendPoint "2025-05-13" v 1 0) values.

(** An upload of one stabilized sample taken at a network quality of 30. *)
Definition poor_network_sample : Sample :=
  mkSample 0 0 0 0 (Some 0.05) None None "waypoint" true (Some 30) None.

Definition poor_network_upload : UAVDataProcessor.Upload :=
  UAVDataProcessor.mkUpload "20250514_104755"
    (mkFlightInput [poor_network_sample] None).




(** The valid document of the unit test, followed by a [null] element. *)
Definition first_point : list (string * Validation.json) :=
  [("x", Validation.JNumber (Fin 0)); ("y", Validation.JNumber (Fin 0));
   ("z", Validation.JNumber (Fin 0.5)); ("time", Validation.JNumber (Fin 0));
   ("phase", Validation.JString "waypoint");
   ("error", Validation.JNumber (Fin 0.02))]%string.

Definition document : Validation.json :=
  Validation.JObject
    [("timestamp", Validation.JString "20250514_104755");
     ("position_data",
      Validation.JArray [Validation.JObject first_point; Validation.JNull])
    ]%string.

End Examples.

(* ================================================================== *)
(** * The analysers over floating-point arithmetic *)
(* ================================================================== *)

(** The functions whose results depend on the rounding of JavaScript's
    binary64 arithmetic, written once over an abstract arithmetic and read in
    two ways: [binary64] computes with IEEE-754 binary64 numbers, and
    [rounded rnd] computes with real numbers, every operation being followed
    by the rounding [rnd]. *)
Module Float.

Open Scope string_scope.

Record Arith : Type := mkArith {
  F : Type;
  of_Z : Z -> F;
  add : F -> F -> F;
  sub : F -> F -> F;
  mul : F -> F -> F;
  div : F -> F -> F;
  sqrt : F -> F;
  abs : F -> F;
  ltb : F -> F -> bool;
  leb : F -> F -> bool;
  eqb : F -> F -> bool
}.

(** ** IEEE-754 binary64 *)

(** The binary64 number of an integer: exact below [2^53]. *)
Fixpoint of_positive (p : positive) : PrimFloat.float :=
  match p with
  | xH => PrimFloat.one
  | xO q => PrimFloat.mul PrimFloat.two (of_positive q)
  | xI q =>
      PrimFloat.add (PrimFloat.mul PrimFloat.two (of_positive q))
        PrimFloat.one
  end.

Definition of_integer (k : Z) : PrimFloat.float :=
  match k with
  | Z0 => PrimFloat.zero
  | Zpos p => of_positive p
  | Zneg p => PrimFloat.opp (of_positive p)
  end.

Definition binary64 : Arith :=
  mkArith PrimFloat.float of_integer PrimFloat.add PrimFloat.sub
    PrimFloat.mul PrimFloat.div PrimFloat.sqrt PrimFloat.abs PrimFloat.ltb
    PrimFloat.leb PrimFloat.eqb.

(** ** Real arithmetic with a rounding after every operation *)

Definition round (rnd : R -> R) (a : num) : num :=
  match a with
  | Fin r => Fin (rnd r)
  | _ => a
  end.

(** [a <= b]; every comparison with [NaN] is false. *)
Definition num_leb (a b : num) : bool := JSNum.ltb a b || JSNum.eqb a b.

(** The integers of this code (lengths and small literals) are below [2^53]
    and are numbers as they are. *)
Definition rounded (rnd : R -> R) : Arith :=
  mkArith num (fun k => Fin (IZR k))
    (fun a b => round rnd (JSNum.add a b))
    (fun a b => round rnd (JSNum.sub a b))
    (fun a b => round rnd (JSNum.mul a b))
    (fun a b => round rnd (JSNum.div a b))
    (fun a => round rnd (JSNum.sqrt a))
    JSNum.abs JSNum.ltb num_leb JSNum.eqb.

(** Real arithmetic without rounding. *)
Definition exact : Arith := rounded (fun r => r).

(** ** The analysers *)

Section Analysers.

Variable A : Arith.

Definition zero : F A := of_Z A 0.

Definition of_nat (n : nat) : F A := of_Z A (Z.of_nat n).

(** The decimal literal [p / q], [q] a power of ten: the number nearest to
    the quotient. *)
Definition dec (p q : Z) : F A := div A (of_Z A p) (of_Z A q).

Definition nan : F A := div A zero zero.

Definition infinity : F A := div A (of_Z A 1) zero.

Definition neg_infinity : F A := div A (of_Z A (-1)) zero.

Definition is_nan (a : F A) : bool := negb (eqb A a a).

Definition gtb (a b : F A) : bool := ltb A b a.

(** Two-argument [Math.max] and [Math.min]. *)
Definition max (a b : F A) : F A :=
  if is_nan a || is_nan b then nan else if ltb A a b then b else a.

Definition min (a b : F A) : F A :=
  if is_nan a || is_nan b then nan else if ltb A b a then b else a.

(** [Math.pow(a, 2)]: the square, taken as the rounded product [a * a]. *)
Definition pow2 (a : F A) : F A := mul A a a.

(** [o || d] on a possibly undefined number: [undefined], [0] and [NaN] are
    falsy. *)
Definition truthy (a : F A) : bool := negb (eqb A a zero || is_nan a).

Definition or_default (o : option (F A)) (d : F A) : F A :=
  match o with
  | Some v => if truthy v then v else d
  | None => d
  end.

(** [values.reduce((sum, val) => sum + val, 0)] *)
Definition sum_list (values : list (F A)) : F A :=
  fold_left (add A) values zero.

(** *** TrajectoryAnalyzer.calculateMean, calculateStandardDeviation *)

Definition calculateMean (values : list (F A)) : F A :=
  if (length values =? 0)%nat then zero
  else div A (sum_list values) (of_nat (length values)).

Definition calculateStandardDeviation (values : list (F A)) : F A :=
  if (length values =? 0)%nat then zero
  else
    let mean := calculateMean values in
    let squaredDiffs := map (fun val => pow2 (sub A val mean)) values in
    sqrt A (calculateMean squaredDiffs).

(** *** TrajectoryAnalyzer.calculateStabilityMetrics *)

(** The fields of a sample that the functions of this module read. *)
Record Sample : Type := mkSample {
  x : F A;
  y : F A;
  z : F A;
  error : option (F A);
  error_xy : option (F A);
  error_z : option (F A);
  stabilized : bool
}.

Record StabilityMetrics : Type := mkStabilityMetrics {
  stabilizationRatio : F A;
  stabilizedPoints : nat;
  unstabilizedPoints : nat;
  errorVariance : F A;
  overallStabilityScore : F A
}.

Definition calculateStabilityMetrics (positions : list Sample)
  : StabilityMetrics :=
  let stabilizedCount := count stabilized positions in
  let stabilizationRatio :=
    if nonempty positions
    then div A (of_nat stabilizedCount) (of_nat (length positions))
    else zero in
  let errors := map (fun p => or_default (error p) zero) positions in
  let errorVariance := calculateStandardDeviation errors in
  mkStabilityMetrics
    stabilizationRatio
    stabilizedCount
    (length positions - stabilizedCount)
    errorVariance
    (max zero (sub A (of_Z A 100) (mul A errorVariance (of_Z A 1000)))).

(** *** TrajectoryAnalyzer.calculatePathAccuracy *)

(** [Math.min(...l)] and [Math.max(...l)]: the fold starts at the
    infinities, which is what the calls return on an empty list. *)
Definition min_list (l : list (F A)) : F A := fold_left min l infinity.
Definition max_list (l : list (F A)) : F A := fold_left max l neg_infinity.

Record AxisAccuracy : Type := mkAxisAccuracy {
  axis_average : F A;
  axis_max : F A;
  axis_min : F A
}.

Record PathAccuracy : Type := mkPathAccuracy {
  averageError : F A;
  maxError : F A;
  minError : F A;
  pa_totalPoints : nat;
  xyPlaneAccuracy : AxisAccuracy;
  altitudeAccuracy : AxisAccuracy
}.

(** The variables the [forEach] callback updates. *)
Record AccuracyAcc : Type := mkAccuracyAcc {
  acc_errors : list (F A);
  acc_xyErrors : list (F A);
  acc_zErrors : list (F A);
  acc_totalDeviation : F A;
  acc_maxDeviation : F A
}.

Definition accuracy_step (st : AccuracyAcc) (pos : Sample) : AccuracyAcc :=
  let st1 :=
    match error pos with
    | Some e =>
        mkAccuracyAcc (acc_errors st ++ [e]) (acc_xyErrors st) (acc_zErrors st)
          (add A (acc_totalDeviation st) e)
          (if gtb e (acc_maxDeviation st) then e else acc_maxDeviation st)
    | None => st
    end in
  let st2 :=
    match error_xy pos with
    | Some e =>
        mkAccuracyAcc (acc_errors st1) (acc_xyErrors st1 ++ [e])
          (acc_zErrors st1) (acc_totalDeviation st1) (acc_maxDeviation st1)
    | None => st1
    end in
  match error_z pos with
  | Some e =>
      mkAccuracyAcc (acc_errors st2) (acc_xyErrors st2)
        (acc_zErrors st2 ++ [e]) (acc_totalDeviation st2) (acc_maxDeviation st2)
  | None => st2
  end.

Definition axisAccuracy (errs : list (F A)) : AxisAccuracy :=
  mkAxisAccuracy
    (if nonempty errs then calculateMean errs else zero)
    (if nonempty errs then max_list errs else zero)
    (if nonempty errs then min_list errs else zero).

Definition calculatePathAccuracy (positions : list Sample) : PathAccuracy :=
  let st :=
    fold_left accuracy_step positions (mkAccuracyAcc [] [] [] zero zero) in
  let errors := acc_errors st in
  mkPathAccuracy
    (if nonempty errors
     then div A (acc_totalDeviation st) (of_nat (length errors)) else zero)
    (acc_maxDeviation st)
    (if nonempty errors then min_list errors else zero)
    (length errors)
    (axisAccuracy (acc_xyErrors st))
    (axisAccuracy (acc_zErrors st)).

(** *** TrajectoryAnalyzer.calculateActualDistance *)

Definition sample_dist (curr prev : Sample) : F A :=
  sqrt A
    (add A
       (add A (pow2 (sub A (x curr) (x prev)))
          (pow2 (sub A (y curr) (y prev))))
       (pow2 (sub A (z curr) (z prev)))).

(** The loop: [i] runs from [1], [prev] is the element before [curr]. *)
Fixpoint distance_loop (prev : Sample) (rest : list Sample) (total : F A)
  : F A :=
  match rest with
  | [] => total
  | curr :: rest' =>
      distance_loop curr rest' (add A total (sample_dist curr prev))
  end.

Definition calculateActualDistance (positions : list Sample) : F A :=
  match positions with
  | [] => zero
  | first :: rest => distance_loop first rest zero
  end.

(** *** UAVDataProcessor.calculateStats *)

(** [values.slice().sort((a, b) => a - b)]: a stable sort driven by the sign
    of the comparator. *)
Fixpoint insert_sorted (a : F A) (sorted : list (F A)) : list (F A) :=
  match sorted with
  | [] => [a]
  | h :: t =>
      if gtb (sub A a h) zero
      then h :: insert_sorted a t
      else a :: h :: t
  end.

Definition sort_numbers (values : list (F A)) : list (F A) :=
  fold_right insert_sorted [] values.

Record Stats : Type := mkStats {
  average : F A;
  median : F A;
  min_value : F A;
  max_value : F A
}.

(** [sorted[i]], read in range. *)
Definition at_index (sorted : list (F A)) (i : nat) : F A :=
  nth i sorted zero.

Definition calculateStats (values : list (F A)) : Stats :=
  if (length values =? 0)%nat then mkStats zero zero zero zero
  else
    let sorted := sort_numbers values in
    let sum := sum_list values in
    mkStats
      (div A sum (of_nat (length values)))
      (at_index sorted (length sorted / 2))
      (at_index sorted 0)
      (at_index sorted (length sorted - 1)).

(** *** UAVDataProcessor.calculateSimpleQualityScore, assignQualityGrade *)

Definition assignQualityGrade (score : F A) : string :=
  if leb A (of_Z A 90) score then "A"
  else if leb A (of_Z A 80) score then "B"
  else if leb A (of_Z A 70) score then "C"
  else if leb A (of_Z A 60) score then "D"
  else "F".

(** The accuracy score before [Math.round]. *)
Definition accuracyScore (avgError : F A) : F A :=
  min (of_Z A 100)
    (max zero (sub A (of_Z A 100) (mul A avgError (of_Z A 1000)))).

(** The grade of [calculateSimpleQualityScore], from the overall average
    error of the analysis. *)
Definition qualityGrade (avgError : F A) : string :=
  assignQualityGrade (accuracyScore avgError).

(** *** calculateCorrelation *)

(** [l.reduce((sum, val, i) => f(sum, val, i), 0)] from index [i] on. *)
Fixpoint reduce_indexed (f : F A -> F A -> nat -> F A)
    (l : list (F A)) (i : nat) (sum : F A) : F A :=
  match l with
  | [] => sum
  | val :: rest => reduce_indexed f rest (S i) (f sum val i)
  end.

(** [y[i]] used as a number: out of range it reads [undefined]. *)
Definition item (y : list (F A)) (i : nat) : F A :=
  match nth_error y i with
  | Some v => v
  | None => nan
  end.

Definition calculateCorrelation (x y : list (F A)) : F A :=
  let n := length x in
  if negb (n =? length y)%nat || (n =? 0)%nat then zero
  else
    let sumX := sum_list x in
    let sumY := sum_list y in
    let sumXY :=
      reduce_indexed (fun sum val i => add A sum (mul A val (item y i)))
        x 0%nat zero in
    let sumXX := fold_left (fun sum val => add A sum (mul A val val)) x zero in
    let sumYY := fold_left (fun sum val => add A sum (mul A val val)) y zero in
    let numerator := sub A (mul A (of_nat n) sumXY) (mul A sumX sumY) in
    let denominator :=
      sqrt A
        (mul A (sub A (mul A (of_nat n) sumXX) (mul A sumX sumX))
           (sub A (mul A (of_nat n) sumYY) (mul A sumY sumY))) in
    if eqb A denominator zero then zero
    else div A numerator denominator.

(** *** calculateTrendDirection *)

(** A point of a metric series; the date is a time stamp. *)
Record DataPoint : Type := mkDataPoint {
  date : R;
  value : F A
}.

(** [points.reduce((sum, point) => sum + point.value, 0)] *)
Definition sum_values (points : list DataPoint) : F A :=
  fold_left (fun sum point => add A sum (value point)) points zero.

Definition half_average (half : list DataPoint) : F A :=
  div A (sum_values half) (of_nat (length half)).

(** [((secondAvg - firstAvg) / firstAvg) * 100] *)
Definition changePercent (dataPoints : list DataPoint) : F A :=
  let firstHalf := firstn (length dataPoints / 2) dataPoints in
  let secondHalf := skipn (length dataPoints / 2) dataPoints in
  let firstAvg := half_average firstHalf in
  let secondAvg := half_average secondHalf in
  mul A (div A (sub A secondAvg firstAvg) firstAvg) (of_Z A 100).

Definition calculateTrendDirection (dataPoints : list DataPoint) : string :=
  if (length dataPoints <? 2)%nat then "insufficient_data"
  else
    let changePercent := changePercent dataPoints in
    if gtb changePercent (of_Z A 10) then "improving"
    else if ltb A changePercent (of_Z A (-10)) then "declining"
    else "stable".

(** *** calculateTrendSummary *)

Record TrendPoint : Type := mkTrendPoint {
  period : string;
  tp_value : F A;
  flightCount : nat;
  tp_date : R
}.

(** [overallChange] and [averageValue] are the numbers the code gives to
    [toFixed]; their rendering is not part of this record. *)
Record TrendSummary : Type := mkTrendSummary {
  totalDataPoints : nat;
  overallChange : F A;
  trend : string;
  averageValue : F A
}.

Inductive SummaryResult : Type :=
| Message (message : string)
| Summary (s : TrendSummary).

Definition calculateTrendSummary (trends : list TrendPoint) : SummaryResult :=
  match trends with
  | [] | [_] => Message "Insufficient data for trend analysis"
  | first :: _ =>
      let firstValue := tp_value first in
      let lastValue := tp_value (last trends first) in
      let change :=
        mul A (div A (sub A lastValue firstValue) firstValue) (of_Z A 100) in
      Summary
        (mkTrendSummary
           (length trends)
           change
           (if gtb change (of_Z A 5) then "improving"
            else if ltb A change (of_Z A (-5)) then "declining"
            else "stable")
           (div A
              (fold_left (fun sum t => add A sum (tp_value t)) trends zero)
              (of_nat (length trends))))
  end.

(** *** calculatePerformanceVariation *)

(** The argument is [comparisons.map(f => f.metrics.overallStabilityScore)],
    the first line of the function. *)
Definition calculatePerformanceVariation (stabilityScores : list (F A))
  : string :=
  let mean :=
    div A (sum_list stabilityScores) (of_nat (length stabilityScores)) in
  let variance :=
    div A
      (fold_left (fun sum val => add A sum (pow2 (sub A val mean)))
         stabilityScores zero)
      (of_nat (length stabilityScores)) in
  let stdDev := sqrt A variance in
  if ltb A stdDev (of_Z A 5) then "Low - Consistent performance"
  else if ltb A stdDev (of_Z A 15)
  then "Medium - Some variation in performance"
  else "High - Significant performance differences".

(** *** identifyCommonIssues and analyzeFlightPatterns *)

(** The fields of a stored flight that the two functions read. *)
Record Flight : Type := mkFlight {
  createdAt : R;
  overall_average : F A;
  waypoint_percentage : F A;
  startVoltage : option (F A)
}.

(** [undefined < 3.9] is false. *)
Definition is_low_battery (flight : Flight) : bool :=
  match startVoltage flight with
  | Some v => ltb A v (dec 39 10)
  | None => false
  end.

Definition is_high_error (flight : Flight) : bool :=
  gtb (overall_average flight) (dec 1 10).

Definition identifyCommonIssues (flights : list Flight) : list string :=
  let issues := [] in
  let highErrorFlights := filter is_high_error flights in
  let issues :=
    if gtb (of_nat (length highErrorFlights))
         (mul A (of_nat (length flights)) (dec 5 10))
    then (issues ++ [Routes.high_error_issue])%list else issues in
  let lowBatteryFlights := filter is_low_battery flights in
  let issues :=
    if gtb (of_nat (length lowBatteryFlights))
         (mul A (of_nat (length flights)) (dec 3 10))
    then (issues ++ [Routes.low_battery_issue])%list else issues in
  issues.

Record Patterns : Type := mkPatterns {
  trend_accuracy : string;
  trend_stability : string;
  insights : list string;
  recommendations : list string
}.

Definition analyzeFlightPatterns (flights : list Flight) : Patterns :=
  let accuracyTrend :=
    map (fun flight => mkDataPoint (createdAt flight) (overall_average flight))
      flights in
  let accuracy := calculateTrendDirection accuracyTrend in
  let stabilityTrend :=
    map (fun flight =>
           mkDataPoint (createdAt flight) (waypoint_percentage flight))
      flights in
  let stability := calculateTrendDirection stabilityTrend in
  let '(insights, recommendations) :=
    if String.eqb accuracy "improving"
    then (["Flight accuracy is improving over time"], [])
    else if String.eqb accuracy "declining"
    then (["Flight accuracy is declining - consider system maintenance"],
          ["Review and recalibrate positioning sensors"])
    else ([], []) in
  mkPatterns accuracy stability
    (insights ++ identifyCommonIssues flights)%list
    recommendations.

End Analysers.

Arguments mkSample {A}.
Arguments mkDataPoint {A}.
Arguments mkTrendPoint {A}.
Arguments mkFlight {A}.

End Float.

(* ================================================================== *)
(** * The standard model of floating-point arithmetic *)
(* ================================================================== *)

Module Rounding.

(** The unit roundoff of binary64. *)
Definition u : R := / 2 ^ 53.

(** What the statements below assume of a rounding: it is monotone and
    symmetric, the rounded value of a real is within the relative distance
    [u] of it, and the integers up to [2^53] are not changed.  Rounding to
    nearest in binary64 satisfies this as long as no result overflows or
    falls into the subnormal range; so does the identity, which gives the
    arithmetic of the real numbers. *)
Record StandardModel (rnd : R -> R) : Prop := mkStandardModel {
  rnd_mono : forall a b, a <= b -> rnd a <= rnd b;
  rnd_error : forall a, Rabs (rnd a - a) <= u * Rabs a;
  rnd_opp : forall a, rnd (- a) = - rnd a;
  rnd_int : forall k : Z, (Z.abs k <= 2 ^ 53)%Z -> rnd (IZR k) = IZR k
}.

(** The sum and the mean of a list of reals as a [reduce] started at 0 and a
    division by the length compute them. *)
Definition rsum (rnd : R -> R) (values : list R) : R :=
  fold_left (fun sum val => rnd (sum + val)) values 0.

Definition rmean (rnd : R -> R) (values : list R) : R :=
  rnd (rsum rnd values / INR (length values)).

(** [((s - f) / f) * 100] with its three roundings. *)
Definition rchange (rnd : R -> R) (f s : R) : R :=
  rnd (rnd (rnd (s - f) / f) * 100).

(** The standard deviation of [calculateStandardDeviation] on a non-empty
    list. *)
Definition rsquares (rnd : R -> R) (values : list R) : list R :=
  let mean := rmean rnd values in
  map (fun val => rnd (rnd (val - mean) * rnd (val - mean))) values.

Definition rstddev (rnd : R -> R) (values : list R) : R :=
  match values with
  | [] => 0
  | _ => rnd (R_sqrt.sqrt (rmean rnd (rsquares rnd values)))
  end.

(** The distance between two samples and the path length, as the loop of
    [calculateActualDistance] computes them. *)
Definition rdist (rnd : R -> R) (curr prev : Sample) : R :=
  let sq (a b : R) := rnd (rnd (a - b) * rnd (a - b)) in
  rnd (R_sqrt.sqrt
         (rnd (rnd (sq (x curr) (x prev) + sq (y curr) (y prev))
               + sq (z curr) (z prev)))).

Fixpoint rloop (rnd : R -> R) (prev : Sample) (rest : list Sample)
    (total : R) : R :=
  match rest with
  | [] => total
  | curr :: rest' => rloop rnd curr rest' (rnd (total + rdist rnd curr prev))
  end.

(** [Math.max(0, 100 - v * 1000)] with its two roundings. *)
Definition score (rnd : R -> R) (v : R) : R :=
  Rmax 0 (rnd (100 - rnd (v * 1000))).

(** Real-valued data as data of the rounded arithmetic. *)
Definition reals (rnd : R -> R) (values : list R)
  : list (Float.F (Float.rounded rnd)) :=
  map Fin values.



Definition series (rnd : R -> R) (values : list R)
  : list (Float.DataPoint (Float.rounded rnd)) :=
  map (fun v => Float.mkDataPoint (A := Float.rounded rnd) 0 (Fin v)) values.

Definition trend_series (rnd : R -> R) (values : list R)
  : list (Float.TrendPoint (Float.rounded rnd)) :=
  map (fun v =>
         Float.mkTrendPoint (A := Float.rounded rnd) "2025-05-13" (Fin v)
           1%nat 0)
    values.

(** A stored flight as a flight of the rounded arithmetic. *)
Definition flight (rnd : R -> R) (f : Routes.Flight)
  : Float.Flight (Float.rounded rnd) :=
  Float.mkFlight (A := Float.rounded rnd)
    (Routes.createdAt f)
    (Fin (Routes.overall_average f))
    (Fin (Routes.percentage
            (Routes.waypoint (Routes.positionAccuracy (Routes.analysis f)))))
    (option_map Fin
       (Routes.startVoltage (Routes.battery (Routes.analysis f)))).

Definition sample (rnd : R -> R) (p : Sample)
  : Float.Sample (Float.rounded rnd) :=
  Float.mkSample (A := Float.rounded rnd) (Fin (x p)) (Fin (y p)) (Fin (z p))
    (option_map Fin (error p)) (option_map Fin (error_xy p))
    (option_map Fin (error_z p)) (stabilized p).

End Rounding.

(** Data for the evaluations in binary64. *)
Module Examples64.

Definition binary64 : Type := Float.F Float.binary64.

Definition int (k : Z) : binary64 := Float.of_Z Float.binary64 k.

(** The decimal literal [p / q]. *)
Definition dec (p q : Z) : binary64 := Float.dec Float.binary64 p q.

Definition sample_with_error (e : binary64) : Float.Sample Float.binary64 :=
  Float.mkSample (int 0) (int 0) (int 0) (Some e) None None true.

Definition series (values : list binary64)
  : list (Float.DataPoint Float.binary64) :=
  map (Float.mkDataPoint 0) values.

(** Each number is less than the next one. *)
Fixpoint increasing (values : list binary64) : bool :=
  match values with
  | a :: (b :: _) as rest => Float.ltb Float.binary64 a b && increasing rest
  | _ => true
  end.

(** A sample at [(x, 0, 0)]. *)
Definition sample_at (x : binary64) : Float.Sample Float.binary64 :=
  Float.mkSample x (int 0) (int 0) None None None false.

(** Four samples on a line, at 0.3, 2.3, 3.1 and 3.4. *)
Definition collinear_path : list (Float.Sample Float.binary64) :=
  map sample_at [dec 3 10; dec 23 10; dec 31 10; dec 34 10].

Definition metrics (errors : list binary64)
  : Float.StabilityMetrics Float.binary64 :=
  Float.calculateStabilityMetrics Float.binary64
    (map sample_with_error errors).

End Examples64.

(* ================================================================== *)
(** * Properties *)
(* ================================================================== *)

(** The arithmetic of [num] is unfolded on request only. *)
#[local] Arguments add : simpl never.
#[local] Arguments sub : simpl never.
#[local] Arguments mul : simpl never.
#[local] Arguments div : simpl never.
#[local] Arguments JSNum.sqrt : simpl never.
#[local] Arguments JSNum.min : simpl never.
#[local] Arguments JSNum.max : simpl never.
#[local] Arguments ltb : simpl never.
#[local] Arguments gtb : simpl never.
#[local] Arguments eqb : simpl never.
#[local] Arguments toFixed : simpl never.

(** ** Comparisons on reals *)

Lemma Rltb_lt (a b : R) : Rltb a b = true <-> a < b.
Proof.
  unfold Rltb. destruct (Rlt_dec a b); split; intros;
    try discriminate; tauto.
Qed.

Lemma Rltb_ge (a b : R) : Rltb a b = false <-> b <= a.
Proof.
  unfold Rltb. destruct (Rlt_dec a b); split; intros;
    try discriminate; try lra; reflexivity.
Qed.

Lemma Rleb_le (a b : R) : Rleb a b = true <-> a <= b.
Proof.
  unfold Rleb. destruct (Rle_dec a b); split; intros;
    try discriminate; tauto.
Qed.

Lemma Rleb_gt (a b : R) : Rleb a b = false <-> b < a.
Proof.
  unfold Rleb. destruct (Rle_dec a b); split; intros;
    try discriminate; try lra; reflexivity.
Qed.

Lemma Reqb_eq (a b : R) : Reqb a b = true <-> a = b.
Proof.
  unfold Reqb. destruct (Req_dec_T a b); split; intros;
    try discriminate; tauto.
Qed.

Lemma Reqb_neq (a b : R) : Reqb a b = false <-> a <> b.
Proof.
  unfold Reqb. destruct (Req_dec_T a b); split; intros; try discriminate; tauto.
Qed.

(** Decides the comparisons on reals that occur in a goal. *)
Ltac rdec :=
  unfold Rltb, Rleb, Reqb, by_sign in *;
  repeat match goal with
         | |- context [Rlt_dec ?a ?b] => destruct (Rlt_dec a b); try lra
         | |- context [Rle_dec ?a ?b] => destruct (Rle_dec a b); try lra
         | |- context [Req_dec_T ?a ?b] => destruct (Req_dec_T a b); try lra
         end.

(** ** C1: the analysis object and the comparison metrics *)

Section CompareMetrics.
Import Routes.
Variable flight : Flight.

Lemma analysis_has_no_turnAnalysis :
  get (analysis_of flight) "turnAnalysis" = Ok VUndefined.
Proof. reflexivity. Qed.

Lemma analysis_has_no_networkCorrelation :
  get (analysis_of flight) "networkCorrelation" = Ok VUndefined.
Proof. reflexivity. Qed.

Lemma analysis_stability_score :
  get2 (analysis_of flight) "stabilityMetrics" "overallStabilityScore"
  = Ok (Reflect.VReal
          (TrajectoryAnalyzer.overallStabilityScore
             (TrajectoryAnalyzer.stabilityMetrics
                (TrajectoryAnalyzer.analyzeTrajectory
                   (flightDataForAnalysis flight))))).
Proof. reflexivity. Qed.

Lemma analysis_efficiency_ratio :
  exists v,
    get2 (analysis_of flight) "trajectoryEfficiency" "efficiencyRatio" = Ok v.
Proof.
  unfold get2, analysis_of, Reflect.trajectory_analysis. simpl get.
  unfold bind, Reflect.efficiency.
  destruct (TrajectoryAnalyzer.excessDistance _); eexists; reflexivity.
Qed.

End CompareMetrics.

(** C1.  The object [analyzeTrajectory] returns has the five properties
    [pathAccuracy], [basicStats], [phaseAnalysis], [stabilityMetrics] and
    [trajectoryEfficiency] only: [turnAnalysis] and [networkCorrelation] read
    as [undefined] for every flight, so building the comparison metrics
    throws a TypeError at [analysis.turnAnalysis.pathSmoothness] and the
    metrics record is defined for no input. *)
Theorem compare_metrics_always_throw (flight : Routes.Flight) :
  get (Routes.analysis_of flight) "turnAnalysis" = Ok VUndefined /\
  get (Routes.analysis_of flight) "networkCorrelation" = Ok VUndefined /\
  Routes.comparisonMetrics flight = Throw (TypeError "pathSmoothness") /\
  forall rest done,
    Routes.buildComparisons (flight :: rest) done
    = Throw (TypeError "pathSmoothness").
Proof.
  assert (H : Routes.comparisonMetrics flight
              = Throw (TypeError "pathSmoothness")).
  { unfold Routes.comparisonMetrics.
    rewrite analysis_stability_score.
    destruct (analysis_efficiency_ratio flight) as [v Hv].
    rewrite Hv. reflexivity. }
  repeat split; try reflexivity; try exact H.
  intros rest done. simpl. rewrite H. reflexivity.
Qed.

(** ** C5: a flight with zero samples *)

Lemma Rmax_0_100 : Rmax 0 (100 - 0 * 1000) = 100.
Proof. unfold Rmax. destruct (Rle_dec 0 (100 - 0 * 1000)); lra. Qed.

Lemma min_one_fallback : JSNum.min (Fin 1) (Fin 0.85) = Fin 0.85.
Proof. unfold JSNum.min, ltb. rdec. reflexivity. Qed.

Lemma div_by_zero_pos (a : R) : 0 < a -> (Fin a / Fin 0)%num = PosInf.
Proof. intros Ha. unfold div. rdec. reflexivity. Qed.

(** C5, as stated, fails on the flight with no samples and no ideal path:
    the stability score of that flight is 100 and its efficiency ratio is
    0.85, neither of which is zero. *)
Lemma zero_samples_not_zero_filled :
  let a := TrajectoryAnalyzer.analyzeTrajectory (mkFlightInput [] None) in
  TrajectoryAnalyzer.overallStabilityScore
    (TrajectoryAnalyzer.stabilityMetrics a) = 100 /\
  TrajectoryAnalyzer.overallStabilityScore
    (TrajectoryAnalyzer.stabilityMetrics a) <> 0 /\
  TrajectoryAnalyzer.efficiencyRatio
    (TrajectoryAnalyzer.trajectoryEfficiency a) = Fin 0.85 /\
  TrajectoryAnalyzer.efficiencyRatio
    (TrajectoryAnalyzer.trajectoryEfficiency a) <> Fin 0.
Proof.
  cbv zeta.
  assert (H : TrajectoryAnalyzer.overallStabilityScore
                (TrajectoryAnalyzer.stabilityMetrics
                   (TrajectoryAnalyzer.analyzeTrajectory
                      (mkFlightInput [] None))) = 100)
    by exact Rmax_0_100.
  repeat split.
  - exact H.
  - rewrite H. lra.
  - intros E. simpl in E. injection E. lra.
Qed.

(** C5, amended.  On a flight with zero samples [analyzeTrajectory] returns
    a result (it is a total function) in which every number of the path
    accuracy, of the basic statistics and of the phase breakdown is zero, and
    so are the stabilization ratio, the stabilized and unstabilized counts,
    the error variance and the actual distance; the stability score is 100,
    and the efficiency ratio is 0.85 when the ideal distance is 0 (in
    particular without an ideal path) and 1 when it is positive. *)
Theorem zero_samples_metrics (sequence : option (list Waypoint)) :
  let a := TrajectoryAnalyzer.analyzeTrajectory (mkFlightInput [] sequence) in
  let e := TrajectoryAnalyzer.trajectoryEfficiency a in
  TrajectoryAnalyzer.pathAccuracy a
  = TrajectoryAnalyzer.mkPathAccuracy 0 0 (Fin 0) 0
      (TrajectoryAnalyzer.mkAxisAccuracy 0 (Fin 0) (Fin 0))
      (TrajectoryAnalyzer.mkAxisAccuracy 0 (Fin 0) (Fin 0)) /\
  TrajectoryAnalyzer.basicStats a
  = TrajectoryAnalyzer.mkBasicStats 0 0 0 [] /\
  TrajectoryAnalyzer.phaseAnalysis a
  = TrajectoryAnalyzer.mkPhaseAnalysis
      (TrajectoryAnalyzer.mkPhaseStats 0 0 0 0)
      (TrajectoryAnalyzer.mkPhaseStats 0 0 0 0) /\
  TrajectoryAnalyzer.stabilityMetrics a
  = TrajectoryAnalyzer.mkStabilityMetrics 0 0 0 0 100 /\
  TrajectoryAnalyzer.actualDistance e = 0 /\
  TrajectoryAnalyzer.efficiencyRatio e
  = (if Rltb 0 (TrajectoryAnalyzer.idealDistance e)
     then Fin 1 else Fin 0.85) /\
  (TrajectoryAnalyzer.no_ideal_path sequence = true ->
   TrajectoryAnalyzer.idealDistance e = 0 /\
   TrajectoryAnalyzer.efficiencyRatio e = Fin 0.85).
Proof.
  cbv zeta.
  split; [reflexivity|]. split; [reflexivity|]. split; [reflexivity|].
  split.
  { unfold TrajectoryAnalyzer.analyzeTrajectory,
      TrajectoryAnalyzer.calculateStabilityMetrics. simpl.
    change (TrajectoryAnalyzer.calculateStandardDeviation []) with 0.
    rewrite Rmax_0_100. reflexivity. }
  assert (Hfb : Rltb 0 0 = false) by (apply Rltb_ge; lra).
  unfold TrajectoryAnalyzer.analyzeTrajectory,
    TrajectoryAnalyzer.calculateEfficiency,
    TrajectoryAnalyzer.no_ideal_path; simpl.
  destruct sequence as [s|]; simpl.
  - destruct (length s <? 2)%nat eqn:Hlen; simpl.
    + rewrite Hfb. repeat split; reflexivity.
    + split; [reflexivity|]. split; [|discriminate].
      unfold TrajectoryAnalyzer.calculateActualDistance; simpl.
      destruct (Rltb 0 (TrajectoryAnalyzer.path_length
                          TrajectoryAnalyzer.waypoint_dist s)) eqn:Hpos.
      * apply Rltb_lt in Hpos. rewrite (div_by_zero_pos _ Hpos). reflexivity.
      * apply min_one_fallback.
  - rewrite Hfb. repeat split; reflexivity.
Qed.

(** The amended C5 at a flight without samples and without ideal path. *)
Lemma zero_samples_metrics_witness :
  TrajectoryAnalyzer.idealDistance
    (TrajectoryAnalyzer.trajectoryEfficiency
       (TrajectoryAnalyzer.analyzeTrajectory (mkFlightInput [] None))) = 0 /\
  TrajectoryAnalyzer.efficiencyRatio
    (TrajectoryAnalyzer.trajectoryEfficiency
       (TrajectoryAnalyzer.analyzeTrajectory (mkFlightInput [] None)))
  = Fin 0.85.
Proof.
  apply (zero_samples_metrics None). reflexivity.
Defined.

(** ** C6: the efficiency ratio *)

Lemma path_loop_consecutive {A : Type} (dist : A -> A -> R) :
  forall (rest : list A) (prev : A) (total : R),
    TrajectoryAnalyzer.path_loop dist prev rest total
    = total + Spec.consecutive_sum dist (prev :: rest).
Proof.
  induction rest as [|curr rest IH]; intros prev total; simpl.
  - lra.
  - rewrite IH. simpl. lra.
Qed.

Lemma path_length_consecutive {A : Type} (dist : A -> A -> R) (l : list A) :
  TrajectoryAnalyzer.path_length dist l = Spec.consecutive_sum dist l.
Proof.
  destruct l as [|first rest]; [reflexivity|].
  unfold TrajectoryAnalyzer.path_length.
  rewrite path_loop_consecutive. lra.
Qed.

Lemma consecutive_sum_nonneg {A : Type} (dist : A -> A -> R) :
  (forall a b, 0 <= dist a b) ->
  forall l, 0 <= Spec.consecutive_sum dist l.
Proof.
  intros Hd. induction l as [|a t IH]; simpl; [lra|].
  destruct t as [|b t']; [lra|].
  specialize (Hd b a). lra.
Qed.

Lemma sample_dist_nonneg (a b : Sample) :
  0 <= TrajectoryAnalyzer.sample_dist a b.
Proof. apply sqrt_pos. Qed.

Lemma waypoint_dist_nonneg (a b : Waypoint) :
  0 <= TrajectoryAnalyzer.waypoint_dist a b.
Proof. destruct a as [[? ?] ?], b as [[? ?] ?]. apply sqrt_pos. Qed.

Lemma actual_distance_nonneg (positions : list Sample) :
  0 <= TrajectoryAnalyzer.calculateActualDistance positions.
Proof.
  unfold TrajectoryAnalyzer.calculateActualDistance.
  rewrite path_length_consecutive.
  apply consecutive_sum_nonneg, sample_dist_nonneg.
Qed.

Lemma min_one_fin (q : R) :
  JSNum.min (Fin 1) (Fin q) = Fin (if Rltb q 1 then q else 1).
Proof. unfold JSNum.min, ltb. destruct (Rltb q 1); reflexivity. Qed.


(** The ratio of a positive ideal distance to a non-negative actual one,
    capped at 1. *)
Lemma capped_ratio_range (ideal actual : R) :
  0 < ideal -> 0 <= actual ->
  exists r, JSNum.min (Fin 1) (Fin ideal / Fin actual)%num = Fin r
            /\ 0 <= r <= 1.
Proof.
  intros Hi Ha. unfold div.
  destruct (Req_dec_T actual 0) as [E|NE].
  - exists 1. unfold by_sign.
    destruct (Rlt_dec 0 ideal); [|lra]. split; [reflexivity|lra].
  - rewrite min_one_fin.
    assert (Hq : 0 < ideal / actual) by (apply Rdiv_lt_0_compat; lra).
    destruct (Rltb (ideal / actual) 1) eqn:Hlt.
    + apply Rltb_lt in Hlt. eexists; split; [reflexivity|lra].
    + exists 1. split; [reflexivity|lra].
Qed.

(** C6.  The efficiency ratio [calculateEfficiency] returns is a finite
    number of [[0, 1]] for every sample sequence and every ideal path; and it
    is exactly 0.85 when the ideal path is absent, has fewer than two
    waypoints, or has a total ideal distance (the sum of the distances
    between consecutive waypoints) of 0. *)
Theorem efficiency_ratio_range
    (positions : list Sample) (sequence : option (list Waypoint)) :
  let e := TrajectoryAnalyzer.calculateEfficiency positions sequence in
  (exists r, TrajectoryAnalyzer.efficiencyRatio e = Fin r /\ 0 <= r <= 1) /\
  ((sequence = None \/
    exists s, sequence = Some s /\
              ((length s < 2)%nat \/
               Spec.consecutive_sum TrajectoryAnalyzer.waypoint_dist s = 0)) ->
   TrajectoryAnalyzer.efficiencyRatio e = Fin 0.85).
Proof.
  cbv zeta. unfold TrajectoryAnalyzer.calculateEfficiency.
  destruct sequence as [s|].
  2:{ simpl. split; [exists 0.85; split; [reflexivity|lra]|reflexivity]. }
  destruct (length s <? 2)%nat eqn:Hlen.
  { simpl. split; [exists 0.85; split; [reflexivity|lra]|reflexivity]. }
  cbn [TrajectoryAnalyzer.efficiencyRatio].
  rewrite (path_length_consecutive TrajectoryAnalyzer.waypoint_dist s).
  destruct (Rltb 0 (Spec.consecutive_sum TrajectoryAnalyzer.waypoint_dist s))
    eqn:Hpos.
  - apply Rltb_lt in Hpos. split.
    + apply capped_ratio_range; [exact Hpos|apply actual_distance_nonneg].
    + intros [E|[s' [E [Hs|Hz]]]]; try discriminate;
        injection E as <-.
      * apply Nat.ltb_ge in Hlen. lia.
      * lra.
  - split.
    + exists 0.85. split; [apply min_one_fallback|lra].
    + intros _. apply min_one_fallback.
Qed.

(** C6 at an ideal path whose two waypoints coincide. *)
Lemma efficiency_ratio_range_witness :
  TrajectoryAnalyzer.efficiencyRatio
    (TrajectoryAnalyzer.calculateEfficiency []
       (Some [(1, 2, 3); (1, 2, 3)])) = Fin 0.85.
Proof.
  apply (efficiency_ratio_range [] (Some [(1, 2, 3); (1, 2, 3)])).
  right. exists [(1, 2, 3); (1, 2, 3)]. split; [reflexivity|].
  right. unfold Spec.consecutive_sum, TrajectoryAnalyzer.waypoint_dist.
  replace ((1 - 1) ^ 2 + (2 - 2) ^ 2 + (3 - 3) ^ 2) with 0 by ring.
  rewrite sqrt_0. lra.
Defined.

(** ** The population standard deviation of equal values *)

Lemma fold_left_Rplus (l : list R) :
  forall a, fold_left Rplus l a = a + Spec.total l.
Proof.
  induction l as [|v l IH]; intros a; simpl.
  - lra.
  - rewrite IH. lra.
Qed.

Lemma total_repeat (c : R) (n : nat) : Spec.total (repeat c n) = INR n * c.
Proof.
  induction n as [|n IH].
  - simpl. lra.
  - rewrite S_INR. unfold Spec.total in *. cbn [repeat fold_right].
    rewrite IH. lra.
Qed.

Lemma mean_repeat (c : R) (n : nat) :
  (0 < n)%nat -> Spec.mean (repeat c n) = c.
Proof.
  intros Hn. unfold Spec.mean. rewrite total_repeat, repeat_length.
  field. apply not_0_INR. lia.
Qed.

(** A series whose values are all equal has standard deviation 0. *)
Lemma population_stddev_repeat (c : R) (n : nat) :
  Spec.population_stddev (repeat c n) = 0.
Proof.
  destruct n as [|n]; [reflexivity|].
  change (Spec.population_stddev (repeat c (S n)))
    with (R_sqrt.sqrt
            (Spec.mean (map (fun v => Rsqr (v - Spec.mean (repeat c (S n))))
                          (repeat c (S n))))).
  rewrite mean_repeat by lia. rewrite map_repeat.
  replace (Rsqr (c - c)) with 0 by (unfold Rsqr; ring).
  rewrite mean_repeat by lia. apply sqrt_0.
Qed.

(** ** C8: network-quality buckets *)

Section NetworkBuckets.
Import Routes.

Lemma bucket_exactly_one (p : Sample) :
  (Nat.b2n (is_excellent p) + Nat.b2n (is_good p)
   + Nat.b2n (is_fair p) + Nat.b2n (is_poor p) = 1)%nat.
Proof.
  unfold is_excellent, is_good, is_fair, is_poor, Rleb, Rltb.
  destruct (Rle_dec 90 (quality p)), (Rle_dec 70 (quality p)),
    (Rle_dec 50 (quality p)), (Rlt_dec (quality p) 90),
    (Rlt_dec (quality p) 70), (Rlt_dec (quality p) 50);
    try reflexivity; exfalso; lra.
Qed.

Lemma bucket_thresholds (p : Sample) :
  (is_poor p = true <-> quality p < 50) /\
  (is_fair p = true <-> 50 <= quality p < 70) /\
  (is_good p = true <-> 70 <= quality p < 90) /\
  (is_excellent p = true <-> 90 <= quality p).
Proof.
  unfold is_excellent, is_good, is_fair, is_poor.
  rewrite !andb_true_iff, !Rleb_le, !Rltb_lt. tauto.
Qed.

Lemma count_cons {A : Type} (f : A -> bool) (a : A) (l : list A) :
  count f (a :: l) = (Nat.b2n (f a) + count f l)%nat.
Proof. unfold count. simpl. destruct (f a); reflexivity. Qed.

Lemma bucket_counts_sum (positionData : list Sample) :
  (count is_excellent positionData + count is_good positionData
   + count is_fair positionData + count is_poor positionData
   = length positionData)%nat.
Proof.
  induction positionData as [|p l IH]; [reflexivity|].
  rewrite !count_cons. cbn [length].
  pose proof (bucket_exactly_one p). lia.
Qed.

Lemma nonempty_false {A : Type} (l : list A) :
  nonempty l = false -> length l = 0%nat.
Proof. unfold nonempty. intros H. apply Nat.ltb_ge in H. lia. Qed.

Lemma segment_lookups (positionData : list Sample) :
  let entry data :=
    if nonempty data then Some (segmentStats positionData data) else None in
  let analysis := segmentAnalysis positionData in
  lookup "excellent" analysis = entry (filter is_excellent positionData) /\
  lookup "good" analysis = entry (filter is_good positionData) /\
  lookup "fair" analysis = entry (filter is_fair positionData) /\
  lookup "poor" analysis = entry (filter is_poor positionData) /\
  Spec.reported_total analysis = length positionData.
Proof.
  cbv zeta. unfold segmentAnalysis, segments. cbn [fold_left].
  rewrite <- (bucket_counts_sum positionData). unfold count.
  destruct (nonempty (filter is_excellent positionData)) eqn:He,
    (nonempty (filter is_good positionData)) eqn:Hg,
    (nonempty (filter is_fair positionData)) eqn:Hf,
    (nonempty (filter is_poor positionData)) eqn:Hp;
    try apply nonempty_false in He; try apply nonempty_false in Hg;
    try apply nonempty_false in Hf; try apply nonempty_false in Hp;
    repeat split; try reflexivity;
    cbn [app Spec.reported_total fold_right snd seg_count segmentStats]; lia.
Qed.

Lemma quality_absent (p : Sample) :
  networkQuality p = None -> quality p = 100.
Proof. intros H. unfold quality. rewrite H. reflexivity. Qed.

Lemma quality_present (p : Sample) (q : R) :
  networkQuality p = Some q -> q <> 0 -> quality p = q.
Proof.
  intros H Hq. unfold quality, or_default. rewrite H.
  apply Reqb_neq in Hq. rewrite Hq. reflexivity.
Qed.

Lemma quality_zero (p : Sample) :
  networkQuality p = Some 0 -> quality p = 100.
Proof.
  intros H. unfold quality, or_default. rewrite H.
  rewrite (proj2 (Reqb_eq 0 0) eq_refl). reflexivity.
Qed.

Lemma zero_quality_buckets (p : Sample) :
  networkQuality p = Some 0 ->
  is_excellent p = true /\ is_good p = false /\ is_fair p = false /\
  is_poor p = false.
Proof.
  intros H. pose proof (quality_zero p H) as Q.
  unfold is_excellent, is_good, is_fair, is_poor. rewrite Q.
  assert (E : Rleb 90 100 = true) by (apply Rleb_le; lra).
  assert (G : Rltb 100 90 = false) by (apply Rltb_ge; lra).
  assert (F : Rltb 100 70 = false) by (apply Rltb_ge; lra).
  assert (P : Rltb 100 50 = false) by (apply Rltb_ge; lra).
  rewrite E, G, F, P, !andb_false_r. repeat split; reflexivity.
Qed.

End NetworkBuckets.

(** C8.  [analyzeNetworkImpact] buckets [p.networkQuality || 100]: the
    quality is replaced by 100 when it is absent, and also when it is present
    and zero.  On the replaced quality every sample is in exactly one of the
    four buckets [poor < 50 <= fair < 70 <= good < 90 <= excellent]; the
    bucket counts add up to the number of samples; a bucket is a property of
    the segment analysis exactly when it has a sample, in which case it
    reports its count, so the reported counts add up to the number of samples
    too.  A present quality other than zero is bucketed as it is.  A sample
    of present quality 0 is counted in [excellent] and in no other bucket:
    the analysis of a flight of one such sample has an [excellent] entry of
    count 1 and no [poor] entry. *)
Theorem network_buckets_partition (positionData : list Sample) (p : Sample) :
  let analysis := Routes.segmentAnalysis positionData in
  let entry data :=
    if nonempty data then Some (Routes.segmentStats positionData data)
    else None in
  let zero :=
    mkSample 0 0 0 0 (Some 0) None None "transit" false (Some 0) None in
  (networkQuality p = None -> Routes.quality p = 100) /\
  (forall q, networkQuality p = Some q -> q <> 0 ->
     Routes.quality p = q /\
     (Routes.is_poor p = true <-> q < 50) /\
     (Routes.is_fair p = true <-> 50 <= q < 70) /\
     (Routes.is_good p = true <-> 70 <= q < 90) /\
     (Routes.is_excellent p = true <-> 90 <= q)) /\
  (networkQuality p = Some 0 ->
     Routes.quality p = 100 /\
     Routes.is_excellent p = true /\ Routes.is_good p = false /\
     Routes.is_fair p = false /\ Routes.is_poor p = false) /\
  (Nat.b2n (Routes.is_excellent p) + Nat.b2n (Routes.is_good p)
   + Nat.b2n (Routes.is_fair p) + Nat.b2n (Routes.is_poor p) = 1)%nat /\
  ((Routes.is_poor p = true <-> Routes.quality p < 50) /\
   (Routes.is_fair p = true <-> 50 <= Routes.quality p < 70) /\
   (Routes.is_good p = true <-> 70 <= Routes.quality p < 90) /\
   (Routes.is_excellent p = true <-> 90 <= Routes.quality p)) /\
  (count Routes.is_excellent positionData + count Routes.is_good positionData
   + count Routes.is_fair positionData + count Routes.is_poor positionData
   = length positionData)%nat /\
  Routes.ni_segmentAnalysis (Routes.analyzeNetworkImpact positionData)
  = analysis /\
  lookup "excellent" analysis
  = entry (filter Routes.is_excellent positionData) /\
  lookup "good" analysis = entry (filter Routes.is_good positionData) /\
  lookup "fair" analysis = entry (filter Routes.is_fair positionData) /\
  lookup "poor" analysis = entry (filter Routes.is_poor positionData) /\
  (forall data, Routes.seg_count (Routes.segmentStats positionData data)
                = length data) /\
  Spec.reported_total analysis = length positionData /\
  option_map Routes.seg_count
    (lookup "excellent"
       (Routes.ni_segmentAnalysis (Routes.analyzeNetworkImpact [zero])))
  = Some 1%nat /\
  lookup "poor"
    (Routes.ni_segmentAnalysis (Routes.analyzeNetworkImpact [zero]))
  = None.
Proof.
  cbv zeta.
  split; [apply quality_absent |].
  split.
  { intros q H Hq. pose proof (bucket_thresholds p) as T.
    rewrite (quality_present p q H Hq) in T.
    split; [apply quality_present; assumption | exact T]. }
  split.
  { intros H. split; [apply quality_zero, H | apply zero_quality_buckets, H]. }
  split; [apply bucket_exactly_one|].
  split; [apply bucket_thresholds|].
  split; [apply bucket_counts_sum|].
  split; [reflexivity|].
  destruct (segment_lookups positionData) as (He & Hg & Hf & Hp & Ht).
  repeat (split; [assumption || reflexivity |]).
  set (zero :=
         mkSample 0 0 0 0 (Some 0) None None "transit" false (Some 0) None).
  change (Routes.ni_segmentAnalysis (Routes.analyzeNetworkImpact [zero]))
    with (Routes.segmentAnalysis [zero]).
  destruct (segment_lookups [zero]) as (Ze & _ & _ & Zp & _).
  destruct (zero_quality_buckets zero eq_refl) as (Be & _ & _ & Bp).
  rewrite Ze, Zp. cbn [filter]. rewrite Be, Bp. split; reflexivity.
Qed.

(** C8 at a sample of present network quality 0, which [|| 100] replaces by
    100. *)
Lemma network_buckets_partition_witness :
  Routes.quality
    (mkSample 0 0 0 2 (Some 0) None None "transit" false (Some 0) None)
  = 100 /\
  Routes.is_excellent
    (mkSample 0 0 0 2 (Some 0) None None "transit" false (Some 0) None)
  = true /\
  Routes.is_good
    (mkSample 0 0 0 2 (Some 0) None None "transit" false (Some 0) None)
  = false /\
  Routes.is_fair
    (mkSample 0 0 0 2 (Some 0) None None "transit" false (Some 0) None)
  = false /\
  Routes.is_poor
    (mkSample 0 0 0 2 (Some 0) None None "transit" false (Some 0) None)
  = false.
Proof.
  apply (network_buckets_partition
           [mkSample 0 0 0 0 (Some 0) None None "transit" false None None;
            mkSample 0 0 0 1 (Some 0) None None "transit" false (Some 60) None;
            mkSample 0 0 0 2 (Some 0) None None "transit" false (Some 0) None]
           (mkSample 0 0 0 2 (Some 0) None None "transit" false (Some 0) None)).
  reflexivity.
Defined.

(** ** C10: common issues *)

Lemma count_app {A : Type} (f : A -> bool) (l1 l2 : list A) :
  count f (l1 ++ l2) = (count f l1 + count f l2)%nat.
Proof. unfold count. rewrite filter_app, length_app. reflexivity. Qed.

Lemma count_repeat {A : Type} (f : A -> bool) (a : A) (n : nat) :
  count f (repeat a n) = if f a then n else 0%nat.
Proof.
  induction n as [|n IH].
  - destruct (f a); reflexivity.
  - cbn [repeat]. rewrite count_cons, IH. destruct (f a); reflexivity.
Qed.

Lemma half_threshold (n k : nat) :
  Rltb (INR n * 0.5) (INR k) = true <-> (n < 2 * k)%nat.
Proof.
  rewrite Rltb_lt. split; intros H.
  - apply INR_lt. rewrite mult_INR. simpl INR. lra.
  - apply lt_INR in H. rewrite mult_INR in H. simpl INR in H. lra.
Qed.

Lemma three_tenths_threshold (n k : nat) :
  Rltb (INR n * 0.3) (INR k) = true <-> (3 * n < 10 * k)%nat.
Proof.
  rewrite Rltb_lt. split; intros H.
  - apply INR_lt. rewrite !mult_INR. simpl INR. lra.
  - apply lt_INR in H. rewrite !mult_INR in H. simpl INR in H. lra.
Qed.

Lemma issues_differ : Routes.high_error_issue <> Routes.low_battery_issue.
Proof. discriminate. Qed.

Lemma issues_membership (flights : list Routes.Flight) :
  (In Routes.high_error_issue (Routes.identifyCommonIssues flights) <->
   Rltb (INR (length flights) * 0.5)
     (INR (count Routes.is_high_error flights)) = true) /\
  (In Routes.low_battery_issue (Routes.identifyCommonIssues flights) <->
   Rltb (INR (length flights) * 0.3)
     (INR (count Routes.is_low_battery flights)) = true).
Proof.
  pose proof issues_differ as Hd.
  unfold Routes.identifyCommonIssues, count.
  destruct (Rltb (INR (length flights) * 0.5) _),
    (Rltb (INR (length flights) * 0.3) _); simpl;
    split; split; intros H; try discriminate; try tauto;
    try (destruct H as [H|H]; [congruence|]);
    try (destruct H as [H|H]; [congruence|]); try tauto.
Qed.

(** C10.  [identifyCommonIssues] reports the high-positioning-error issue
    exactly when strictly more than half of the flights have an average
    error above 0.1, and the low-battery issue exactly when strictly more
    than three tenths of the flights have a start voltage below 3.9; so of
    ten flights, six above 0.1 raise the first issue and four do not. *)
Theorem common_issues_thresholds (flights : list Routes.Flight) :
  let n := length flights in
  let high := count Routes.is_high_error flights in
  let low := count Routes.is_low_battery flights in
  let issues := Routes.identifyCommonIssues flights in
  (forall f, Routes.is_high_error f = true
             <-> Routes.overall_average f > 0.1) /\
  (forall f, Routes.is_low_battery f = true <->
             exists v, Routes.startVoltage (Routes.battery (Routes.analysis f))
                       = Some v /\ v < 3.9) /\
  (In Routes.high_error_issue issues <-> (n < 2 * high)%nat) /\
  (In Routes.low_battery_issue issues <-> (3 * n < 10 * low)%nat) /\
  (n = 10%nat -> high = 6%nat -> In Routes.high_error_issue issues) /\
  (n = 10%nat -> high = 4%nat -> ~ In Routes.high_error_issue issues).
Proof.
  cbv zeta.
  destruct (issues_membership flights) as [Hh Hl].
  rewrite half_threshold in Hh. rewrite three_tenths_threshold in Hl.
  split.
  { intros f. unfold Routes.is_high_error. rewrite Rltb_lt. split; lra. }
  split.
  { intros f. unfold Routes.is_low_battery.
    destruct (Routes.startVoltage _) as [v|]; cbn [of_option]; unfold ltb.
    - rewrite Rltb_lt. split.
      + intros H. exists v. split; [reflexivity|exact H].
      + intros [w [E H]]. injection E as <-. exact H.
    - split; [discriminate|]. intros [w [E _]]. discriminate. }
  split; [exact Hh|]. split; [exact Hl|].
  split.
  - intros En E6. apply Hh. lia.
  - intros En E4 H. apply Hh in H. lia.
Qed.

Lemma ten_flights_counts (k : nat) :
  (k <= 10)%nat ->
  length (Examples.ten_flights k) = 10%nat /\
  count Routes.is_high_error (Examples.ten_flights k) = k.
Proof.
  intros Hk. unfold Examples.ten_flights. split.
  - rewrite length_app, !repeat_length. lia.
  - rewrite count_app, !count_repeat.
    assert (H1 : Routes.is_high_error (Examples.flight_with 0.2 None) = true)
      by (apply Rltb_lt; cbn; lra).
    assert (H2 : Routes.is_high_error (Examples.flight_with 0.05 None) = false)
      by (apply Rltb_ge; cbn; lra).
    rewrite H1, H2. lia.
Qed.

(** C10 at ten flights: six with an average error of 0.2 m, then four. *)
Lemma common_issues_thresholds_witness :
  In Routes.high_error_issue
    (Routes.identifyCommonIssues (Examples.ten_flights 6)) /\
  ~ In Routes.high_error_issue
      (Routes.identifyCommonIssues (Examples.ten_flights 4)).
Proof.
  split.
  - apply (common_issues_thresholds (Examples.ten_flights 6));
      apply ten_flights_counts; lia.
  - apply (common_issues_thresholds (Examples.ten_flights 4));
      apply ten_flights_counts; lia.
Defined.

(** ** calculateCorrelation in exact arithmetic *)

(** *** The sums of [calculateCorrelation] on finite numbers *)

Lemma fold_add_fin (x : list R) :
  forall a, fold_left add (map Fin x) (Fin a) = Fin (a + Spec.total x).
Proof.
  induction x as [|v x IH]; intros a; cbn [map fold_left].
  - simpl. f_equal. lra.
  - unfold add at 2. rewrite IH. f_equal. simpl. lra.
Qed.

Lemma fold_squares_fin (x : list R) :
  forall a,
    fold_left (fun sum val => (sum + val * val)%num) (map Fin x) (Fin a)
    = Fin (a + Spec.sum_squares x).
Proof.
  unfold Spec.sum_squares.
  induction x as [|v x IH]; intros a; cbn [map fold_left].
  - simpl. f_equal. lra.
  - unfold mul, add at 2. rewrite IH. f_equal. simpl. lra.
Qed.

Lemma item_fin_app (pre y : list R) (w : R) :
  Routes.item (map Fin (pre ++ w :: y)) (length pre) = Fin w.
Proof.
  unfold Routes.item. rewrite map_app, nth_error_app2; rewrite length_map;
    [|lia].
  rewrite Nat.sub_diag. reflexivity.
Qed.

Lemma reduce_products_fin (x : list R) :
  forall (y pre : list R) (a : R),
    length x = length y ->
    Routes.reduce_indexed
      (fun sum val i => (sum + val * Routes.item (map Fin (pre ++ y)) i)%num)
      (map Fin x) (length pre) (Fin a)
    = Fin (a + Spec.dot x y).
Proof.
  unfold Spec.dot.
  induction x as [|v x IH]; intros y pre a Hlen.
  - simpl. f_equal. lra.
  - destruct y as [|w y]; [discriminate|].
    cbn [map Routes.reduce_indexed]. rewrite item_fin_app.
    change (Fin a + Fin v * Fin w)%num with (Fin (a + v * w)).
    replace (pre ++ w :: y) with ((pre ++ [w]) ++ y)
      by (rewrite <- app_assoc; reflexivity).
    replace (S (length pre)) with (length (pre ++ [w]))
      by (rewrite length_app; simpl; lia).
    rewrite IH by (simpl in Hlen; lia).
    f_equal. simpl. lra.
Qed.

Lemma sum_products_fin (x y : list R) :
  length x = length y ->
  Routes.reduce_indexed
    (fun sum val i => (sum + val * Routes.item (map Fin y) i)%num)
    (map Fin x) 0%nat (Fin 0)
  = Fin (Spec.dot x y).
Proof.
  intros Hlen. rewrite <- (Rplus_0_l (Spec.dot x y)).
  exact (reduce_products_fin x y [] 0 Hlen).
Qed.

(** On two sequences of finite numbers of the same positive length the
    coefficient is the textbook formula, with 0 for a zero denominator. *)
Lemma calculateCorrelation_fin (x y : list R) :
  length x = length y -> x <> [] ->
  Routes.calculateCorrelation (map Fin x) (map Fin y)
  = let n := INR (length x) in
    let numerator := n * Spec.dot x y - Spec.total x * Spec.total y in
    let denominator := R_sqrt.sqrt (Spec.spread x * Spec.spread y) in
    if Rlt_dec (Spec.spread x * Spec.spread y) 0 then NaN
    else if Req_dec_T denominator 0 then Fin 0
         else Fin (numerator / denominator).
Proof.
  intros Hlen Hne. unfold Routes.calculateCorrelation.
  rewrite !length_map, <- Hlen, Nat.eqb_refl.
  assert (Hn0 : (length x =? 0)%nat = false)
    by (destruct x; [contradiction|reflexivity]).
  rewrite Hn0. cbn [negb orb].
  rewrite !fold_add_fin, !fold_squares_fin, (sum_products_fin x y Hlen).
  unfold of_nat, sub, neg, mul, add, JSNum.sqrt, Spec.spread.
  rewrite <- Hlen. cbv zeta.
  set (n := INR (length x)).
  replace ((n * (0 + Spec.sum_squares x)
            + - ((0 + Spec.total x) * (0 + Spec.total x)))
           * (n * (0 + Spec.sum_squares y)
              + - ((0 + Spec.total y) * (0 + Spec.total y))))
    with ((n * Spec.sum_squares x - Spec.total x * Spec.total x)
          * (n * Spec.sum_squares y - Spec.total y * Spec.total y)) by ring.
  destruct (Rlt_dec _ 0); [reflexivity|].
  unfold eqb, Reqb, div.
  destruct (Req_dec_T _ 0); [reflexivity|].
  f_equal. f_equal. ring.
Qed.

(** *** The spread [n * sum(v^2) - sum(v)^2] *)









Lemma sum_squares_repeat (c : R) (n : nat) :
  Spec.sum_squares (repeat c n) = INR n * (c * c).
Proof.
  unfold Spec.sum_squares. rewrite map_repeat. apply total_repeat.
Qed.

(** The spread of a constant sequence is 0. *)
Lemma spread_repeat (c : R) (n : nat) : Spec.spread (repeat c n) = 0.
Proof.
  unfold Spec.spread.
  rewrite sum_squares_repeat, total_repeat, repeat_length. ring.
Qed.

Lemma calculateCorrelation_zero_spread (x y : list R) :
  length x = length y ->
  Spec.spread x = 0 \/ Spec.spread y = 0 ->
  Routes.calculateCorrelation (map Fin x) (map Fin y) = Fin 0.
Proof.
  intros Hlen Hz.
  destruct x as [|v x].
  { unfold Routes.calculateCorrelation. simpl.
    destruct (length (map Fin y)); reflexivity. }
  rewrite calculateCorrelation_fin by (assumption || discriminate).
  cbv zeta.
  assert (E : Spec.spread (v :: x) * Spec.spread y = 0)
    by (destruct Hz as [-> | ->]; ring).
  rewrite E, sqrt_0.
  destruct (Rlt_dec 0 0); [lra|].
  destruct (Req_dec_T 0 0); [reflexivity|contradiction].
Qed.

(** ** C2: the median of [calculateStats] *)

Section Median.
Import UAVDataProcessor.

Lemma insert_sorted_perm (a : R) (l : list R) :
  Permutation (insert_sorted a l) (a :: l).
Proof.
  induction l as [|h t IH]; simpl; [reflexivity|].
  destruct (Rltb 0 (compare_numbers a h)); [|reflexivity].
  rewrite IH. apply perm_swap.
Qed.

Lemma sort_numbers_perm (l : list R) : Permutation (sort_numbers l) l.
Proof.
  induction l as [|a l IH]; simpl; [reflexivity|].
  rewrite insert_sorted_perm. constructor. exact IH.
Qed.

Lemma sort_numbers_length (l : list R) : length (sort_numbers l) = length l.
Proof. apply Permutation_length, sort_numbers_perm. Qed.

Lemma insert_sorted_hd (a b : R) (l : list R) :
  b <= a -> HdRel Rle b l -> HdRel Rle b (insert_sorted a l).
Proof.
  intros Hba Hl. destruct l as [|h t]; simpl; [constructor; exact Hba|].
  inversion Hl; subst.
  destruct (Rltb 0 (compare_numbers a h)); constructor; assumption.
Qed.

Lemma insert_sorted_sorted (a : R) (l : list R) :
  Sorted Rle l -> Sorted Rle (insert_sorted a l).
Proof.
  induction l as [|h t IH]; intros Hs; simpl.
  - repeat constructor.
  - apply Sorted_inv in Hs. destruct Hs as [Ht Hh].
    destruct (Rltb 0 (compare_numbers a h)) eqn:E.
    + apply Rltb_lt in E. unfold compare_numbers in E.
      constructor; [apply IH, Ht|].
      apply insert_sorted_hd; [lra|exact Hh].
    + apply Rltb_ge in E. unfold compare_numbers in E.
      constructor; [constructor; assumption|].
      constructor. lra.
Qed.

Lemma sort_numbers_sorted (l : list R) : Sorted Rle (sort_numbers l).
Proof.
  induction l as [|a l IH]; simpl; [constructor|].
  apply insert_sorted_sorted, IH.
Qed.

(** Sorting leaves a sorted sequence as it is. *)
Lemma sort_numbers_id (l : list R) : Sorted Rle l -> sort_numbers l = l.
Proof.
  induction l as [|a l IH]; intros Hs; [reflexivity|].
  apply Sorted_inv in Hs. destruct Hs as [Hl Ha].
  simpl. rewrite (IH Hl).
  destruct l as [|h t]; [reflexivity|]. simpl.
  inversion Ha; subst.
  assert (E : Rltb 0 (compare_numbers a h) = false)
    by (apply Rltb_ge; unfold compare_numbers; lra).
  rewrite E. reflexivity.
Qed.

Lemma median_index (values : list R) :
  values <> [] ->
  median (calculateStats values)
  = nth (length values / 2) (sort_numbers values) 0.
Proof.
  intros Hne. unfold calculateStats.
  destruct values as [|v l]; [contradiction|].
  cbn [length Nat.eqb median]. unfold at_index.
  rewrite sort_numbers_length. reflexivity.
Qed.

End Median.

(** Evaluates the comparisons of a sort on numerals. *)
Ltac sort_step :=
  repeat (simpl; unfold Rltb, UAVDataProcessor.compare_numbers;
          match goal with
          | |- context [Rlt_dec ?a ?b] => destruct (Rlt_dec a b); try lra
          end).

Lemma sorted_1234 : Sorted Rle [1; 2; 3; 4].
Proof. repeat constructor; lra. Qed.

(** C2, as stated, fails on [1, 2, 3, 4]: the sequence is sorted and of even
    length, its lower middle element is the one of index [4/2 - 1], which is 2,
    and [calculateStats] returns 3. *)
Lemma median_even_not_lower :
  UAVDataProcessor.sort_numbers [1; 2; 3; 4] = [1; 2; 3; 4] /\
  Nat.even (length [1; 2; 3; 4]) = true /\
  nth (length [1; 2; 3; 4] / 2 - 1) [1; 2; 3; 4] 0 = 2 /\
  UAVDataProcessor.median (UAVDataProcessor.calculateStats [1; 2; 3; 4]) = 3 /\
  UAVDataProcessor.median (UAVDataProcessor.calculateStats [1; 2; 3; 4])
  <> nth (length [1; 2; 3; 4] / 2 - 1)
       (UAVDataProcessor.sort_numbers [1; 2; 3; 4]) 0.
Proof.
  assert (Hs := sort_numbers_id _ sorted_1234).
  assert (Hm : UAVDataProcessor.median
                 (UAVDataProcessor.calculateStats [1; 2; 3; 4]) = 3).
  { rewrite median_index by discriminate. rewrite Hs. reflexivity. }
  repeat split; try assumption; try reflexivity.
  rewrite Hm, Hs. simpl. lra.
Qed.

Lemma sorted_nth_le (l : list R) :
  StronglySorted Rle l ->
  forall i j, (i <= j)%nat -> (j < length l)%nat -> nth i l 0 <= nth j l 0.
Proof.
  induction 1 as [|a t Ht IH Ha]; intros i j Hij Hj; [simpl in Hj; lia|].
  destruct j as [|j].
  - replace i with 0%nat by lia. lra.
  - simpl in Hj. destruct i as [|i].
    + simpl. rewrite Forall_forall in Ha. apply Ha, nth_In. lia.
    + simpl. apply IH; lia.
Qed.

Lemma Rle_transitive : Relations_1.Transitive Rle.
Proof. intros a b c Hab Hbc. lra. Qed.

Lemma even_half (n : nat) :
  Nat.even n = true -> (0 < n)%nat -> (n / 2 = S (n / 2 - 1))%nat.
Proof.
  intros He Hn. apply Nat.even_spec in He. destruct He as [k ->].
  replace (2 * k)%nat with (k * 2)%nat by lia.
  rewrite Nat.div_mul by lia. lia.
Qed.

(** C2, amended.  For every non-empty sequence of reals the median returned
    by [calculateStats] is the element of index [floor(length / 2)] of the
    value-sorted copy (a sorted permutation of the input), without
    interpolation; when the length is even this is the UPPER of the two
    middle elements, of indices [length/2 - 1] and [length/2]; so for every
    non-empty sorted sequence the median is its element of index
    [length/2]. *)
Theorem median_is_upper_middle (values : list R) :
  values <> [] ->
  let sorted := UAVDataProcessor.sort_numbers values in
  let n := length values in
  let m := UAVDataProcessor.median (UAVDataProcessor.calculateStats values) in
  Permutation sorted values /\
  Sorted Rle sorted /\
  (n / 2 < n)%nat /\
  m = nth (n / 2) sorted 0 /\
  (Nat.even n = true ->
   (n / 2 = S (n / 2 - 1))%nat /\ nth (n / 2 - 1) sorted 0 <= m) /\
  (Sorted Rle values -> m = nth (n / 2) values 0).
Proof.
  intros Hne. cbv zeta.
  assert (Hn : (0 < length values)%nat)
    by (destruct values; [contradiction|simpl; lia]).
  assert (Hhalf : (length values / 2 < length values)%nat)
    by (apply Nat.div_lt; lia).
  split; [apply sort_numbers_perm|].
  split; [apply sort_numbers_sorted|].
  split; [exact Hhalf|].
  split; [apply median_index, Hne|].
  split.
  - intros He. split; [apply even_half; assumption|].
    rewrite median_index by exact Hne.
    apply sorted_nth_le.
    + apply Sorted_StronglySorted;
        [exact Rle_transitive|apply sort_numbers_sorted].
    + lia.
    + rewrite sort_numbers_length. exact Hhalf.
  - intros Hs. rewrite median_index by exact Hne.
    rewrite (sort_numbers_id _ Hs). reflexivity.
Qed.

Lemma sort_3142 : UAVDataProcessor.sort_numbers [3; 1; 4; 2] = [1; 2; 3; 4].
Proof.
  unfold UAVDataProcessor.sort_numbers. sort_step. reflexivity.
Qed.

(** The amended C2 at [3, 1, 4, 2], whose median is 3. *)
Lemma median_is_upper_middle_witness :
  UAVDataProcessor.median (UAVDataProcessor.calculateStats [3; 1; 4; 2]) = 3.
Proof.
  transitivity (nth (length [3; 1; 4; 2] / 2)
                  (UAVDataProcessor.sort_numbers [3; 1; 4; 2]) 0).
  - apply (median_is_upper_middle [3; 1; 4; 2]). discriminate.
  - rewrite sort_3142. reflexivity.
Defined.

(** ** The averages of the two halves of a series *)

Lemma sum_values_total (points : list Routes.DataPoint) :
  Routes.sum_values points = Spec.total (map Routes.value points).
Proof.
  unfold Routes.sum_values.
  assert (H : forall l a,
             fold_left (fun sum point => sum + Routes.value point) l a
             = a + Spec.total (map Routes.value l)).
  { induction l as [|p l IH]; intros a; simpl; [lra|]. rewrite IH. lra. }
  rewrite H. lra.
Qed.

Lemma half_average_mean (half : list Routes.DataPoint) :
  half <> [] ->
  Routes.half_average half = Fin (Spec.mean (map Routes.value half)).
Proof.
  intros Hne. unfold Routes.half_average, of_nat, div, Spec.mean.
  rewrite sum_values_total, length_map.
  destruct (Req_dec_T (INR (length half)) 0) as [E|_]; [|reflexivity].
  exfalso. destruct half; [contradiction|].
  revert E. apply not_0_INR. discriminate.
Qed.

Lemma halves_nonempty {A : Type} (l : list A) :
  (2 <= length l)%nat ->
  firstn (length l / 2) l <> [] /\ skipn (length l / 2) l <> [].
Proof.
  intros Hn.
  assert (H1 : (0 < length l / 2)%nat) by (apply Nat.div_str_pos; lia).
  assert (H2 : (length l / 2 < length l)%nat) by (apply Nat.div_lt; lia).
  split; intros E; apply (f_equal (@length A)) in E;
    rewrite ?length_firstn, ?length_skipn in E; cbn [length] in E;
    set (h := (length l / 2)%nat) in *; lia.
Qed.

(** The relative change, in terms of the two means. *)
Lemma relative_change (fa sa : R) :
  (((Fin sa - Fin fa) / Fin fa) * Fin 100)%num
  = if Req_dec_T fa 0
    then by_sign (sa - fa) PosInf NegInf NaN
    else Fin ((sa - fa) / fa * 100).
Proof.
  unfold sub, neg, add, div, by_sign. fold (sa - fa).
  destruct (Req_dec_T fa 0); [|reflexivity].
  destruct (Rlt_dec 0 (sa - fa)); [unfold mul, by_sign; rdec; reflexivity|].
  destruct (Rlt_dec (sa - fa) 0); [unfold mul, by_sign; rdec; reflexivity|].
  reflexivity.
Qed.

Lemma changePercent_means (dataPoints : list Routes.DataPoint) :
  (2 <= length dataPoints)%nat ->
  let values := map Routes.value dataPoints in
  let fa := Spec.mean (Spec.first_half values) in
  let sa := Spec.mean (Spec.second_half values) in
  Routes.changePercent dataPoints
  = if Req_dec_T fa 0
    then by_sign (sa - fa) PosInf NegInf NaN
    else Fin ((sa - fa) / fa * 100).
Proof.
  intros Hn. cbv zeta. unfold Routes.changePercent.
  destruct (halves_nonempty dataPoints Hn) as [H1 H2].
  rewrite (half_average_mean _ H1), (half_average_mean _ H2).
  unfold Spec.first_half, Spec.second_half.
  rewrite length_map, <- firstn_map, <- skipn_map.
  apply relative_change.
Qed.

Lemma mean_lt_bound (m : R) (l : list R) :
  l <> [] -> (forall a, In a l -> a < m) -> Spec.mean l < m.
Proof.
  intros Hne Hall.
  assert (Ht : Spec.total l < INR (length l) * m).
  { induction l as [|a l IH]; [contradiction|].
    unfold Spec.total in *. cbn [fold_right length]. rewrite S_INR.
    assert (Ha : a < m) by (apply Hall; left; reflexivity).
    destruct l as [|b l].
    - simpl. lra.
    - assert (H : fold_right Rplus 0 (b :: l) < INR (length (b :: l)) * m).
      { apply IH; [discriminate|]. intros v Hv. apply Hall. right. exact Hv. }
      lra. }
  assert (Hpos : 0 < INR (length l)).
  { apply lt_0_INR. destruct l; [contradiction|simpl; lia]. }
  unfold Spec.mean. apply Rmult_lt_reg_r with (INR (length l)); [exact Hpos|].
  unfold Rdiv. rewrite Rmult_assoc, Rinv_l by lra. lra.
Qed.

Lemma mean_gt_bound (m : R) (l : list R) :
  l <> [] -> (forall a, In a l -> m < a) -> m < Spec.mean l.
Proof.
  intros Hne Hall.
  assert (Ht : INR (length l) * m < Spec.total l).
  { induction l as [|a l IH]; [contradiction|].
    unfold Spec.total in *. cbn [fold_right length]. rewrite S_INR.
    assert (Ha : m < a) by (apply Hall; left; reflexivity).
    destruct l as [|b l].
    - simpl. lra.
    - assert (H : INR (length (b :: l)) * m < fold_right Rplus 0 (b :: l)).
      { apply IH; [discriminate|]. intros v Hv. apply Hall. right. exact Hv. }
      lra. }
  assert (Hpos : 0 < INR (length l)).
  { apply lt_0_INR. destruct l; [contradiction|simpl; lia]. }
  unfold Spec.mean. apply Rmult_lt_reg_r with (INR (length l)); [exact Hpos|].
  unfold Rdiv. rewrite Rmult_assoc, Rinv_l by lra. lra.
Qed.

Lemma mean_constant (c : R) (l : list R) :
  l <> [] -> (forall v, In v l -> v = c) -> Spec.mean l = c.
Proof.
  intros Hne Hall.
  assert (E : l = repeat c (length l)).
  { apply Forall_eq_repeat, Forall_forall. intros v Hv.
    symmetry. apply Hall, Hv. }
  rewrite E. apply mean_repeat.
  destruct l; [contradiction|simpl; lia].
Qed.

Lemma strongly_sorted_app_lt (l1 l2 : list R) :
  StronglySorted Rlt (l1 ++ l2) ->
  forall a b, In a l1 -> In b l2 -> a < b.
Proof.
  induction l1 as [|h t IH]; intros Hs a b Ha Hb; [contradiction|].
  simpl in Hs. apply StronglySorted_inv in Hs. destruct Hs as [Ht Hh].
  destruct Ha as [<-|Ha].
  - rewrite Forall_forall in Hh. apply Hh, in_or_app. right. exact Hb.
  - apply (IH Ht a b Ha Hb).
Qed.

Lemma Rlt_transitive : Relations_1.Transitive Rlt.
Proof. intros a b c Hab Hbc. lra. Qed.

(** In a strictly increasing series the mean of the second half exceeds the
    mean of the first half. *)
Lemma halves_means_lt (l : list R) :
  Sorted Rlt l -> (2 <= length l)%nat ->
  Spec.mean (Spec.first_half l) < Spec.mean (Spec.second_half l).
Proof.
  intros Hs Hn. unfold Spec.first_half, Spec.second_half.
  destruct (halves_nonempty l Hn) as [H1 H2].
  apply Sorted_StronglySorted in Hs; [|exact Rlt_transitive].
  rewrite <- (firstn_skipn (length l / 2) l) in Hs.
  pose proof (strongly_sorted_app_lt _ _ Hs) as Hlt.
  apply mean_gt_bound; [exact H2|]. intros b Hb.
  apply mean_lt_bound; [exact H1|]. intros a Ha.
  apply Hlt; assumption.
Qed.

Lemma series_values (values : list R) :
  map Routes.value (Examples.series values) = values.
Proof.
  unfold Examples.series. rewrite map_map. simpl. apply map_id.
Qed.

(** ** C4: the relative changes of the trend operations *)

Lemma relative_change_from_zero (last : R) :
  (((Fin last - Fin 0) / Fin 0) * Fin 100)%num
  = by_sign last PosInf NegInf NaN.
Proof.
  rewrite relative_change.
  destruct (Req_dec_T 0 0); [|contradiction].
  replace (last - 0) with last by ring. reflexivity.
Qed.

(** C4 fails on the code: both relative changes divide by the first average
    (or first value) without a guard.  On the accepted series 0, 1 the change
    is [Infinity] and on 0, 0 it is [NaN], for [calculateTrendDirection]
    (which then answers [improving] and [stable]) and for
    [calculateTrendSummary], whose [overallChange] field then renders
    [Infinity] and [NaN]. *)
Theorem trend_change_not_finite :
  Routes.changePercent (Examples.series [0; 1]) = PosInf /\
  Routes.changePercent (Examples.series [0; 0]) = NaN /\
  Routes.calculateTrendDirection (Examples.series [0; 1])
  = "improving"%string /\
  Routes.calculateTrendDirection (Examples.series [0; 0]) = "stable"%string /\
  (exists s,
     Routes.calculateTrendSummary (Examples.trend_series [0; 1])
     = Routes.Summary s /\
     Routes.overallChange s = PosInf /\
     is_finite (Routes.overallChange s) = false) /\
  (exists s,
     Routes.calculateTrendSummary (Examples.trend_series [0; 0])
     = Routes.Summary s /\
     Routes.overallChange s = NaN /\
     is_finite (Routes.overallChange s) = false).
Proof.
  assert (Hlen : forall a b, (2 <= length (Examples.series [a; b]))%nat)
    by (intros; simpl; lia).
  assert (H1 : Spec.mean [1] = 1) by (unfold Spec.mean, Spec.total; simpl; lra).
  assert (H0 : Spec.mean [0] = 0) by (unfold Spec.mean, Spec.total; simpl; lra).
  assert (C1 : Routes.changePercent (Examples.series [0; 1]) = PosInf).
  { rewrite changePercent_means by apply Hlen. cbv zeta.
    rewrite series_values.
    change (Spec.first_half [0; 1]) with [0].
    change (Spec.second_half [0; 1]) with [1].
    rewrite H0, H1. unfold by_sign.
    destruct (Req_dec_T 0 0); [|contradiction].
    destruct (Rlt_dec 0 (1 - 0)); [reflexivity|lra]. }
  assert (C0 : Routes.changePercent (Examples.series [0; 0]) = NaN).
  { rewrite changePercent_means by apply Hlen. cbv zeta.
    rewrite series_values.
    change (Spec.first_half [0; 0]) with [0].
    change (Spec.second_half [0; 0]) with [0].
    rewrite H0. unfold by_sign.
    destruct (Req_dec_T 0 0); [|contradiction].
    destruct (Rlt_dec 0 (0 - 0)); [lra|].
    destruct (Rlt_dec (0 - 0) 0); [lra|reflexivity]. }
  split; [exact C1|]. split; [exact C0|].
  split.
  { unfold Routes.calculateTrendDirection. cbv zeta. rewrite C1.
    reflexivity. }
  split.
  { unfold Routes.calculateTrendDirection. cbv zeta. rewrite C0.
    reflexivity. }
  split.
  - eexists. split; [reflexivity|].
    cbn [Routes.overallChange Examples.trend_series map last Routes.tp_value].
    rewrite relative_change_from_zero. unfold by_sign.
    destruct (Rlt_dec 0 1); [|lra]. split; reflexivity.
  - eexists. split; [reflexivity|].
    cbn [Routes.overallChange Examples.trend_series map last Routes.tp_value].
    rewrite relative_change_from_zero. unfold by_sign.
    destruct (Rlt_dec 0 0); [lra|]. split; reflexivity.
Qed.

(* ================================================================== *)
(** * Further properties of the analysers *)
(* ================================================================== *)

(** ** Means and rounding *)

Lemma total_between (m M : R) (l : list R) :
  (forall v, In v l -> m <= v <= M) ->
  INR (length l) * m <= Spec.total l <= INR (length l) * M.
Proof.
  intros Hall. unfold Spec.total.
  induction l as [|a l IH].
  - simpl. lra.
  - cbn [fold_right length]. rewrite S_INR.
    assert (Ha : m <= a <= M) by (apply Hall; left; reflexivity).
    assert (Hl : forall v, In v l -> m <= v <= M)
      by (intros v Hv; apply Hall; right; exact Hv).
    specialize (IH Hl). lra.
Qed.

Lemma mean_between (m M : R) (l : list R) :
  l <> [] -> (forall v, In v l -> m <= v <= M) -> m <= Spec.mean l <= M.
Proof.
  intros Hne Hall. pose proof (total_between m M l Hall) as [H1 H2].
  assert (Hpos : 0 < INR (length l)).
  { apply lt_0_INR. destruct l; [contradiction|simpl; lia]. }
  unfold Spec.mean. split.
  - apply Rmult_le_reg_r with (INR (length l)); [exact Hpos|].
    unfold Rdiv. rewrite Rmult_assoc, Rinv_l by lra. lra.
  - apply Rmult_le_reg_r with (INR (length l)); [exact Hpos|].
    unfold Rdiv. rewrite Rmult_assoc, Rinv_l by lra. lra.
Qed.

Lemma Int_part_le (a b : R) : a <= b -> (Int_part a <= Int_part b)%Z.
Proof.
  intros Hab.
  destruct (base_Int_part a) as [Ha _], (base_Int_part b) as [_ Hb].
  assert (H : IZR (Int_part a) < IZR (Int_part b + 1)).
  { rewrite plus_IZR. lra. }
  apply lt_IZR in H. lia.
Qed.

Lemma Int_part_IZR_half (k : Z) : Int_part (IZR k + / 2) = k.
Proof. symmetry. apply Int_part_spec. lra. Qed.

Lemma round_half_up_IZR (k : Z) : round_half_up (IZR k) = IZR k.
Proof. unfold round_half_up. rewrite Int_part_IZR_half. reflexivity. Qed.

Lemma round_half_up_le (a b : R) :
  a <= b -> round_half_up a <= round_half_up b.
Proof.
  intros Hab. unfold round_half_up. apply IZR_le, Int_part_le. lra.
Qed.

(** Rounding to the nearest integer moves a number by at most one half. *)
Lemma round_half_up_error (a : R) : - / 2 < round_half_up a - a <= / 2.
Proof.
  unfold round_half_up. destruct (base_Int_part (a + / 2)) as [H1 H2]. lra.
Qed.

Lemma pow10_pos (d : nat) : 0 < 10 ^ d.
Proof. apply pow_lt. lra. Qed.

(** [toFixed(d)] moves a number by at most half a unit of the last digit. *)
Lemma toFixedR_error (d : nat) (a : R) :
  Rabs (toFixedR d a - a) <= / 2 / 10 ^ d.
Proof.
  pose proof (pow10_pos d) as Hp. unfold toFixedR.
  assert (Hdiv : forall e, Rabs e <= / 2 -> Rabs (e / 10 ^ d) <= / 2 / 10 ^ d).
  { intros e He. unfold Rdiv. rewrite Rabs_mult, (Rabs_pos_eq (/ 10 ^ d)).
    - apply Rmult_le_compat_r; [|exact He].
      apply Rlt_le, Rinv_0_lt_compat, Hp.
    - apply Rlt_le, Rinv_0_lt_compat, Hp. }
  destruct (Rlt_dec a 0) as [Hneg|Hpos].
  - pose proof (round_half_up_error (- a * 10 ^ d)) as He.
    replace (- (round_half_up (- a * 10 ^ d) / 10 ^ d) - a)
      with (- (round_half_up (- a * 10 ^ d) - - a * 10 ^ d) / 10 ^ d)
      by (field; lra).
    apply Hdiv. apply Rabs_le. lra.
  - pose proof (round_half_up_error (a * 10 ^ d)) as He.
    replace (round_half_up (a * 10 ^ d) / 10 ^ d - a)
      with ((round_half_up (a * 10 ^ d) - a * 10 ^ d) / 10 ^ d)
      by (field; lra).
    apply Hdiv. apply Rabs_le. lra.
Qed.

Lemma toFixedR_0 (d : nat) : toFixedR d 0 = 0.
Proof.
  unfold toFixedR. destruct (Rlt_dec 0 0); [lra|].
  rewrite Rmult_0_l. rewrite (round_half_up_IZR 0). unfold Rdiv.
  apply Rmult_0_l.
Qed.

Lemma toFixedR_nonneg (d : nat) (a : R) : 0 <= a -> 0 <= toFixedR d a.
Proof.
  intros Ha. pose proof (pow10_pos d) as Hp. unfold toFixedR.
  destruct (Rlt_dec a 0); [lra|].
  apply Rmult_le_pos; [|apply Rlt_le, Rinv_0_lt_compat, Hp].
  rewrite <- (round_half_up_IZR 0). apply round_half_up_le.
  apply Rmult_le_pos; lra.
Qed.

Lemma toFixedR_le (d : nat) (a b : R) :
  0 <= a -> a <= b -> toFixedR d a <= toFixedR d b.
Proof.
  intros Ha Hab. pose proof (pow10_pos d) as Hp. unfold toFixedR.
  destruct (Rlt_dec a 0), (Rlt_dec b 0); try lra.
  apply Rmult_le_compat_r; [apply Rlt_le, Rinv_0_lt_compat, Hp|].
  apply round_half_up_le. apply Rmult_le_compat_r; lra.
Qed.

(** ** calculateStats: order of the four statistics *)

Lemma fold_left_Rplus_total (l : list R) : fold_left Rplus l 0 = Spec.total l.
Proof. rewrite fold_left_Rplus. lra. Qed.

Lemma calculateStats_fields (values : list R) :
  values <> [] ->
  let sorted := UAVDataProcessor.sort_numbers values in
  let s := UAVDataProcessor.calculateStats values in
  UAVDataProcessor.average s = Spec.mean values /\
  UAVDataProcessor.median s = nth (length values / 2) sorted 0 /\
  UAVDataProcessor.min s = nth 0 sorted 0 /\
  UAVDataProcessor.max s = nth (length values - 1) sorted 0.
Proof.
  intros Hne. cbv zeta. unfold UAVDataProcessor.calculateStats.
  destruct values as [|v l]; [contradiction|].
  cbn [length Nat.eqb UAVDataProcessor.average UAVDataProcessor.median
         UAVDataProcessor.min UAVDataProcessor.max].
  unfold UAVDataProcessor.at_index.
  rewrite sort_numbers_length, fold_left_Rplus_total. cbn [length].
  repeat split; reflexivity.
Qed.

(** ** calculatePathAccuracy *)

Lemma fold_Rmax_spec (l : list R) :
  forall a,
    a <= fold_left Rmax l a /\
    (forall v, In v l -> v <= fold_left Rmax l a) /\
    (fold_left Rmax l a = a \/ In (fold_left Rmax l a) l).
Proof.
  induction l as [|w l IH]; intros a; cbn [fold_left].
  - split; [lra|]. split; [contradiction|left; reflexivity].
  - destruct (IH (Rmax a w)) as (H1 & H2 & H3).
    pose proof (Rmax_l a w). pose proof (Rmax_r a w).
    split; [lra|]. split.
    + intros v [<-|Hv]; [lra|apply H2, Hv].
    + destruct H3 as [E|Hin]; [|right; right; exact Hin].
      rewrite E. unfold Rmax. destruct (Rle_dec a w); [right; left|left];
        reflexivity.
Qed.

Lemma fold_Rmin_spec (l : list R) :
  forall a,
    fold_left Rmin l a <= a /\
    (forall v, In v l -> fold_left Rmin l a <= v) /\
    (fold_left Rmin l a = a \/ In (fold_left Rmin l a) l).
Proof.
  induction l as [|w l IH]; intros a; cbn [fold_left].
  - split; [lra|]. split; [contradiction|left; reflexivity].
  - destruct (IH (Rmin a w)) as (H1 & H2 & H3).
    pose proof (Rmin_l a w). pose proof (Rmin_r a w).
    split; [lra|]. split.
    + intros v [<-|Hv]; [lra|apply H2, Hv].
    + destruct H3 as [E|Hin]; [|right; right; exact Hin].
      rewrite E. unfold Rmin. destruct (Rle_dec a w); [left|right; left];
        reflexivity.
Qed.

Lemma accuracy_step_fields (st : TrajectoryAnalyzer.AccuracyAcc) (pos : Sample) :
  let st' := TrajectoryAnalyzer.accuracy_step st pos in
  let es := match error pos with Some e => [e] | None => [] end in
  TrajectoryAnalyzer.acc_errors st' = TrajectoryAnalyzer.acc_errors st ++ es /\
  TrajectoryAnalyzer.acc_totalDeviation st'
  = TrajectoryAnalyzer.acc_totalDeviation st + Spec.total es /\
  TrajectoryAnalyzer.acc_maxDeviation st'
  = fold_left Rmax es (TrajectoryAnalyzer.acc_maxDeviation st).
Proof.
  cbv zeta. unfold TrajectoryAnalyzer.accuracy_step.
  destruct (error pos) as [e|], (error_xy pos), (error_z pos);
    cbn [TrajectoryAnalyzer.acc_errors TrajectoryAnalyzer.acc_totalDeviation
           TrajectoryAnalyzer.acc_maxDeviation fold_left];
    unfold Spec.total; cbn [fold_right];
    rewrite ?app_nil_r;
    (split; [reflexivity|]); (split; [lra|]);
    try reflexivity;
    unfold Rltb, Rmax;
    destruct (Rlt_dec (TrajectoryAnalyzer.acc_maxDeviation st) e),
      (Rle_dec (TrajectoryAnalyzer.acc_maxDeviation st) e);
    try reflexivity; lra.
Qed.

Lemma total_app (l1 l2 : list R) :
  Spec.total (l1 ++ l2) = Spec.total l1 + Spec.total l2.
Proof.
  unfold Spec.total. induction l1 as [|a l IH]; simpl; [lra|].
  rewrite IH. lra.
Qed.

Lemma accuracy_fold_fields (positions : list Sample) :
  forall st,
    let st' := fold_left TrajectoryAnalyzer.accuracy_step positions st in
    let es := UAVDataProcessor.defined_errors positions in
    TrajectoryAnalyzer.acc_errors st'
    = TrajectoryAnalyzer.acc_errors st ++ es /\
    TrajectoryAnalyzer.acc_totalDeviation st'
    = TrajectoryAnalyzer.acc_totalDeviation st + Spec.total es /\
    TrajectoryAnalyzer.acc_maxDeviation st'
    = fold_left Rmax es (TrajectoryAnalyzer.acc_maxDeviation st).
Proof.
  induction positions as [|pos l IH]; intros st; cbv zeta.
  - cbn [fold_left UAVDataProcessor.defined_errors flat_map].
    rewrite app_nil_r. unfold Spec.total. simpl. repeat split; lra.
  - cbn [fold_left UAVDataProcessor.defined_errors flat_map].
    destruct (IH (TrajectoryAnalyzer.accuracy_step st pos)) as (H1 & H2 & H3).
    destruct (accuracy_step_fields st pos) as (S1 & S2 & S3).
    fold (UAVDataProcessor.defined_errors l).
    rewrite H1, H2, H3, S1, S2, S3, total_app, fold_left_app, <- app_assoc.
    repeat split; lra.
Qed.

(** ** Phase and stabilization counts *)

Lemma count_le_length {A : Type} (f : A -> bool) (l : list A) :
  (count f l <= length l)%nat.
Proof. apply filter_length_le. Qed.

Lemma rate_range (k n : nat) :
  (k <= n)%nat ->
  0 <= (if (0 <? n)%nat then INR k / INR n else 0) <= 1.
Proof.
  intros Hk. destruct (0 <? n)%nat eqn:Hn; [|lra].
  apply Nat.ltb_lt in Hn.
  assert (Hpos : 0 < INR n) by (apply lt_0_INR; exact Hn).
  assert (H0 : 0 <= INR k) by apply pos_INR.
  assert (H1 : INR k <= INR n) by (apply le_INR; exact Hk).
  split.
  - apply Rmult_le_pos; [exact H0|]. apply Rlt_le, Rinv_0_lt_compat, Hpos.
  - apply Rmult_le_reg_r with (INR n); [exact Hpos|].
    unfold Rdiv. rewrite Rmult_assoc, Rinv_l by lra. lra.
Qed.

Lemma phaseStats_range (ps : list Sample) :
  let s := TrajectoryAnalyzer.phaseStats ps in
  TrajectoryAnalyzer.ph_count s = length ps /\
  (TrajectoryAnalyzer.stabilizedCount s <= TrajectoryAnalyzer.ph_count s)%nat /\
  0 <= TrajectoryAnalyzer.stabilizationRate s <= 1.
Proof.
  cbv zeta. unfold TrajectoryAnalyzer.phaseStats.
  cbn [TrajectoryAnalyzer.ph_count TrajectoryAnalyzer.stabilizedCount
         TrajectoryAnalyzer.stabilizationRate].
  split; [reflexivity|]. split; [apply count_le_length|].
  apply rate_range, count_le_length.
Qed.

Lemma phase_counts_sum (l : list Sample) :
  (count (TrajectoryAnalyzer.is_phase "waypoint") l
   + count (TrajectoryAnalyzer.is_phase "transit") l
   + count (fun p => negb (TrajectoryAnalyzer.is_phase "waypoint" p
                           || TrajectoryAnalyzer.is_phase "transit" p)) l
   = length l)%nat.
Proof.
  induction l as [|p l IH]; [reflexivity|].
  rewrite !count_cons. cbn [length].
  unfold TrajectoryAnalyzer.is_phase in *.
  destruct (String.eqb (phase p) "waypoint") eqn:Ew,
    (String.eqb (phase p) "transit") eqn:Et; cbn [orb negb Nat.b2n];
    try lia.
  apply String.eqb_eq in Ew, Et. rewrite Ew in Et. discriminate.
Qed.

Lemma count_zero_iff {A : Type} (f : A -> bool) (l : list A) :
  count f l = 0%nat <-> forall a, In a l -> f a = false.
Proof.
  induction l as [|b l IH].
  - split; [intros _ a []|reflexivity].
  - rewrite count_cons. split.
    + intros H a [E|Ha].
      * subst a. destruct (f b); [simpl in H; lia|reflexivity].
      * apply IH; [destruct (f b); simpl in H; lia|exact Ha].
    + intros H. rewrite (H b (or_introl eq_refl)).
      simpl. apply IH. intros a Ha. apply H. right. exact Ha.
Qed.

(** X3.  The waypoint and transit counts of [calculateBasicStats] are those
    of [analyzePhases]; together they never exceed the number of samples,
    and they add up to it exactly when every sample has phase [waypoint] or
    [transit]; in each phase the stabilized samples are at most the samples
    of the phase and the stabilization rate lies in [[0, 1]]. *)
Theorem phase_partition (positions : list Sample) :
  let b := TrajectoryAnalyzer.calculateBasicStats positions in
  let p := TrajectoryAnalyzer.analyzePhases positions in
  let w := TrajectoryAnalyzer.waypoint p in
  let t := TrajectoryAnalyzer.transit p in
  TrajectoryAnalyzer.bs_totalPoints b = length positions /\
  TrajectoryAnalyzer.waypointPoints b = TrajectoryAnalyzer.ph_count w /\
  TrajectoryAnalyzer.transitPoints b = TrajectoryAnalyzer.ph_count t /\
  (TrajectoryAnalyzer.waypointPoints b + TrajectoryAnalyzer.transitPoints b
   <= length positions)%nat /\
  ((TrajectoryAnalyzer.waypointPoints b + TrajectoryAnalyzer.transitPoints b
    = length positions)%nat
   <-> forall s, In s positions ->
                 phase s = "waypoint"%string \/ phase s = "transit"%string) /\
  (TrajectoryAnalyzer.stabilizedCount w <= TrajectoryAnalyzer.ph_count w)%nat /\
  (TrajectoryAnalyzer.stabilizedCount t <= TrajectoryAnalyzer.ph_count t)%nat /\
  0 <= TrajectoryAnalyzer.stabilizationRate w <= 1 /\
  0 <= TrajectoryAnalyzer.stabilizationRate t <= 1.
Proof.
  cbv zeta.
  unfold TrajectoryAnalyzer.calculateBasicStats, TrajectoryAnalyzer.analyzePhases.
  cbn [TrajectoryAnalyzer.bs_totalPoints TrajectoryAnalyzer.waypointPoints
         TrajectoryAnalyzer.transitPoints TrajectoryAnalyzer.waypoint
         TrajectoryAnalyzer.transit].
  pose proof (phase_counts_sum positions) as Hsum. unfold count in Hsum.
  destruct (phaseStats_range
              (filter (TrajectoryAnalyzer.is_phase "waypoint") positions))
    as (Wc & Ws & Wr).
  destruct (phaseStats_range
              (filter (TrajectoryAnalyzer.is_phase "transit") positions))
    as (Tc & Ts & Tr).
  rewrite Wc, Tc in *.
  split; [reflexivity|]. split; [reflexivity|]. split; [reflexivity|].
  split; [lia|]. split.
  - split.
    + intros E s Hs.
      assert (Hz : count (fun p => negb (TrajectoryAnalyzer.is_phase "waypoint" p
                              || TrajectoryAnalyzer.is_phase "transit" p))
                     positions = 0%nat) by (unfold count; lia).
      rewrite count_zero_iff in Hz. specialize (Hz s Hs).
      apply negb_false_iff, orb_true_iff in Hz.
      unfold TrajectoryAnalyzer.is_phase in Hz.
      rewrite !String.eqb_eq in Hz. exact Hz.
    + intros Hall.
      assert (Hz : count (fun p => negb (TrajectoryAnalyzer.is_phase "waypoint" p
                              || TrajectoryAnalyzer.is_phase "transit" p))
                     positions = 0%nat).
      { apply count_zero_iff. intros s Hs.
        apply negb_false_iff, orb_true_iff.
        unfold TrajectoryAnalyzer.is_phase. rewrite !String.eqb_eq.
        apply Hall, Hs. }
      unfold count in Hz. lia.
  - repeat split; try assumption; lra.
Qed.

(** X3 at two samples of phase [waypoint]. *)
Lemma phase_partition_witness :
  (TrajectoryAnalyzer.waypointPoints
     (TrajectoryAnalyzer.calculateBasicStats
        [Examples.sample_with_error 0; Examples.sample_with_error 1])
   + TrajectoryAnalyzer.transitPoints
       (TrajectoryAnalyzer.calculateBasicStats
          [Examples.sample_with_error 0; Examples.sample_with_error 1])
   = 2)%nat.
Proof.
  apply (phase_partition
           [Examples.sample_with_error 0; Examples.sample_with_error 1]).
  intros s [<-|[<-|[]]]; left; reflexivity.
Defined.

(** X4.  [calculateStabilityMetrics] splits the samples into stabilized and
    unstabilized ones, its ratio lies in [[0, 1]], and for a non-empty
    flight the ratio is 1 exactly when every sample is stabilized and 0
    exactly when none is. *)
Theorem stabilization_counts (positions : list Sample) :
  let m := TrajectoryAnalyzer.calculateStabilityMetrics positions in
  (TrajectoryAnalyzer.stabilizedPoints m
   + TrajectoryAnalyzer.unstabilizedPoints m = length positions)%nat /\
  0 <= TrajectoryAnalyzer.stabilizationRatio m <= 1 /\
  (positions <> [] ->
   (TrajectoryAnalyzer.stabilizationRatio m = 1
    <-> forall s, In s positions -> stabilized s = true) /\
   (TrajectoryAnalyzer.stabilizationRatio m = 0
    <-> forall s, In s positions -> stabilized s = false)).
Proof.
  cbv zeta. unfold TrajectoryAnalyzer.calculateStabilityMetrics.
  cbn [TrajectoryAnalyzer.stabilizedPoints TrajectoryAnalyzer.unstabilizedPoints
         TrajectoryAnalyzer.stabilizationRatio].
  pose proof (count_le_length stabilized positions) as Hle.
  split; [lia|]. split; [apply rate_range, Hle|].
  intros Hne.
  assert (Hn : (0 < length positions)%nat)
    by (destruct positions; [contradiction|simpl; lia]).
  assert (Hpos : 0 < INR (length positions)) by (apply lt_0_INR, Hn).
  unfold nonempty. apply Nat.ltb_lt in Hn. rewrite Hn. apply Nat.ltb_lt in Hn.
  assert (Hsplit : (count stabilized positions
                    + count (fun s => negb (stabilized s)) positions
                    = length positions)%nat).
  { clear. induction positions as [|p l IH]; [reflexivity|].
    rewrite !count_cons. cbn [length]. destruct (stabilized p); simpl; lia. }
  split.
  - split.
    + intros E s Hs.
      assert (Hc : INR (count stabilized positions) = INR (length positions)).
      { apply Rmult_eq_reg_r with (/ INR (length positions));
          [|apply Rinv_neq_0_compat; lra].
        fold (INR (count stabilized positions) / INR (length positions)).
        rewrite E. field. lra. }
      apply INR_eq in Hc.
      assert (Hz : count (fun s => negb (stabilized s)) positions = 0%nat)
        by lia.
      rewrite count_zero_iff in Hz. apply negb_false_iff, Hz, Hs.
    + intros Hall.
      assert (Hz : count (fun s => negb (stabilized s)) positions = 0%nat).
      { apply count_zero_iff. intros s Hs. apply negb_false_iff, Hall, Hs. }
      replace (count stabilized positions) with (length positions) by lia.
      field. lra.
  - split.
    + intros E. apply count_zero_iff.
      apply INR_eq. simpl INR.
      apply Rmult_eq_reg_r with (/ INR (length positions));
        [|apply Rinv_neq_0_compat; lra].
      fold (INR (count stabilized positions) / INR (length positions)).
      rewrite E. ring.
    + intros Hall. apply count_zero_iff in Hall. rewrite Hall. simpl INR.
      unfold Rdiv. apply Rmult_0_l.
Qed.

(** X4 at a flight of two stabilized samples. *)
Lemma stabilization_counts_witness :
  TrajectoryAnalyzer.stabilizationRatio
    (TrajectoryAnalyzer.calculateStabilityMetrics
       [Examples.sample_with_error 0; Examples.sample_with_error 1]) = 1.
Proof.
  apply (stabilization_counts
           [Examples.sample_with_error 0; Examples.sample_with_error 1]).
  - discriminate.
  - intros s [<-|[<-|[]]]; reflexivity.
Defined.

(** ** calculateActualDistance *)

(** The Euclidean norm is subadditive. *)
Lemma norm_triangle (u1 u2 u3 v1 v2 v3 : R) :
  R_sqrt.sqrt ((u1 + v1) ^ 2 + (u2 + v2) ^ 2 + (u3 + v3) ^ 2)
  <= R_sqrt.sqrt (u1 ^ 2 + u2 ^ 2 + u3 ^ 2)
     + R_sqrt.sqrt (v1 ^ 2 + v2 ^ 2 + v3 ^ 2).
Proof.
  set (U := u1 ^ 2 + u2 ^ 2 + u3 ^ 2).
  set (V := v1 ^ 2 + v2 ^ 2 + v3 ^ 2).
  assert (HU : 0 <= U) by (unfold U; nra).
  assert (HV : 0 <= V) by (unfold V; nra).
  pose proof (sqrt_pos U) as HA. pose proof (sqrt_pos V) as HB.
  pose proof (sqrt_sqrt U HU) as HAA. pose proof (sqrt_sqrt V HV) as HBB.
  set (A := R_sqrt.sqrt U) in *. set (B := R_sqrt.sqrt V) in *.
  rewrite <- (sqrt_square (A + B)) by lra.
  apply sqrt_le_1_alt.
  set (d := u1 * v1 + u2 * v2 + u3 * v3).
  assert (Hlag : d * d <= U * V).
  { unfold d, U, V.
    assert (H : (u1 ^ 2 + u2 ^ 2 + u3 ^ 2) * (v1 ^ 2 + v2 ^ 2 + v3 ^ 2)
                - (u1 * v1 + u2 * v2 + u3 * v3) * (u1 * v1 + u2 * v2 + u3 * v3)
                = (u1 * v2 - u2 * v1) ^ 2 + (u1 * v3 - u3 * v1) ^ 2
                  + (u2 * v3 - u3 * v2) ^ 2) by ring.
    pose proof (pow2_ge_0 (u1 * v2 - u2 * v1)).
    pose proof (pow2_ge_0 (u1 * v3 - u3 * v1)).
    pose proof (pow2_ge_0 (u2 * v3 - u3 * v2)).
    lra. }
  assert (Hd : d <= A * B).
  { destruct (Rle_dec d (A * B)) as [H|H]; [exact H|].
    exfalso. apply Rnot_le_lt in H.
    assert (0 <= A * B) by (apply Rmult_le_pos; assumption).
    assert ((A * B) * (A * B) < d * d) by nra.
    assert ((A * B) * (A * B) = U * V).
    { rewrite <- HAA, <- HBB. ring. }
    lra. }
  replace ((u1 + v1) ^ 2 + (u2 + v2) ^ 2 + (u3 + v3) ^ 2)
    with (U + V + 2 * d) by (unfold U, V, d; ring).
  replace ((A + B) * (A + B)) with (A * A + B * B + 2 * (A * B)) by ring.
  lra.
Qed.

Lemma sample_dist_triangle (a b c : Sample) :
  TrajectoryAnalyzer.sample_dist c a
  <= TrajectoryAnalyzer.sample_dist b a + TrajectoryAnalyzer.sample_dist c b.
Proof.
  unfold TrajectoryAnalyzer.sample_dist.
  replace (x c - x a) with ((x b - x a) + (x c - x b)) by ring.
  replace (y c - y a) with ((y b - y a) + (y c - y b)) by ring.
  replace (z c - z a) with ((z b - z a) + (z c - z b)) by ring.
  apply norm_triangle.
Qed.

Lemma sample_dist_self (a : Sample) : TrajectoryAnalyzer.sample_dist a a = 0.
Proof.
  unfold TrajectoryAnalyzer.sample_dist.
  replace ((x a - x a) ^ 2 + (y a - y a) ^ 2 + (z a - z a) ^ 2) with 0 by ring.
  apply sqrt_0.
Qed.

Lemma last_nonempty {A : Type} (l : list A) :
  forall b d d' : A, last (b :: l) d = last (b :: l) d'.
Proof.
  induction l as [|c l IH]; intros b d d'; [reflexivity|].
  change (last (c :: l) d = last (c :: l) d'). apply IH.
Qed.

Lemma straight_line_bound (rest : list Sample) :
  forall first,
    TrajectoryAnalyzer.sample_dist (last (first :: rest) first) first
    <= Spec.consecutive_sum TrajectoryAnalyzer.sample_dist (first :: rest).
Proof.
  induction rest as [|b rest IH]; intros first.
  - cbn [last Spec.consecutive_sum]. rewrite sample_dist_self. lra.
  - specialize (IH b).
    change (last (first :: b :: rest) first) with (last (b :: rest) first).
    rewrite (last_nonempty rest b first b).
    pose proof (sample_dist_triangle first b (last (b :: rest) b)).
    cbn [Spec.consecutive_sum] in *. lra.
Qed.

(** ** calculateEfficiency: ratio and excess distance *)




(** ** calculateSimpleQualityScore and assignQualityGrade *)

(** ** calculateBasicAnalysis *)

Lemma percentage_value (k n : nat) :
  (0 < n)%nat ->
  ((of_nat k / of_nat n) * Fin 100)%num = Fin (INR k / INR n * 100).
Proof.
  intros Hn. unfold of_nat, div, mul.
  destruct (Req_dec_T (INR n) 0) as [E|_]; [|reflexivity].
  exfalso. revert E. apply not_0_INR. lia.
Qed.




(** ** processFlightData and the analyses of a stored flight *)

Lemma filter_all {A : Type} (f : A -> bool) (l : list A) :
  (forall a, In a l -> f a = true) -> filter f l = l.
Proof.
  induction l as [|b l IH]; intros H; [reflexivity|]. simpl.
  rewrite (H b (or_introl eq_refl)). f_equal. apply IH.
  intros a Ha. apply H. right. exact Ha.
Qed.

Lemma filter_none {A : Type} (f : A -> bool) (l : list A) :
  (forall a, In a l -> f a = false) -> filter f l = [].
Proof.
  induction l as [|b l IH]; intros H; [reflexivity|]. simpl.
  rewrite (H b (or_introl eq_refl)). apply IH.
  intros a Ha. apply H. right. exact Ha.
Qed.

Lemma processPoint_quality (p : Sample) :
  Routes.quality (UAVDataProcessor.processPoint p) = 100.
Proof. reflexivity. Qed.

Lemma processPoint_buckets (p : Sample) :
  Routes.is_excellent (UAVDataProcessor.processPoint p) = true /\
  Routes.is_good (UAVDataProcessor.processPoint p) = false /\
  Routes.is_fair (UAVDataProcessor.processPoint p) = false /\
  Routes.is_poor (UAVDataProcessor.processPoint p) = false.
Proof.
  unfold Routes.is_excellent, Routes.is_good, Routes.is_fair, Routes.is_poor.
  rewrite processPoint_quality.
  assert (H1 : Rleb 90 100 = true) by (apply Rleb_le; lra).
  assert (H2 : Rltb 100 90 = false) by (apply Rltb_ge; lra).
  assert (H3 : Rltb 100 70 = false) by (apply Rltb_ge; lra).
  assert (H4 : Rltb 100 50 = false) by (apply Rltb_ge; lra).
  rewrite H1, H2, H3, H4, !andb_false_r. repeat split; reflexivity.
Qed.

Lemma stored_buckets (raw : list Sample) :
  let stored := map UAVDataProcessor.processPoint raw in
  filter Routes.is_excellent stored = stored /\
  filter Routes.is_good stored = [] /\
  filter Routes.is_fair stored = [] /\
  filter Routes.is_poor stored = [] /\
  filter stabilized stored = [].
Proof.
  cbv zeta.
  split; [apply filter_all|split; [apply filter_none|split;
    [apply filter_none|split; [apply filter_none|apply filter_none]]]];
    intros a Ha; apply in_map_iff in Ha; destruct Ha as (p & <- & _);
    try apply (processPoint_buckets p); reflexivity.
Qed.

Lemma pow10_IZR (d : nat) : 10 ^ d = IZR (10 ^ Z.of_nat d).
Proof. rewrite <- pow_IZR. reflexivity. Qed.

(** [toFixed] leaves a non-negative integer as it is. *)
Lemma toFixedR_IZR (d : nat) (k : Z) :
  (0 <= k)%Z -> toFixedR d (IZR k) = IZR k.
Proof.
  intros Hk. pose proof (pow10_pos d) as Hp. unfold toFixedR.
  destruct (Rlt_dec (IZR k) 0) as [H|_].
  - exfalso. apply IZR_le in Hk. lra.
  - rewrite pow10_IZR, <- mult_IZR, round_half_up_IZR, mult_IZR.
    field. rewrite <- pow10_IZR. lra.
Qed.

Lemma stored_qualities (raw : list Sample) :
  map Routes.quality (map UAVDataProcessor.processPoint raw)
  = repeat 100 (length raw).
Proof.
  induction raw as [|p l IH]; [reflexivity|].
  cbn [map length repeat]. rewrite IH, processPoint_quality. reflexivity.
Qed.

Lemma stored_errors (raw : list Sample) :
  map (fun p => of_option (error p)) (map UAVDataProcessor.processPoint raw)
  = map Fin (map (fun p => or_default (error p) 0) raw).
Proof. rewrite !map_map. reflexivity. Qed.

(** The correlation of the network analysis of a stored flight is 0. *)
Lemma stored_correlation (raw : list Sample) :
  let stored := map UAVDataProcessor.processPoint raw in
  Routes.calculateCorrelation
    (map (fun p => Fin (Routes.quality p)) stored)
    (map (fun p => of_option (error p)) stored)
  = Fin 0.
Proof.
  cbv zeta. rewrite stored_errors.
  replace (map (fun p => Fin (Routes.quality p))
             (map UAVDataProcessor.processPoint raw))
    with (map Fin (map Routes.quality
                     (map UAVDataProcessor.processPoint raw)))
    by (rewrite !map_map; reflexivity).
  rewrite stored_qualities.
  apply calculateCorrelation_zero_spread.
  - rewrite repeat_length, length_map. reflexivity.
  - left. apply spread_repeat.
Qed.

(** X9.  [processFlightData] keeps the number and the coordinates of the
    points but stores neither [networkQuality] nor [stabilized]; every
    stored point has an error (0 when the upload had none).  So the network
    analysis of the stored points of any upload puts all of them in the
    [excellent] segment, with a share of 100 and a stabilization rate of 0,
    reports a correlation of 0 of strength [weak], and recommends nothing. *)
Theorem stored_flight_network_impact
    (upload : UAVDataProcessor.Upload) (flightName : option string) :
  let raw := position_data (UAVDataProcessor.up_data upload) in
  let stored :=
    UAVDataProcessor.pf_positionData
      (UAVDataProcessor.processFlightData upload flightName) in
  let ni := Routes.analyzeNetworkImpact stored in
  length stored = length raw /\
  map (fun p => (x p, y p, z p, time p)) stored
  = map (fun p => (x p, y p, z p, time p)) raw /\
  (forall p, In p stored ->
     networkQuality p = None /\ stabilized p = false /\
     exists e, error p = Some e) /\
  lookup "good" (Routes.ni_segmentAnalysis ni) = None /\
  lookup "fair" (Routes.ni_segmentAnalysis ni) = None /\
  lookup "poor" (Routes.ni_segmentAnalysis ni) = None /\
  Routes.coefficient (Routes.ni_correlation ni) = Fin 0 /\
  Routes.strength (Routes.ni_correlation ni) = "weak"%string /\
  Routes.ni_recommendations ni = [] /\
  (raw <> [] ->
   exists s,
     lookup "excellent" (Routes.ni_segmentAnalysis ni) = Some s /\
     Routes.seg_count s = length raw /\
     Routes.seg_percentage s = Fin 100 /\
     Routes.seg_stabilizationRate s = Fin 0).
Proof.
  cbv zeta. unfold UAVDataProcessor.processFlightData.
  cbn [UAVDataProcessor.pf_positionData].
  set (raw := position_data (UAVDataProcessor.up_data upload)).
  set (stored := map UAVDataProcessor.processPoint raw).
  destruct (stored_buckets raw) as (Be & Bg & Bf & Bp & Bs).
  fold stored in Be, Bg, Bf, Bp, Bs.
  destruct (segment_lookups stored) as (Le & Lg & Lf & Lp & _).
  cbv zeta in Le, Lg, Lf, Lp. rewrite Be in Le. rewrite Bg in Lg.
  rewrite Bf in Lf. rewrite Bp in Lp.
  assert (Hlen : length stored = length raw) by apply length_map.
  assert (Hcorr : Routes.calculateCorrelation
                    (map (fun p => Fin (Routes.quality p)) stored)
                    (map (fun p => of_option (error p)) stored) = Fin 0)
    by apply stored_correlation.
  assert (Hexc : raw <> [] ->
            lookup "excellent" (Routes.segmentAnalysis stored)
            = Some (Routes.segmentStats stored stored) /\
            Routes.seg_percentage (Routes.segmentStats stored stored)
            = Fin 100 /\
            Routes.seg_stabilizationRate (Routes.segmentStats stored stored)
            = Fin 0).
  { intros Hne.
    assert (Hn : (0 < length stored)%nat).
    { rewrite Hlen. destruct raw; [contradiction|simpl; lia]. }
    assert (Hnz : INR (length stored) <> 0) by (apply not_0_INR; lia).
    split.
    { rewrite Le. unfold nonempty. apply Nat.ltb_lt in Hn. rewrite Hn.
      reflexivity. }
    unfold Routes.segmentStats.
    cbn [Routes.seg_percentage Routes.seg_stabilizationRate].
    rewrite !(percentage_value _ _ Hn). unfold count. rewrite Bs.
    cbn [length INR]. unfold toFixed. split; f_equal.
    - replace (INR (length stored) / INR (length stored) * 100)
        with (IZR 100) by (field; exact Hnz).
      apply toFixedR_IZR. lia.
    - replace (0 / INR (length stored) * 100) with 0 by (field; exact Hnz).
      apply toFixedR_0. }
  split; [exact Hlen|].
  split.
  { unfold stored. rewrite map_map. reflexivity. }
  split.
  { intros p Hp. apply in_map_iff in Hp. destruct Hp as (q & <- & _).
    repeat split. eexists. reflexivity. }
  unfold Routes.analyzeNetworkImpact.
  cbn [Routes.ni_segmentAnalysis Routes.ni_correlation
         Routes.ni_recommendations Routes.coefficient Routes.strength].
  rewrite Hcorr.
  split; [exact Lg|]. split; [exact Lf|]. split; [exact Lp|].
  split.
  { unfold toFixed. rewrite toFixedR_0. reflexivity. }
  assert (Habs : forall c, 0 < c -> (JSNum.abs (Fin 0) >? Fin c)%num = false).
  { intros c Hc. unfold gtb, ltb. cbn [JSNum.abs]. rewrite Rabs_R0.
    apply Rltb_ge. lra. }
  split.
  { rewrite !Habs by lra. reflexivity. }
  split.
  { unfold Routes.generateNetworkRecommendations. rewrite Lp.
    assert (H5 : (Fin 0 <? Fin (-0.5))%num = false)
      by (unfold ltb; apply Rltb_ge; lra).
    rewrite H5.
    destruct raw as [|r0 raw'] eqn:Eraw.
    - rewrite Le. reflexivity.
    - destruct Hexc as (He & Hp & _); [discriminate|].
      rewrite He, Hp.
      assert (H50 : (Fin 100 <? Fin 50)%num = false)
        by (unfold ltb; apply Rltb_ge; lra).
      rewrite H50. reflexivity. }
  intros Hne. destruct (Hexc Hne) as (He & Hp & Hs).
  exists (Routes.segmentStats stored stored).
  split; [exact He|]. split; [exact Hlen|]. split; assumption.
Qed.

(** X9 at an upload whose only sample was taken at a network quality of 30
    while stabilized. *)
Lemma stored_flight_network_impact_witness :
  exists s,
    lookup "excellent"
      (Routes.ni_segmentAnalysis
         (Routes.analyzeNetworkImpact
            (UAVDataProcessor.pf_positionData
               (UAVDataProcessor.processFlightData
                  Examples.poor_network_upload None)))) = Some s /\
    Routes.seg_count s = 1%nat /\
    Routes.seg_percentage s = Fin 100 /\
    Routes.seg_stabilizationRate s = Fin 0.
Proof.
  apply (stored_flight_network_impact Examples.poor_network_upload None).
  discriminate.
Defined.

Lemma consecutive_sum_map {A B : Type} (f : A -> B)
    (distA : A -> A -> R) (distB : B -> B -> R) :
  (forall a b, distB (f a) (f b) = distA a b) ->
  forall l, Spec.consecutive_sum distB (map f l) = Spec.consecutive_sum distA l.
Proof.
  intros H. induction l as [|a l IH]; [reflexivity|].
  destruct l as [|b l]; [reflexivity|].
  cbn [map Spec.consecutive_sum] in *. rewrite IH, H. reflexivity.
Qed.

Lemma stored_defined_errors (raw : list Sample) :
  UAVDataProcessor.defined_errors (map UAVDataProcessor.processPoint raw)
  = map (fun p => or_default (error p) 0) raw.
Proof.
  induction raw as [|p l IH]; [reflexivity|].
  cbn [map UAVDataProcessor.defined_errors flat_map].
  fold (UAVDataProcessor.defined_errors (map UAVDataProcessor.processPoint l)).
  rewrite IH. reflexivity.
Qed.

Lemma or_default_idempotent (o : option R) :
  or_default (Some (or_default o 0)) 0 = or_default o 0.
Proof.
  unfold or_default at 1. destruct (Reqb (or_default o 0) 0) eqn:E;
    [|reflexivity].
  apply Reqb_eq in E. congruence.
Qed.

Lemma path_accuracy_average (positions : list Sample) :
  TrajectoryAnalyzer.averageError
    (TrajectoryAnalyzer.calculatePathAccuracy positions)
  = Spec.mean (UAVDataProcessor.defined_errors positions) /\
  TrajectoryAnalyzer.pa_totalPoints
    (TrajectoryAnalyzer.calculatePathAccuracy positions)
  = length (UAVDataProcessor.defined_errors positions).
Proof.
  unfold TrajectoryAnalyzer.calculatePathAccuracy.
  destruct (accuracy_fold_fields positions
              (TrajectoryAnalyzer.mkAccuracyAcc [] [] [] 0 0))
    as (H1 & H2 & _).
  cbn [TrajectoryAnalyzer.acc_errors TrajectoryAnalyzer.acc_totalDeviation
         app] in H1, H2.
  cbn [TrajectoryAnalyzer.pa_totalPoints TrajectoryAnalyzer.averageError].
  rewrite H1, H2. split; [|reflexivity].
  unfold Spec.mean.
  destruct (UAVDataProcessor.defined_errors positions);
    cbn [nonempty length Nat.ltb Nat.leb].
  - unfold Spec.total. simpl. unfold Rdiv. rewrite Rmult_0_l. reflexivity.
  - rewrite Rplus_0_l. reflexivity.
Qed.

(** X10.  Analysing the stored points of an upload again gives the actual
    distance, the error variance and the stability score of the uploaded
    points, but never a stabilized point: the stabilization ratio is 0
    whatever the upload said.  The path accuracy then counts every point,
    and its average error is the overall average of the basic analysis that
    is stored with the flight. *)
Theorem stored_flight_reanalysis
    (upload : UAVDataProcessor.Upload) (flightName : option string) :
  let raw := position_data (UAVDataProcessor.up_data upload) in
  let processed := UAVDataProcessor.processFlightData upload flightName in
  let stored := UAVDataProcessor.pf_positionData processed in
  let m := TrajectoryAnalyzer.calculateStabilityMetrics stored in
  let m0 := TrajectoryAnalyzer.calculateStabilityMetrics raw in
  let pa := TrajectoryAnalyzer.calculatePathAccuracy stored in
  TrajectoryAnalyzer.calculateActualDistance stored
  = TrajectoryAnalyzer.calculateActualDistance raw /\
  TrajectoryAnalyzer.errorVariance m = TrajectoryAnalyzer.errorVariance m0 /\
  TrajectoryAnalyzer.overallStabilityScore m
  = TrajectoryAnalyzer.overallStabilityScore m0 /\
  TrajectoryAnalyzer.stabilizedPoints m = 0%nat /\
  TrajectoryAnalyzer.unstabilizedPoints m = length raw /\
  TrajectoryAnalyzer.stabilizationRatio m = 0 /\
  TrajectoryAnalyzer.pa_totalPoints pa = length raw /\
  (raw <> [] ->
   TrajectoryAnalyzer.averageError pa
   = UAVDataProcessor.average
       (UAVDataProcessor.pa_overall
          (UAVDataProcessor.ba_positionAccuracy
             (UAVDataProcessor.pf_analysis processed)))).
Proof.
  cbv zeta. unfold UAVDataProcessor.processFlightData.
  cbn [UAVDataProcessor.pf_positionData UAVDataProcessor.pf_analysis].
  set (raw := position_data (UAVDataProcessor.up_data upload)).
  set (stored := map UAVDataProcessor.processPoint raw).
  destruct (stored_buckets raw) as (_ & _ & _ & _ & Bs). fold stored in Bs.
  assert (Hlen : length stored = length raw) by apply length_map.
  assert (Herr : map (fun p => or_default (error p) 0) stored
                 = map (fun p => or_default (error p) 0) raw).
  { unfold stored. rewrite map_map. apply map_ext. intros p.
    apply or_default_idempotent. }
  split.
  { unfold TrajectoryAnalyzer.calculateActualDistance.
    rewrite !path_length_consecutive. apply consecutive_sum_map.
    reflexivity. }
  unfold TrajectoryAnalyzer.calculateStabilityMetrics.
  cbn [TrajectoryAnalyzer.errorVariance TrajectoryAnalyzer.overallStabilityScore
         TrajectoryAnalyzer.stabilizedPoints TrajectoryAnalyzer.unstabilizedPoints
         TrajectoryAnalyzer.stabilizationRatio].
  rewrite Herr. unfold count at 1 2 3. rewrite Bs. cbn [length INR].
  split; [reflexivity|]. split; [reflexivity|]. split; [reflexivity|].
  split; [lia|].
  split.
  { destruct (nonempty stored); [|reflexivity]. unfold Rdiv. apply Rmult_0_l. }
  unfold stored in *. clear stored.
  destruct (path_accuracy_average (map UAVDataProcessor.processPoint raw))
    as (Havg & Hcnt).
  rewrite stored_defined_errors in Havg, Hcnt.
  split.
  { rewrite Hcnt. apply length_map. }
  intros Hne. rewrite Havg.
  unfold UAVDataProcessor.calculateBasicAnalysis.
  cbn [UAVDataProcessor.ba_positionAccuracy UAVDataProcessor.pa_overall].
  rewrite stored_defined_errors.
  symmetry. apply calculateStats_fields.
  destruct raw; [contradiction|discriminate].
Qed.

(** X10 at the upload of one stabilized sample. *)
Lemma stored_flight_reanalysis_witness :
  TrajectoryAnalyzer.averageError
    (TrajectoryAnalyzer.calculatePathAccuracy
       (UAVDataProcessor.pf_positionData
          (UAVDataProcessor.processFlightData
             Examples.poor_network_upload None)))
  = UAVDataProcessor.average
      (UAVDataProcessor.pa_overall
         (UAVDataProcessor.ba_positionAccuracy
            (UAVDataProcessor.pf_analysis
               (UAVDataProcessor.processFlightData
                  Examples.poor_network_upload None)))).
Proof.
  apply (stored_flight_reanalysis Examples.poor_network_upload None).
  discriminate.
Defined.

(** ** generate3DVisualizationData *)



Lemma mean_nonneg (l : list R) :
  (forall v, In v l -> 0 <= v) -> 0 <= Spec.mean l.
Proof.
  intros Hall. unfold Spec.mean.
  assert (Ht : 0 <= Spec.total l).
  { unfold Spec.total. induction l as [|a l IH]; simpl; [lra|].
    assert (0 <= a) by (apply Hall; left; reflexivity).
    assert (0 <= fold_right Rplus 0 l)
      by (apply IH; intros v Hv; apply Hall; right; exact Hv).
    lra. }
  destruct l as [|a l].
  - unfold Rdiv. simpl. rewrite Rmult_0_l. lra.
  - apply Rmult_le_pos; [exact Ht|].
    apply Rlt_le, Rinv_0_lt_compat, lt_0_INR. simpl. lia.
Qed.




(** ** generateSimpleAnalysisResult *)



(** ** generateComparativeInsights *)

Section FirstBest.

Variables (A : Type) (g : A -> R) (better : A -> A -> bool).


End FirstBest.





(** ** groupFlightsByPeriod and generatePerformanceTrends *)

Lemma group_push_keys (k : string) (f : Routes.Flight)
    (g : list (string * list Routes.Flight)) :
  (In k (map fst g) /\ map fst (Routes.group_push k f g) = map fst g) \/
  (~ In k (map fst g) /\ map fst (Routes.group_push k f g) = map fst g ++ [k]).
Proof.
  induction g as [|[k' fs] g IH]; [right; split; [intros []|reflexivity]|].
  cbn [Routes.group_push map fst].
  destruct (String.eqb k' k) eqn:E.
  - apply String.eqb_eq in E. left. split; [left; exact E|reflexivity].
  - apply String.eqb_neq in E. cbn [map fst].
    destruct IH as [[Hin Hk]|[Hnin Hk]].
    + left. split; [right; exact Hin|]. rewrite Hk. reflexivity.
    + right. split; [|rewrite Hk; reflexivity].
      intros [H|H]; [exact (E H)|exact (Hnin H)].
Qed.

Lemma group_push_total (k : string) (f : Routes.Flight)
    (g : list (string * list Routes.Flight)) :
  list_sum (map (fun e => length (snd e)) (Routes.group_push k f g))
  = S (list_sum (map (fun e => length (snd e)) g)).
Proof.
  induction g as [|[k' fs] g IH]; [reflexivity|].
  cbn [Routes.group_push]. destruct (String.eqb k' k).
  - cbn [map list_sum fold_right snd]. rewrite length_app. simpl. lia.
  - unfold list_sum in *. cbn [map fold_right snd]. rewrite IH. lia.
Qed.

Lemma group_push_members (k : string) (f : Routes.Flight)
    (g : list (string * list Routes.Flight)) (k' : string)
    (fs' : list Routes.Flight) :
  In (k', fs') (Routes.group_push k f g) ->
  In (k', fs') g \/
  (k' = k /\ (fs' = [f] \/ exists fs, In (k, fs) g /\ fs' = fs ++ [f])).
Proof.
  induction g as [|[k0 fs0] g IH]; cbn [Routes.group_push].
  - intros [H|[]]. injection H as <- <-. right. split; [reflexivity|].
    left. reflexivity.
  - destruct (String.eqb k0 k) eqn:E.
    + apply String.eqb_eq in E. subst k0. intros [H|H].
      * injection H as <- <-. right. split; [reflexivity|]. right.
        exists fs0. split; [left; reflexivity|reflexivity].
      * left. right. exact H.
    + intros [H|H]; [left; left; exact H|].
      destruct (IH H) as [Hin|[-> [->|(fs & Hfs & ->)]]].
      * left. right. exact Hin.
      * right. split; [reflexivity|]. left. reflexivity.
      * right. split; [reflexivity|]. right. exists fs.
        split; [right; exact Hfs|reflexivity].
Qed.

Lemma group_push_invariant (key : Routes.Flight -> string)
    (done : list Routes.Flight) (f : Routes.Flight)
    (g : list (string * list Routes.Flight)) :
  Spec.groups_of key done g ->
  Spec.groups_of key (done ++ [f]) (Routes.group_push (key f) f g).
Proof.
  intros (Hnd & Hsum & Hgroups & Hkeys).
  destruct (group_push_keys (key f) f g) as [[Hin Hk]|[Hnin Hk]].
  - repeat split.
    + rewrite Hk. exact Hnd.
    + rewrite group_push_total, Hsum, length_app. simpl. lia.
    + intros k fs H. apply group_push_members in H.
      destruct H as [H|[-> [->|(fs0 & H0 & ->)]]].
      * destruct (Hgroups k fs H) as (a & r & E & Ha & Hall).
        exists a, r. split; [exact E|]. split; [|exact Hall].
        apply in_or_app. left. exact Ha.
      * exists f, []. split; [reflexivity|]. split.
        -- apply in_or_app. right. left. reflexivity.
        -- intros x [<-|[]]. reflexivity.
      * destruct (Hgroups _ fs0 H0) as (a & r & E & Ha & Hall).
        exists a, (r ++ [f]). split; [rewrite E; reflexivity|]. split.
        -- apply in_or_app. left. exact Ha.
        -- intros x Hx. apply in_app_or in Hx.
           destruct Hx as [Hx|[<-|[]]]; [apply Hall, Hx|reflexivity].
    + intros x Hx. rewrite Hk. apply in_app_or in Hx.
      destruct Hx as [Hx|[<-|[]]]; [apply Hkeys, Hx|exact Hin].
  - repeat split.
    + rewrite Hk. apply NoDup_app; [exact Hnd|repeat constructor; intros []|].
      intros a Ha [<-|[]]. exact (Hnin Ha).
    + rewrite group_push_total, Hsum, length_app. simpl. lia.
    + intros k fs H. apply group_push_members in H.
      destruct H as [H|[-> [->|(fs0 & H0 & ->)]]].
      * destruct (Hgroups k fs H) as (a & r & E & Ha & Hall).
        exists a, r. split; [exact E|]. split; [|exact Hall].
        apply in_or_app. left. exact Ha.
      * exists f, []. split; [reflexivity|]. split.
        -- apply in_or_app. right. left. reflexivity.
        -- intros x [<-|[]]. reflexivity.
      * exfalso. apply Hnin. apply (in_map fst) in H0. exact H0.
    + intros x Hx. rewrite Hk. apply in_or_app. apply in_app_or in Hx.
      destruct Hx as [Hx|[<-|[]]]; [left; apply Hkeys, Hx|].
      right. left. reflexivity.
Qed.

Lemma groupFlightsByPeriod_groups (periodKey : string -> R -> string)
    (period : string) (flights : list Routes.Flight) :
  Spec.groups_of (fun f => periodKey period (Routes.createdAt f)) flights
    (Routes.groupFlightsByPeriod periodKey flights period).
Proof.
  unfold Routes.groupFlightsByPeriod.
  induction flights as [|f l IH] using rev_ind.
  - repeat split; try constructor; intros; contradiction.
  - rewrite fold_left_app. cbn [fold_left].
    apply (group_push_invariant
             (fun f => periodKey period (Routes.createdAt f))), IH.
Qed.

Lemma insert_by_date_perm (t : Routes.PeriodTrend) (l : list Routes.PeriodTrend) :
  Permutation (Routes.insert_by_date t l) (t :: l).
Proof.
  induction l as [|h l IH]; simpl; [reflexivity|].
  destruct (Rltb 0 (Routes.pt_date t - Routes.pt_date h)); [|reflexivity].
  rewrite IH. apply perm_swap.
Qed.

Lemma sort_by_date_perm (l : list Routes.PeriodTrend) :
  Permutation (Routes.sort_by_date l) l.
Proof.
  induction l as [|t l IH]; simpl; [reflexivity|].
  rewrite insert_by_date_perm. constructor. exact IH.
Qed.

Lemma insert_by_date_sorted (t : Routes.PeriodTrend)
    (l : list Routes.PeriodTrend) :
  Sorted (fun a b => Routes.pt_date a <= Routes.pt_date b) l ->
  Sorted (fun a b => Routes.pt_date a <= Routes.pt_date b)
    (Routes.insert_by_date t l).
Proof.
  induction l as [|h l IH]; intros Hs; simpl.
  - repeat constructor.
  - apply Sorted_inv in Hs. destruct Hs as [Hl Hh].
    destruct (Rltb 0 (Routes.pt_date t - Routes.pt_date h)) eqn:E.
    + apply Rltb_lt in E. constructor; [apply IH, Hl|].
      destruct l as [|h' l']; simpl.
      * constructor. lra.
      * inversion Hh; subst.
        destruct (Rltb 0 (Routes.pt_date t - Routes.pt_date h'));
          constructor; [assumption|lra].
    + apply Rltb_ge in E. constructor; [constructor; assumption|].
      constructor. lra.
Qed.

Lemma sort_by_date_sorted (l : list Routes.PeriodTrend) :
  Sorted (fun a b => Routes.pt_date a <= Routes.pt_date b)
    (Routes.sort_by_date l).
Proof.
  induction l as [|t l IH]; simpl; [constructor|].
  apply insert_by_date_sorted, IH.
Qed.

Lemma list_sum_perm (l l' : list nat) :
  Permutation l l' -> list_sum l = list_sum l'.
Proof.
  induction 1; simpl; try lia.
Qed.

Lemma period_average_finite (m : Routes.Flight -> R)
    (first : Routes.Flight) (rest : list Routes.Flight) :
  is_finite (Routes.period_average m (first :: rest)) = true.
Proof.
  unfold Routes.period_average, of_nat, div.
  destruct (Req_dec_T (INR (length (first :: rest))) 0) as [E|_];
    [|reflexivity].
  exfalso. revert E. apply not_0_INR. discriminate.
Qed.

Lemma metric_value_finite (metric : string)
    (first : Routes.Flight) (rest : list Routes.Flight) :
  is_finite (Routes.metric_value metric (first :: rest)) = true.
Proof.
  unfold Routes.metric_value.
  destruct (String.eqb metric "accuracy"); [apply period_average_finite|].
  destruct (String.eqb metric "stability"); [apply period_average_finite|].
  destruct (String.eqb metric "response_time");
    [apply period_average_finite|reflexivity].
Qed.

(** X17.  [generatePerformanceTrends] partitions the flights by period key:
    the periods of its entries are distinct, every flight has its period
    among them, the flight counts are positive and add up to the number of
    flights, every value is a finite number (0 for an unknown metric), the
    date of an entry is the creation date of a flight of its period, and the
    entries are ordered by date. *)
Theorem performance_trends_partition
    (periodKey : string -> R -> string)
    (flights : list Routes.Flight) (metric period : string) :
  let trends :=
    Routes.generatePerformanceTrends periodKey flights metric period in
  list_sum (map Routes.pt_flightCount trends) = length flights /\
  NoDup (map Routes.pt_period trends) /\
  Sorted (fun a b => Routes.pt_date a <= Routes.pt_date b) trends /\
  (forall t, In t trends ->
     (1 <= Routes.pt_flightCount t)%nat /\
     is_finite (Routes.pt_value t) = true /\
     exists f, In f flights /\
               Routes.pt_period t = periodKey period (Routes.createdAt f) /\
               Routes.pt_date t = Routes.createdAt f) /\
  (forall f, In f flights ->
     exists t, In t trends /\
               Routes.pt_period t = periodKey period (Routes.createdAt f)) /\
  (String.eqb metric "accuracy" = false ->
   String.eqb metric "stability" = false ->
   String.eqb metric "response_time" = false ->
   forall t, In t trends -> Routes.pt_value t = Fin 0).
Proof.
  cbv zeta. unfold Routes.generatePerformanceTrends.
  destruct (groupFlightsByPeriod_groups periodKey period flights)
    as (Hnd & Hsum & Hgroups & Hkeys).
  set (grouped := Routes.groupFlightsByPeriod periodKey flights period) in *.
  set (entry := fun e : string * list Routes.Flight =>
                  let '(periodKey, periodFlights) := e in
                  Routes.mkPeriodTrend periodKey
                    (Routes.metric_value metric periodFlights)
                    (length periodFlights)
                    (Routes.first_date periodFlights)).
  pose proof (sort_by_date_perm (map entry grouped)) as Hperm.
  assert (Hin : forall t, In t (Routes.sort_by_date (map entry grouped)) ->
                  exists k fs, In (k, fs) grouped /\ t = entry (k, fs)).
  { intros t Ht. apply (Permutation_in _ Hperm) in Ht.
    apply in_map_iff in Ht. destruct Ht as ([k fs] & <- & H).
    exists k, fs. split; [exact H|reflexivity]. }
  split.
  { rewrite (list_sum_perm _ _ (Permutation_map Routes.pt_flightCount Hperm)).
    rewrite map_map, <- Hsum. f_equal. apply map_ext. intros [k fs].
    reflexivity. }
  split.
  { apply (Permutation_NoDup
             (Permutation_sym (Permutation_map Routes.pt_period Hperm))).
    rewrite map_map.
    replace (map (fun e => Routes.pt_period (entry e)) grouped)
      with (map fst grouped); [exact Hnd|].
    apply map_ext. intros [k fs]. reflexivity. }
  split; [apply sort_by_date_sorted|].
  split.
  { intros t Ht. destruct (Hin t Ht) as (k & fs & Hk & ->).
    destruct (Hgroups k fs Hk) as (first & rest & -> & Hfirst & Hall).
    cbn [entry Routes.pt_flightCount Routes.pt_value Routes.pt_period
           Routes.pt_date Routes.first_date length].
    split; [lia|]. split; [apply metric_value_finite|].
    exists first. split; [exact Hfirst|]. split; [|reflexivity].
    symmetry. apply Hall. left. reflexivity. }
  split.
  { intros f Hf. specialize (Hkeys f Hf). apply in_map_iff in Hkeys.
    destruct Hkeys as ([k fs] & Hk & Hin').
    exists (entry (k, fs)). split.
    - apply (Permutation_in _ (Permutation_sym Hperm)), in_map, Hin'.
    - exact Hk. }
  intros Ha Hs Hr t Ht. destruct (Hin t Ht) as (k & fs & _ & ->).
  cbn [entry Routes.pt_value]. unfold Routes.metric_value.
  rewrite Ha, Hs, Hr. reflexivity.
Qed.

(** X17 at one flight and a metric the code does not know. *)
Lemma performance_trends_partition_witness :
  Routes.pt_value (Routes.mkPeriodTrend "2025-05-13" (Fin 0) 1 0) = Fin 0.
Proof.
  apply (performance_trends_partition (fun _ _ => "2025-05-13"%string)
           [Examples.flight_with 0.1 None] "speed" "daily");
    try reflexivity.
  left. reflexivity.
Defined.

(** ** validateFlightData *)

Lemma check_point_ok (point : list (string * Validation.json))
    (fields : list string) :
  Validation.check_point (Validation.JObject point) fields = Ok None
  <-> forall f, In f fields -> lookup f point <> None.
Proof.
  induction fields as [|f fields IH]; cbn [Validation.check_point].
  - split; [intros _ f []|reflexivity].
  - cbn [Validation.read bind]. destruct (lookup f point) as [v|] eqn:E.
    + rewrite IH. split.
      * intros H g [<-|Hg]; [rewrite E; discriminate|apply H, Hg].
      * intros H g Hg. apply H. right. exact Hg.
    + split; [discriminate|]. intros H. exfalso.
      apply (H f); [left; reflexivity|exact E].
Qed.

Lemma check_point_not_object (first : Validation.json) (fields : list string) :
  fields <> [] ->
  (forall point, first <> Validation.JObject point) ->
  Validation.check_point first fields <> Ok None.
Proof.
  intros Hne Hno. destruct fields as [|f fields]; [contradiction|].
  cbn [Validation.check_point].
  destruct first; cbn [Validation.read bind]; try discriminate.
  exfalso. apply (Hno props). reflexivity.
Qed.

(** X18.  [validateFlightData] accepts a document exactly when it is an
    object with a truthy [timestamp] and a [position_data] array whose FIRST
    element is an object that has the properties [x], [y], [z] and [time];
    the other elements of the array are not inspected.  A document without
    [timestamp] or without [position_data] is rejected for the missing
    required field, and [null] for its format. *)
Theorem validation_characterisation (data : Validation.json) :
  (Validation.validateFlightData data = Validation.Valid
   <-> exists props ts point rest,
         data = Validation.JObject props /\
         lookup "timestamp" props = Some ts /\
         Validation.truthy (Some ts) = true /\
         lookup "position_data" props
         = Some (Validation.JArray (Validation.JObject point :: rest)) /\
         forall f, In f ["x"; "y"; "z"; "time"]%string ->
                   lookup f point <> None) /\
  (forall props, data = Validation.JObject props ->
     lookup "timestamp" props = None ->
     Validation.validateFlightData data
     = Validation.Invalid (Validation.MissingRequiredField "timestamp")) /\
  (forall props ts, data = Validation.JObject props ->
     lookup "timestamp" props = Some ts ->
     Validation.truthy (Some ts) = true ->
     lookup "position_data" props = None ->
     Validation.validateFlightData data
     = Validation.Invalid (Validation.MissingRequiredField "position_data")) /\
  (data = Validation.JNull ->
   Validation.validateFlightData data
   = Validation.Invalid Validation.DataFormatError).
Proof.
  split; [|split; [|split]].
  - split.
    + unfold Validation.validateFlightData, Validation.validate_body.
      destruct data as [| | | | |props];
        cbn [Validation.check_required Validation.read bind
               Validation.truthy]; try discriminate.
      destruct (lookup "timestamp" props) as [ts|] eqn:Ets;
        [|cbn [Validation.truthy]; discriminate].
      destruct (Validation.truthy (Some ts)) eqn:Tts; [|discriminate].
      destruct (lookup "position_data" props) as [pd|] eqn:Epd;
        [|cbn [Validation.truthy]; discriminate].
      destruct (Validation.truthy (Some pd)) eqn:Tpd; [|discriminate].
      cbn [bind].
      destruct pd as [| | | |items|]; try discriminate.
      destruct items as [|first rest]; [discriminate|].
      destruct (Validation.check_point first ["x"; "y"; "z"; "time"]%string)
        as [[answer|]|e] eqn:Ecp; cbn [bind].
      * intros H. exfalso.
        clear - Ecp H. subst answer.
        destruct first; cbn [Validation.check_point Validation.read bind] in Ecp;
          try discriminate.
        repeat (match type of Ecp with
                | context [lookup ?f ?p] => destruct (lookup f p)
                end; try discriminate).
      * intros _.
        destruct first as [| | | | |point];
          try (exfalso;
               apply (check_point_not_object _ ["x"; "y"; "z"; "time"]%string)
                 in Ecp; [exact Ecp|discriminate|discriminate]).
        exists props, ts, point, rest.
        repeat split; try assumption. apply check_point_ok, Ecp.
      * discriminate.
    + intros (props & ts & point & rest & -> & Ets & Tts & Epd & Hall).
      unfold Validation.validateFlightData, Validation.validate_body.
      cbn [Validation.check_required Validation.read bind].
      rewrite Ets, Tts, Epd. cbn [Validation.truthy bind].
      apply check_point_ok in Hall. rewrite Hall. reflexivity.
  - intros props -> Ets.
    unfold Validation.validateFlightData, Validation.validate_body.
    cbn [Validation.check_required Validation.read bind].
    rewrite Ets. reflexivity.
  - intros props ts -> Ets Tts Epd.
    unfold Validation.validateFlightData, Validation.validate_body.
    cbn [Validation.check_required Validation.read bind].
    rewrite Ets, Tts, Epd. reflexivity.
  - intros ->. reflexivity.
Qed.

(** X18 at the document of the unit test with a [null] second point. *)
Lemma validation_characterisation_witness :
  Validation.validateFlightData Examples.document = Validation.Valid.
Proof.
  apply (validation_characterisation Examples.document).
  exists [("timestamp", Validation.JString "20250514_104755");
          ("position_data",
           Validation.JArray
             [Validation.JObject Examples.first_point; Validation.JNull])
         ]%string,
    (Validation.JString "20250514_104755"), Examples.first_point,
    [Validation.JNull].
  repeat split.
  intros f [<-|[<-|[<-|[<-|[]]]]]; discriminate.
Defined.

(** ** extractSequenceInfo *)

Lemma set_add_in (s : list nat) (j i : nat) :
  In i (TrajectoryAnalyzer.set_add s j) <-> In i s \/ i = j.
Proof.
  unfold TrajectoryAnalyzer.set_add.
  destruct (existsb (Nat.eqb j) s) eqn:E.
  - split; [intros H; left; exact H|]. intros [H| ->]; [exact H|].
    apply existsb_exists in E. destruct E as (k & Hk & Ek).
    apply Nat.eqb_eq in Ek. subst k. exact Hk.
  - rewrite in_app_iff. split.
    + intros [H|[<-|[]]]; [left; exact H|right; reflexivity].
    + intros [H| ->]; [left; exact H|right; left; reflexivity].
Qed.

Lemma set_add_nodup (s : list nat) (j : nat) :
  NoDup s -> NoDup (TrajectoryAnalyzer.set_add s j).
Proof.
  intros Hs. unfold TrajectoryAnalyzer.set_add.
  destruct (existsb (Nat.eqb j) s) eqn:E; [exact Hs|].
  apply NoDup_app; [exact Hs|repeat constructor; intros []|].
  intros a Ha [<-|[]].
  assert (H : existsb (Nat.eqb j) s = true).
  { apply existsb_exists. exists j. split; [exact Ha|apply Nat.eqb_refl]. }
  congruence.
Qed.

Lemma collect_indices (positions : list Sample) :
  forall s,
    NoDup s ->
    let s' :=
      fold_left
        (fun s pos =>
           match sequence_index pos with
           | Some i => TrajectoryAnalyzer.set_add s i
           | None => s
           end) positions s in
    NoDup s' /\
    forall i, In i s' <->
              In i s \/ exists p, In p positions /\ sequence_index p = Some i.
Proof.
  induction positions as [|pos l IH]; intros s Hs; cbv zeta.
  - cbn [fold_left]. split; [exact Hs|]. intros i. split.
    + intros H. left. exact H.
    + intros [H|(p & [] & _)]. exact H.
  - cbn [fold_left]. destruct (sequence_index pos) as [j|] eqn:E.
    + destruct (IH (TrajectoryAnalyzer.set_add s j) (set_add_nodup s j Hs))
        as [N M]. cbv zeta in N, M. split; [exact N|].
      intros i. rewrite M, set_add_in. split.
      * intros [[H| ->]|(p & Hp & Ep)].
        -- left. exact H.
        -- right. exists pos. split; [left; reflexivity|exact E].
        -- right. exists p. split; [right; exact Hp|exact Ep].
      * intros [H|(p & [<-|Hp] & Ep)].
        -- left. left. exact H.
        -- left. right. congruence.
        -- right. exists p. split; assumption.
    + destruct (IH s Hs) as [N M]. cbv zeta in N, M. split; [exact N|].
      intros i. rewrite M. split.
      * intros [H|(p & Hp & Ep)]; [left; exact H|].
        right. exists p. split; [right; exact Hp|exact Ep].
      * intros [H|(p & [<-|Hp] & Ep)]; [left; exact H|congruence|].
        right. exists p. split; assumption.
Qed.

Lemma insert_by_string_perm (i : nat) (l : list nat) :
  Permutation (TrajectoryAnalyzer.insert_by_string i l) (i :: l).
Proof.
  induction l as [|h l IH]; simpl; [reflexivity|].
  destruct (String.ltb _ _); [rewrite IH; apply perm_swap|].
  destruct (String.eqb _ _); [rewrite IH; apply perm_swap|reflexivity].
Qed.

Lemma default_sort_perm (l : list nat) :
  Permutation (TrajectoryAnalyzer.default_sort l) l.
Proof.
  unfold TrajectoryAnalyzer.default_sort.
  assert (H : forall acc,
             Permutation
               (fold_left (fun sorted i =>
                             TrajectoryAnalyzer.insert_by_string i sorted)
                  l acc) (acc ++ l)).
  { induction l as [|i l IH]; intros acc; cbn [fold_left].
    - rewrite app_nil_r. reflexivity.
    - rewrite IH, insert_by_string_perm.
      change (i :: acc) with ([i] ++ acc).
      rewrite <- (Permutation_middle acc l i). reflexivity. }
  apply (H []).
Qed.

Lemma ltb_irreflexive (s : string) : String.ltb s s = false.
Proof.
  unfold String.ltb.
  pose proof (String.compare_antisym s s) as A.
  destruct (String.compare s s); try reflexivity.
  simpl in A. discriminate.
Qed.

Lemma ltb_asymmetric (s t : string) :
  String.ltb s t = true -> String.ltb t s = false.
Proof.
  unfold String.ltb. rewrite (String.compare_antisym t s).
  destruct (String.compare s t); simpl; intros; try discriminate; reflexivity.
Qed.

Lemma insert_by_string_sorted (i : nat) (l : list nat) :
  Sorted (fun a b => String.ltb (TrajectoryAnalyzer.decimal b)
                       (TrajectoryAnalyzer.decimal a) = false) l ->
  Sorted (fun a b => String.ltb (TrajectoryAnalyzer.decimal b)
                       (TrajectoryAnalyzer.decimal a) = false)
    (TrajectoryAnalyzer.insert_by_string i l).
Proof.
  induction l as [|h l IH]; intros Hs; [repeat constructor|].
  apply Sorted_inv in Hs. destruct Hs as [Hl Hh].
  cbn [TrajectoryAnalyzer.insert_by_string].
  assert (Hhd : String.ltb (TrajectoryAnalyzer.decimal i)
                  (TrajectoryAnalyzer.decimal h) = false ->
                HdRel (fun a b => String.ltb (TrajectoryAnalyzer.decimal b)
                                    (TrajectoryAnalyzer.decimal a) = false)
                  h (TrajectoryAnalyzer.insert_by_string i l)).
  { intros Hih. destruct l as [|h' l']; [constructor; exact Hih|].
    cbn [TrajectoryAnalyzer.insert_by_string]. inversion Hh; subst.
    destruct (String.ltb (TrajectoryAnalyzer.decimal h')
                (TrajectoryAnalyzer.decimal i)); [constructor; assumption|].
    destruct (String.eqb (TrajectoryAnalyzer.decimal h')
                (TrajectoryAnalyzer.decimal i)); constructor; assumption. }
  destruct (String.ltb (TrajectoryAnalyzer.decimal h)
              (TrajectoryAnalyzer.decimal i)) eqn:E1.
  - constructor; [apply IH, Hl|]. apply Hhd, ltb_asymmetric, E1.
  - destruct (String.eqb (TrajectoryAnalyzer.decimal h)
                (TrajectoryAnalyzer.decimal i)) eqn:E2.
    + constructor; [apply IH, Hl|]. apply Hhd.
      apply String.eqb_eq in E2. rewrite E2. apply ltb_irreflexive.
    + constructor; [constructor; assumption|]. constructor. exact E1.
Qed.

Lemma default_sort_sorted (l : list nat) :
  Sorted (fun a b => String.ltb (TrajectoryAnalyzer.decimal b)
                       (TrajectoryAnalyzer.decimal a) = false)
    (TrajectoryAnalyzer.default_sort l).
Proof.
  unfold TrajectoryAnalyzer.default_sort.
  assert (H : forall acc,
             Sorted (fun a b => String.ltb (TrajectoryAnalyzer.decimal b)
                                  (TrajectoryAnalyzer.decimal a) = false) acc ->
             Sorted (fun a b => String.ltb (TrajectoryAnalyzer.decimal b)
                                  (TrajectoryAnalyzer.decimal a) = false)
               (fold_left (fun sorted i =>
                             TrajectoryAnalyzer.insert_by_string i sorted)
                  l acc)).
  { induction l as [|i l IH]; intros acc Hacc; cbn [fold_left];
      [exact Hacc|]. apply IH, insert_by_string_sorted, Hacc. }
  apply H. constructor.
Qed.

(** X19.  [extractSequenceInfo] returns each sequence index carried by a
    sample exactly once, and orders the indices as decimal strings: no index
    is followed by one whose decimal writing is smaller as a string (so 10
    comes before 2). *)
Theorem sequence_info_properties (positions : list Sample) :
  let s := TrajectoryAnalyzer.extractSequenceInfo positions in
  NoDup s /\
  (forall i, In i s
             <-> exists p, In p positions /\ sequence_index p = Some i) /\
  Sorted (fun a b => String.ltb (TrajectoryAnalyzer.decimal b)
                       (TrajectoryAnalyzer.decimal a) = false) s /\
  TrajectoryAnalyzer.default_sort [2; 10]%nat = [10; 2]%nat.
Proof.
  cbv zeta. unfold TrajectoryAnalyzer.extractSequenceInfo.
  destruct (collect_indices positions [] (NoDup_nil nat)) as [N M].
  cbv zeta in N, M.
  set (collected := fold_left _ positions []) in *.
  pose proof (default_sort_perm collected) as Hperm.
  split; [apply (Permutation_NoDup (Permutation_sym Hperm)), N|].
  split.
  { intros i. split.
    - intros H. apply (Permutation_in _ Hperm), M in H.
      destruct H as [[]|H]. exact H.
    - intros H. apply (Permutation_in _ (Permutation_sym Hperm)), M.
      right. exact H. }
  split; [apply default_sort_sorted|].
  reflexivity.
Qed.

(** X19 at a sample of sequence index 3. *)
Lemma sequence_info_properties_witness :
  In 3%nat
    (TrajectoryAnalyzer.extractSequenceInfo
       [mkSample 0 0 0 0 None None None "transit" false None (Some 3%nat)]).
Proof.
  apply (sequence_info_properties
           [mkSample 0 0 0 0 None None None "transit" false None (Some 3%nat)]).
  eexists. split; [left; reflexivity|reflexivity].
Defined.

(** ** generateTrajectoryReport *)

Lemma efficiency_ratio_finite
    (positions : list Sample) (sequence : option (list Waypoint)) :
  exists r,
    TrajectoryAnalyzer.efficiencyRatio
      (TrajectoryAnalyzer.calculateEfficiency positions sequence) = Fin r
    /\ 0 <= r <= 1.
Proof.
  unfold TrajectoryAnalyzer.calculateEfficiency.
  destruct sequence as [s|]; [|exists 0.85; split; [reflexivity|lra]].
  destruct (length s <? 2)%nat; [exists 0.85; split; [reflexivity|lra]|].
  cbn [TrajectoryAnalyzer.efficiencyRatio].
  rewrite (path_length_consecutive TrajectoryAnalyzer.waypoint_dist s).
  destruct (Rltb 0 (Spec.consecutive_sum TrajectoryAnalyzer.waypoint_dist s))
    eqn:Hpos.
  - apply Rltb_lt in Hpos.
    apply capped_ratio_range; [exact Hpos|apply actual_distance_nonneg].
  - exists 0.85. split; [apply min_one_fallback|lra].
Qed.

Lemma toFixedR_percent (d : nat) (a : R) :
  0 <= a <= 100 -> 0 <= toFixedR d a <= 100.
Proof.
  intros [H0 H1]. split; [apply toFixedR_nonneg, H0|].
  rewrite <- (toFixedR_IZR d 100) by lia.
  apply toFixedR_le; assumption.
Qed.

(** X20.  The trajectory report carries the analysis unchanged as its
    detail, and its summary rounds it: the average accuracy and the maximal
    error differ from the analysed values by at most 0.00005, the
    stabilization rate is the ratio in percent within 0.05, and both
    percentages of the summary are numbers of [[0, 100]]. *)
Theorem trajectory_report_rounding (flightData : FlightInput) :
  let r := TrajectoryAnalyzer.generateTrajectoryReport flightData in
  let a := TrajectoryAnalyzer.analyzeTrajectory flightData in
  let s := TrajectoryAnalyzer.summary r in
  TrajectoryAnalyzer.detailed r = a /\
  TrajectoryAnalyzer.rs_totalPoints s = length (position_data flightData) /\
  Rabs (TrajectoryAnalyzer.averageAccuracy s
        - TrajectoryAnalyzer.averageError (TrajectoryAnalyzer.pathAccuracy a))
  <= 0.00005 /\
  Rabs (TrajectoryAnalyzer.rs_maxError s
        - TrajectoryAnalyzer.maxError (TrajectoryAnalyzer.pathAccuracy a))
  <= 0.00005 /\
  Rabs (TrajectoryAnalyzer.rs_stabilizationRate s
        - TrajectoryAnalyzer.stabilizationRatio
            (TrajectoryAnalyzer.stabilityMetrics a) * 100)
  <= 0.05 /\
  0 <= TrajectoryAnalyzer.rs_stabilizationRate s <= 100 /\
  exists q, TrajectoryAnalyzer.rs_efficiencyRatio s = Fin q /\ 0 <= q <= 100.
Proof.
  cbv zeta. unfold TrajectoryAnalyzer.generateTrajectoryReport.
  cbn [TrajectoryAnalyzer.detailed TrajectoryAnalyzer.summary
         TrajectoryAnalyzer.rs_totalPoints TrajectoryAnalyzer.averageAccuracy
         TrajectoryAnalyzer.rs_maxError TrajectoryAnalyzer.rs_stabilizationRate
         TrajectoryAnalyzer.rs_efficiencyRatio].
  assert (E4 : / 2 / 10 ^ 4 = 0.00005) by (simpl; lra).
  assert (E1 : / 2 / 10 ^ 1 = 0.05) by (simpl; lra).
  split; [reflexivity|]. split; [reflexivity|].
  split; [rewrite <- E4; apply toFixedR_error|].
  split; [rewrite <- E4; apply toFixedR_error|].
  split; [rewrite <- E1; apply toFixedR_error|].
  split.
  { apply toFixedR_percent.
    unfold TrajectoryAnalyzer.analyzeTrajectory,
      TrajectoryAnalyzer.calculateStabilityMetrics.
    cbn [TrajectoryAnalyzer.stabilityMetrics
           TrajectoryAnalyzer.stabilizationRatio].
    pose proof (rate_range _ _
                  (count_le_length stabilized (position_data flightData))) as H.
    unfold nonempty. lra. }
  unfold TrajectoryAnalyzer.analyzeTrajectory.
  cbn [TrajectoryAnalyzer.trajectoryEfficiency].
  destruct (efficiency_ratio_finite (position_data flightData)
              (sequence flightData)) as (q & -> & Hq).
  exists (toFixedR 1 (q * 100)). split; [reflexivity|].
  apply toFixedR_percent. lra.
Qed.

(** ** generateNetworkRecommendations *)







(* ================================================================== *)
(** * Properties under rounding *)
(* ================================================================== *)

#[local] Arguments Float.round : simpl never.

Lemma u_value : Rounding.u = / 9007199254740992.
Proof.
  unfold Rounding.u. f_equal. rewrite (pow_IZR 2 53). f_equal.
Qed.

Lemma u_bounds : 0 < Rounding.u <= / 1000000000000000.
Proof. rewrite u_value. lra. Qed.

Lemma Rabs_bound (a b : R) : Rabs a <= b -> - b <= a <= b.
Proof.
  unfold Rabs. destruct (Rcase_abs a); lra.
Qed.

Section StandardModelFacts.

Variable rnd : R -> R.
Hypothesis model : Rounding.StandardModel rnd.

Lemma rnd_0 : rnd 0 = 0.
Proof. apply (Rounding.rnd_int rnd model 0). vm_compute. discriminate. Qed.

Lemma rnd_small_int (k : Z) :
  (Z.abs k <= 9007199254740992)%Z -> rnd (IZR k) = IZR k.
Proof. intros H. apply (Rounding.rnd_int rnd model). exact H. Qed.

Lemma rnd_nonneg (a : R) : 0 <= a -> 0 <= rnd a.
Proof.
  intros H. rewrite <- rnd_0. apply (Rounding.rnd_mono rnd model). exact H.
Qed.

Lemma rnd_nonpos (a : R) : a <= 0 -> rnd a <= 0.
Proof.
  intros H. rewrite <- rnd_0. apply (Rounding.rnd_mono rnd model). exact H.
Qed.

(** The relative error in the form used below: a factor between [1 - u] and
    [1 + u]. *)
Lemma rnd_between (a : R) :
  0 <= a -> a * (1 - Rounding.u) <= rnd a <= a * (1 + Rounding.u).
Proof.
  intros Ha. pose proof (Rounding.rnd_error rnd model a) as He.
  rewrite (Rabs_right a) in He by lra.
  apply Rabs_bound in He. lra.
Qed.

Lemma rnd_pos (a : R) : 0 < a -> 0 < rnd a.
Proof.
  intros Ha. pose proof (rnd_between a (Rlt_le _ _ Ha)) as [H _].
  pose proof u_bounds as [Hu1 Hu2].
  apply Rlt_le_trans with (a * (1 - Rounding.u)); [| exact H].
  apply Rmult_lt_0_compat; lra.
Qed.

(** With the numeric value of [u]: one part in [10^15] at most. *)
Lemma rnd_close (a : R) :
  0 <= a -> a * (1 - / 1000000000000000) <= rnd a <= a * (1 + / 1000000000000000).
Proof.
  intros Ha. pose proof (rnd_between a Ha) as [H1 H2].
  pose proof u_bounds as [Hu1 Hu2].
  assert (a * Rounding.u <= a * / 1000000000000000)
    by (apply Rmult_le_compat_l; lra).
  lra.
Qed.

End StandardModelFacts.

(** The identity is a rounding of the standard model. *)
Lemma exact_model : Rounding.StandardModel (fun r => r).
Proof.
  constructor.
  - intros a b H. exact H.
  - intros a. rewrite Rminus_diag, Rabs_R0.
    apply Rmult_le_pos; [apply Rlt_le, u_bounds | apply Rabs_pos].
  - reflexivity.
  - reflexivity.
Qed.

(** ** Sums and means of non-negative numbers *)

Lemma pow_up (t : R) (n : nat) :
  0 <= t -> 2 * INR n * t <= 1 -> (1 + t) ^ n <= 1 + 2 * INR n * t.
Proof.
  intros Ht. induction n as [|n IH]; intros Hn.
  - simpl. lra.
  - rewrite S_INR in *. pose proof (pos_INR n) as Hp.
    assert (Hn' : 2 * INR n * t <= 1) by nra.
    specialize (IH Hn'). simpl.
    assert (0 <= (1 + t) ^ n) by (apply pow_le; lra).
    apply Rle_trans with ((1 + t) * (1 + 2 * INR n * t)).
    + apply Rmult_le_compat_l; lra.
    + nra.
Qed.

Lemma pow_down (t : R) (n : nat) :
  0 <= t <= 1 -> 1 - INR n * t <= (1 - t) ^ n.
Proof.
  intros Ht. induction n as [|n IH].
  - simpl. lra.
  - rewrite S_INR. pose proof (pos_INR n) as Hp. simpl.
    assert (0 <= (1 - t) ^ n) by (apply pow_le; lra).
    destruct (Rle_dec (1 - INR n * t) 0) as [Hs|Hs].
    + apply Rle_trans with 0; [nra |].
      apply Rmult_le_pos; lra.
    + apply Rle_trans with ((1 - t) * (1 - INR n * t)).
      * nra.
      * apply Rmult_le_compat_l; lra.
Qed.

Lemma total_nonneg (l : list R) :
  (forall v, In v l -> 0 <= v) -> 0 <= Spec.total l.
Proof.
  induction l as [|a l IH]; intros H; cbn [Spec.total fold_right].
  - lra.
  - assert (0 <= a) by (apply H; left; reflexivity).
    assert (0 <= Spec.total l) by (apply IH; intros v Hv; apply H; right; exact Hv).
    unfold Spec.total in *. lra.
Qed.

Section RoundedSums.

Variable rnd : R -> R.
Hypothesis model : Rounding.StandardModel rnd.

Lemma rsum_fold_bounds (l : list R) (acc : R) :
  0 <= acc -> (forall v, In v l -> 0 <= v) ->
  (acc + Spec.total l) * (1 - Rounding.u) ^ length l
  <= fold_left (fun sum val => rnd (sum + val)) l acc
  <= (acc + Spec.total l) * (1 + Rounding.u) ^ length l.
Proof.
  pose proof u_bounds as [Hu1 Hu2].
  revert acc. induction l as [|v t IH]; intros acc Hacc Hl.
  - cbn [fold_left length Spec.total fold_right pow]. lra.
  - assert (Hv : 0 <= v) by (apply Hl; left; reflexivity).
    assert (Ht : forall w, In w t -> 0 <= w)
      by (intros w Hw; apply Hl; right; exact Hw).
    pose proof (total_nonneg t Ht) as HT.
    pose proof (rnd_between rnd model (acc + v)) as Hb.
    assert (Hav : 0 <= acc + v) by lra. specialize (Hb Hav).
    assert (Hacc' : 0 <= rnd (acc + v)) by (apply rnd_nonneg; assumption).
    specialize (IH (rnd (acc + v)) Hacc' Ht).
    cbn [fold_left length].
    replace (Spec.total (v :: t)) with (v + Spec.total t) by reflexivity.
    assert (Hp1 : 0 <= (1 - Rounding.u) ^ length t) by (apply pow_le; lra).
    assert (Hp2 : 0 <= (1 + Rounding.u) ^ length t) by (apply pow_le; lra).
    destruct IH as [IH1 IH2]. split.
    + apply Rle_trans
        with ((rnd (acc + v) + Spec.total t) * (1 - Rounding.u) ^ length t);
        [| exact IH1].
      simpl pow. rewrite <- Rmult_assoc.
      apply Rmult_le_compat_r; [exact Hp1 |]. nra.
    + apply Rle_trans
        with ((rnd (acc + v) + Spec.total t) * (1 + Rounding.u) ^ length t);
        [exact IH2 |].
      simpl pow. rewrite <- Rmult_assoc.
      apply Rmult_le_compat_r; [exact Hp2 |]. nra.
Qed.

Lemma rsum_nonneg (l : list R) :
  (forall v, In v l -> 0 <= v) -> 0 <= Rounding.rsum rnd l.
Proof.
  intros Hl. pose proof u_bounds as [Hu1 Hu2].
  pose proof (rsum_fold_bounds l 0 (Rle_refl 0) Hl) as [H _].
  unfold Rounding.rsum. eapply Rle_trans; [| exact H].
  apply Rmult_le_pos.
  - pose proof (total_nonneg l Hl). lra.
  - apply pow_le. lra.
Qed.

(** The computed mean of at most [2^32] non-negative numbers is within two
    millionths of their mean. *)
Lemma rmean_close (l : list R) :
  (forall v, In v l -> 0 <= v) -> l <> [] -> INR (length l) <= 2 ^ 32 ->
  Spec.mean l * (1 - / 500000) <= Rounding.rmean rnd l
  <= Spec.mean l * (1 + / 500000).
Proof.
  intros Hl Hne Hlen. pose proof u_bounds as [Hu1 Hu2].
  pose proof (rsum_fold_bounds l 0 (Rle_refl 0) Hl) as [H1 H2].
  pose proof (total_nonneg l Hl) as HT.
  pose proof (rsum_nonneg l Hl) as Hs.
  fold (Rounding.rsum rnd l) in H1, H2. rewrite Rplus_0_l in H1, H2.
  assert (Hn : 0 < INR (length l)).
  { destruct l; [contradiction |]. apply lt_0_INR. cbn. lia. }
  rewrite (pow_IZR 2 32) in Hlen.
  change (2 ^ Z.of_nat 32)%Z with 4294967296%Z in Hlen.
  assert (Hup : (1 + Rounding.u) ^ length l <= 1 + / 1000000).
  { eapply Rle_trans; [apply pow_up |]; rewrite ?u_value; lra. }
  assert (Hdown : 1 - / 1000000 <= (1 - Rounding.u) ^ length l).
  { eapply Rle_trans; [| apply pow_down]; rewrite ?u_value; lra. }
  set (q := Rounding.rsum rnd l / INR (length l)).
  assert (Hq : Spec.mean l * (1 - / 1000000) <= q
               <= Spec.mean l * (1 + / 1000000)).
  { unfold q, Spec.mean, Rdiv. split.
    - rewrite Rmult_assoc, (Rmult_comm (/ _)), <- Rmult_assoc.
      apply Rmult_le_compat_r; [apply Rlt_le, Rinv_0_lt_compat, Hn |].
      eapply Rle_trans; [| exact H1]. apply Rmult_le_compat_l; assumption.
    - rewrite Rmult_assoc, (Rmult_comm (/ _)), <- Rmult_assoc.
      apply Rmult_le_compat_r; [apply Rlt_le, Rinv_0_lt_compat, Hn |].
      eapply Rle_trans; [exact H2 |]. apply Rmult_le_compat_l; assumption. }
  assert (Hm : 0 <= Spec.mean l).
  { unfold Spec.mean. apply Rmult_le_pos; [exact HT |].
    apply Rlt_le, Rinv_0_lt_compat, Hn. }
  assert (Hq0 : 0 <= q).
  { unfold q. apply Rmult_le_pos; [exact Hs |].
    apply Rlt_le, Rinv_0_lt_compat, Hn. }
  pose proof (rnd_close rnd model q Hq0) as Hc.
  unfold Rounding.rmean. fold q. lra.
Qed.

End RoundedSums.

(** ** The relative change of the trend functions *)

Section RelativeChange.

Variable rnd : R -> R.
Hypothesis model : Rounding.StandardModel rnd.

(** The computed change is the exact one up to three roundings. *)
Lemma rchange_up (f s : R) :
  0 < f -> f <= s ->
  (s - f) / f * 100 * (1 - / 100000000000000)
  <= Rounding.rchange rnd f s
  <= (s - f) / f * 100 * (1 + / 100000000000000).
Proof.
  intros Hf Hs. unfold Rounding.rchange.
  assert (Hi : 0 < / f) by (apply Rinv_0_lt_compat; exact Hf).
  assert (H0 : 0 <= s - f) by lra.
  pose proof (rnd_close rnd model (s - f) H0) as [Hd1 Hd2].
  pose proof (rnd_nonneg rnd model (s - f) H0) as Hd0.
  set (d := rnd (s - f)) in *.
  assert (Hq0 : 0 <= d / f) by (apply Rmult_le_pos; lra).
  pose proof (rnd_close rnd model (d / f) Hq0) as [Hq1 Hq2].
  pose proof (rnd_nonneg rnd model (d / f) Hq0) as Hq.
  assert (Hx1 : (s - f) / f * (1 - / 1000000000000000) <= d / f).
  { unfold Rdiv. rewrite Rmult_assoc, (Rmult_comm (/ f)), <- Rmult_assoc.
    apply Rmult_le_compat_r; lra. }
  assert (Hx2 : d / f <= (s - f) / f * (1 + / 1000000000000000)).
  { unfold Rdiv.
    rewrite (Rmult_assoc (s - f)), (Rmult_comm (/ f)), <- Rmult_assoc.
    apply Rmult_le_compat_r; lra. }
  assert (Hx0 : 0 <= (s - f) / f) by (apply Rmult_le_pos; lra).
  set (X := (s - f) / f) in *. set (q := rnd (d / f)) in *.
  set (Y := d / f) in *.
  assert (Hc0 : 0 <= q * 100) by lra.
  pose proof (rnd_close rnd model (q * 100) Hc0) as [Hc1 Hc2].
  set (c := rnd (q * 100)) in *.
  split; lra.
Qed.

Lemma rchange_opp (f s : R) :
  f <> 0 -> Rounding.rchange rnd (- f) (- s) = Rounding.rchange rnd f s.
Proof.
  intros Hf. unfold Rounding.rchange.
  replace (- s - - f) with (- (s - f)) by ring.
  rewrite (Rounding.rnd_opp rnd model).
  replace (- rnd (s - f) / - f) with (rnd (s - f) / f) by (field; exact Hf).
  reflexivity.
Qed.

Lemma rchange_down (f s : R) :
  0 < f -> s <= f ->
  (s - f) / f * 100 * (1 + / 100000000000000)
  <= Rounding.rchange rnd f s
  <= (s - f) / f * 100 * (1 - / 100000000000000).
Proof.
  intros Hf Hs. unfold Rounding.rchange.
  assert (Hi : 0 < / f) by (apply Rinv_0_lt_compat; exact Hf).
  assert (H0 : 0 <= f - s) by lra.
  pose proof (rchange_up f (2 * f - s) Hf ltac:(lra)) as H.
  unfold Rounding.rchange in H.
  replace (2 * f - s - f) with (- (s - f)) in H by ring.
  rewrite (Rounding.rnd_opp rnd model) in H.
  replace (- rnd (s - f) / f) with (- (rnd (s - f) / f)) in H
    by (field; lra).
  rewrite (Rounding.rnd_opp rnd model) in H.
  replace (- rnd (rnd (s - f) / f) * 100)
    with (- (rnd (rnd (s - f) / f) * 100)) in H by ring.
  rewrite (Rounding.rnd_opp rnd model) in H.
  replace (- (s - f) / f) with (- ((s - f) / f)) in H by (field; lra).
  lra.
Qed.

(** The four bands of the thresholds at 10 percent. *)
Lemma ratio_ge (f s k : R) : 0 < f -> k * f <= s -> k - 1 <= (s - f) / f.
Proof.
  intros Hf H. unfold Rdiv.
  apply Rmult_le_reg_r with f; [exact Hf |].
  rewrite Rmult_assoc, Rinv_l by lra. lra.
Qed.

Lemma ratio_le (f s k : R) : 0 < f -> s <= k * f -> (s - f) / f <= k - 1.
Proof.
  intros Hf H. unfold Rdiv.
  apply Rmult_le_reg_r with f; [exact Hf |].
  rewrite Rmult_assoc, Rinv_l by lra. lra.
Qed.

Lemma change_above (f s k c : R) :
  0 < f -> 1 < k -> k * f <= s -> c <= (k - 1) * 99.9999 ->
  c < Rounding.rchange rnd f s.
Proof.
  intros Hf Hk Hs Hc.
  pose proof (ratio_ge f s k Hf Hs) as HX.
  assert (Hfs : f <= s) by nra.
  pose proof (rchange_up f s Hf Hfs) as [H _].
  set (X := (s - f) / f) in *. lra.
Qed.

Lemma change_below (f s k c : R) :
  0 < f -> k < 1 -> s <= k * f -> (k - 1) * 99.9999 <= c ->
  Rounding.rchange rnd f s < c.
Proof.
  intros Hf Hk Hs Hc.
  pose proof (ratio_le f s k Hf Hs) as HX.
  assert (Hfs : s <= f) by nra.
  pose proof (rchange_down f s Hf Hfs) as [_ H].
  set (X := (s - f) / f) in *. lra.
Qed.

Lemma change_at_most (f s k c : R) :
  0 < f -> 1 <= k -> s <= k * f -> (k - 1) * 100.0001 <= c ->
  Rounding.rchange rnd f s <= c.
Proof.
  intros Hf Hk Hs Hc.
  pose proof (ratio_le f s k Hf Hs) as HX.
  destruct (Rle_dec f s) as [Hfs|Hfs].
  - pose proof (rchange_up f s Hf Hfs) as [_ H].
    assert (0 <= (s - f) / f).
    { apply Rmult_le_pos; [lra | apply Rlt_le, Rinv_0_lt_compat, Hf]. }
    set (X := (s - f) / f) in *. lra.
  - assert (Hsf : s <= f) by lra.
    pose proof (rchange_down f s Hf Hsf) as [_ H].
    assert ((s - f) / f <= 0).
    { unfold Rdiv. apply Rmult_le_reg_r with f; [exact Hf |].
      rewrite Rmult_assoc, Rinv_l by lra. lra. }
    set (X := (s - f) / f) in *. lra.
Qed.

Lemma change_at_least (f s k c : R) :
  0 < f -> 0 <= k <= 1 -> k * f <= s -> c <= (k - 1) * 100.0001 ->
  c <= Rounding.rchange rnd f s.
Proof.
  intros Hf Hk Hs Hc.
  pose proof (ratio_ge f s k Hf Hs) as HX.
  destruct (Rle_dec f s) as [Hfs|Hfs].
  - pose proof (rchange_up f s Hf Hfs) as [H _].
    assert (0 <= (s - f) / f).
    { apply Rmult_le_pos; [lra | apply Rlt_le, Rinv_0_lt_compat, Hf]. }
    set (X := (s - f) / f) in *. lra.
  - assert (Hsf : s <= f) by lra.
    pose proof (rchange_down f s Hf Hsf) as [H _].
    assert ((s - f) / f <= 0).
    { unfold Rdiv. apply Rmult_le_reg_r with f; [exact Hf |].
      rewrite Rmult_assoc, Rinv_l by lra. lra. }
    set (X := (s - f) / f) in *. lra.
Qed.

End RelativeChange.

(** ** The operations of the rounded arithmetic on finite numbers *)

Section RoundedOperations.

Variable rnd : R -> R.

Lemma radd (a b : R) :
  Float.add (Float.rounded rnd) (Fin a) (Fin b) = Fin (rnd (a + b)).
Proof. reflexivity. Qed.

Lemma rsub (a b : R) :
  Float.sub (Float.rounded rnd) (Fin a) (Fin b) = Fin (rnd (a - b)).
Proof. reflexivity. Qed.

Lemma rmul (a b : R) :
  Float.mul (Float.rounded rnd) (Fin a) (Fin b) = Fin (rnd (a * b)).
Proof. reflexivity. Qed.

Lemma rdiv (a b : R) :
  b <> 0 -> Float.div (Float.rounded rnd) (Fin a) (Fin b) = Fin (rnd (a / b)).
Proof.
  intros Hb. cbn [Float.div Float.rounded]. unfold JSNum.div.
  destruct (Req_dec_T b 0); [contradiction | reflexivity].
Qed.

Lemma rdiv_zeros :
  Float.div (Float.rounded rnd) (Fin 0) (Fin 0) = NaN.
Proof.
  cbn [Float.div Float.rounded]. unfold JSNum.div.
  destruct (Req_dec_T 0 0) as [_|H]; [| contradiction].
  unfold by_sign. destruct (Rlt_dec 0 0); [lra |]. reflexivity.
Qed.

Lemma rsqrt (a : R) :
  0 <= a ->
  Float.sqrt (Float.rounded rnd) (Fin a) = Fin (rnd (R_sqrt.sqrt a)).
Proof.
  intros Ha. cbn [Float.sqrt Float.rounded]. unfold JSNum.sqrt.
  destruct (Rlt_dec a 0); [lra | reflexivity].
Qed.

Lemma rgtb (a b : R) :
  Float.gtb (Float.rounded rnd) (Fin a) (Fin b) = Rltb b a.
Proof. reflexivity. Qed.

Lemma rltb (a b : R) :
  Float.ltb (Float.rounded rnd) (Fin a) (Fin b) = Rltb a b.
Proof. reflexivity. Qed.

Lemma sum_values_series (l : list R) (acc : R) :
  fold_left
    (fun sum point =>
       Float.add (Float.rounded rnd) sum (Float.value _ point))
    (Rounding.series rnd l) (Fin acc)
  = Fin (fold_left (fun sum val => rnd (sum + val)) l acc).
Proof.
  revert acc. induction l as [|v l IH]; intros acc; [reflexivity |].
  cbn [Rounding.series map fold_left Float.value].
  rewrite radd. apply IH.
Qed.

Lemma half_average_series (l : list R) :
  l <> [] ->
  Float.half_average (Float.rounded rnd) (Rounding.series rnd l)
  = Fin (Rounding.rmean rnd l).
Proof.
  intros Hl. unfold Float.half_average, Float.sum_values, Float.zero.
  cbn [Float.of_Z Float.rounded]. rewrite sum_values_series.
  unfold Float.of_nat. cbn [Float.of_Z Float.rounded].
  unfold Rounding.series. rewrite length_map, <- INR_IZR_INZ.
  rewrite rdiv; [reflexivity |].
  apply not_0_INR. destruct l; [contradiction | discriminate].
Qed.

Lemma series_halves (l : list R) :
  firstn (length (Rounding.series rnd l) / 2) (Rounding.series rnd l)
  = Rounding.series rnd (Spec.first_half l) /\
  skipn (length (Rounding.series rnd l) / 2) (Rounding.series rnd l)
  = Rounding.series rnd (Spec.second_half l).
Proof.
  unfold Rounding.series, Spec.first_half, Spec.second_half.
  rewrite length_map, firstn_map, skipn_map. split; reflexivity.
Qed.

(** The direction as a function of the two computed half averages. *)
Lemma direction_of_change (l : list R) :
  (2 <= length l)%nat ->
  Rounding.rmean rnd (Spec.first_half l) <> 0 ->
  let c :=
    Rounding.rchange rnd (Rounding.rmean rnd (Spec.first_half l))
      (Rounding.rmean rnd (Spec.second_half l)) in
  Float.calculateTrendDirection (Float.rounded rnd) (Rounding.series rnd l)
  = if Rltb 10 c then "improving"%string
    else if Rltb c (-10) then "declining"%string else "stable"%string.
Proof.
  intros Hlen Hf c. unfold Float.calculateTrendDirection.
  assert (Hl : length (Rounding.series rnd l) = length l)
    by (unfold Rounding.series; apply length_map).
  rewrite Hl. destruct (Nat.ltb_spec (length l) 2) as [H|_]; [lia |].
  unfold Float.changePercent.
  destruct (series_halves l) as [-> ->].
  destruct (halves_nonempty l Hlen) as [H1 H2].
  rewrite !half_average_series by assumption.
  rewrite rsub, rdiv by exact Hf.
  cbn [Float.of_Z Float.rounded]. rewrite rmul.
  fold (Float.rounded rnd). reflexivity.
Qed.

End RoundedOperations.

(** ** C3: calculateTrendDirection *)

Section TrendDirection.

Variable rnd : R -> R.
Hypothesis model : Rounding.StandardModel rnd.

Lemma rsum_fold_opp (l : list R) (acc : R) :
  fold_left (fun sum val => rnd (sum + val)) (map Ropp l) (- acc)
  = - fold_left (fun sum val => rnd (sum + val)) l acc.
Proof.
  revert acc. induction l as [|v l IH]; intros acc; [reflexivity |].
  cbn [map fold_left].
  replace (- acc + - v) with (- (acc + v)) by ring.
  rewrite (Rounding.rnd_opp rnd model). apply IH.
Qed.

Lemma rmean_opp (l : list R) :
  Rounding.rmean rnd (map Ropp l) = - Rounding.rmean rnd l.
Proof.
  unfold Rounding.rmean, Rounding.rsum. rewrite length_map.
  rewrite <- Ropp_0 at 1. rewrite rsum_fold_opp.
  unfold Rdiv. rewrite Ropp_mult_distr_l_reverse.
  apply (Rounding.rnd_opp rnd model).
Qed.

Lemma rmean_zeros (l : list R) :
  (forall v, In v l -> v = 0) -> Rounding.rmean rnd l = 0.
Proof.
  intros Hl. unfold Rounding.rmean, Rounding.rsum.
  assert (H : fold_left (fun sum val => rnd (sum + val)) l 0 = 0).
  { induction l as [|v l IH]; [reflexivity |].
    cbn [fold_left]. rewrite (Hl v) by (left; reflexivity).
    rewrite Rplus_0_l, (rnd_0 rnd model).
    apply IH. intros w Hw. apply Hl. right. exact Hw. }
  rewrite H. unfold Rdiv. rewrite Rmult_0_l. apply (rnd_0 rnd model).
Qed.

Lemma halves_In (l : list R) (v : R) :
  In v (Spec.first_half l) \/ In v (Spec.second_half l) -> In v l.
Proof.
  unfold Spec.first_half, Spec.second_half. intros H.
  rewrite <- (firstn_skipn (length l / 2) l). apply in_or_app. exact H.
Qed.

Lemma halves_length (l : list R) :
  (length (Spec.first_half l) <= length l)%nat /\
  (length (Spec.second_half l) <= length l)%nat.
Proof.
  unfold Spec.first_half, Spec.second_half.
  rewrite length_firstn, length_skipn. lia.
Qed.

Lemma halves_map (g : R -> R) (l : list R) :
  Spec.first_half (map g l) = map g (Spec.first_half l) /\
  Spec.second_half (map g l) = map g (Spec.second_half l).
Proof.
  unfold Spec.first_half, Spec.second_half.
  rewrite length_map, firstn_map, skipn_map. split; reflexivity.
Qed.

(** The computed half averages of a series of non-negative numbers, against
    the exact ones. *)
Lemma half_means_close (l : list R) :
  (2 <= length l)%nat -> INR (length l) <= 2 ^ 32 ->
  (forall v, In v l -> 0 <= v) ->
  let fa := Spec.mean (Spec.first_half l) in
  let sa := Spec.mean (Spec.second_half l) in
  fa * (1 - / 500000) <= Rounding.rmean rnd (Spec.first_half l)
  <= fa * (1 + / 500000) /\
  sa * (1 - / 500000) <= Rounding.rmean rnd (Spec.second_half l)
  <= sa * (1 + / 500000).
Proof.
  intros Hlen Hmax Hl fa sa.
  destruct (halves_nonempty l Hlen) as [H1 H2].
  destruct (halves_length l) as [L1 L2].
  split; apply (rmean_close rnd model); try assumption.
  - intros v Hv. apply Hl, halves_In. left. exact Hv.
  - eapply Rle_trans; [apply le_INR, L1 | exact Hmax].
  - intros v Hv. apply Hl, halves_In. right. exact Hv.
  - eapply Rle_trans; [apply le_INR, L2 | exact Hmax].
Qed.

Lemma constant_change (l : list R) (c : R) :
  (2 <= length l)%nat -> INR (length l) <= 2 ^ 32 -> 0 < c ->
  (forall v, In v l -> v = c) ->
  let f := Rounding.rmean rnd (Spec.first_half l) in
  let s := Rounding.rmean rnd (Spec.second_half l) in
  0 < f /\ - 10 <= Rounding.rchange rnd f s <= 10.
Proof.
  intros Hlen Hmax Hc Hl f s.
  destruct (halves_nonempty l Hlen) as [H1 H2].
  assert (Hpos : forall v, In v l -> 0 <= v)
    by (intros v Hv; rewrite (Hl v Hv); lra).
  destruct (half_means_close l Hlen Hmax Hpos) as [[F1 F2] [S1 S2]].
  rewrite (mean_constant c) in F1, F2, S1, S2;
    try assumption;
    try (intros v Hv; apply Hl, halves_In; auto).
  fold f in F1, F2. fold s in S1, S2.
  assert (Hf : 0 < f) by lra.
  split; [exact Hf |]. split.
  - apply (change_at_least rnd model f s 0.9999); lra.
  - apply (change_at_most rnd model f s 1.0001); lra.
Qed.

Lemma direction_constant_series (l : list R) (c : R) :
  (2 <= length l)%nat -> INR (length l) <= 2 ^ 32 ->
  (forall v, In v l -> v = c) ->
  Float.calculateTrendDirection (Float.rounded rnd) (Rounding.series rnd l)
  = "stable"%string.
Proof.
  intros Hlen Hmax Hl.
  destruct (halves_nonempty l Hlen) as [H1 H2].
  destruct (Rtotal_order c 0) as [Hc|[Hc|Hc]].
  - (* negative: the series of the opposites, mirrored *)
    set (l' := map Ropp l).
    assert (Hl' : forall v, In v l' -> v = - c).
    { intros v Hv. apply in_map_iff in Hv as [w [<- Hw]].
      rewrite (Hl w Hw). reflexivity. }
    assert (Hlen' : length l' = length l) by apply length_map.
    assert (El : l = map Ropp l').
    { unfold l'. rewrite map_map. rewrite <- (map_id l) at 1.
      apply map_ext. intros a. ring. }
    destruct (constant_change l' (- c)) as [Hf Hb];
      try (rewrite ?Hlen'; assumption); try lra.
    destruct (halves_map Ropp l') as [E1 E2].
    rewrite direction_of_change; try assumption.
    + cbv zeta in Hf, Hb.
      assert (Hne : Rounding.rmean rnd (Spec.first_half l') <> 0) by lra.
      rewrite El, E1, E2, !rmean_opp. rewrite (rchange_opp rnd model _ _ Hne).
      destruct (Rltb_lt 10
                  (Rounding.rchange rnd
                     (Rounding.rmean rnd (Spec.first_half l'))
                     (Rounding.rmean rnd (Spec.second_half l')))) as [A _].
      destruct (Rltb_lt
                  (Rounding.rchange rnd
                     (Rounding.rmean rnd (Spec.first_half l'))
                     (Rounding.rmean rnd (Spec.second_half l'))) (-10))
        as [B _].
      destruct (Rltb 10 _); [specialize (A eq_refl); lra |].
      destruct (Rltb _ (-10)); [specialize (B eq_refl); lra |].
      reflexivity.
    + cbv zeta in Hf. rewrite El, E1, rmean_opp. lra.
  - (* zero: the change is 0 / 0 *)
    subst c. unfold Float.calculateTrendDirection.
    assert (Hs : length (Rounding.series rnd l) = length l)
      by (unfold Rounding.series; apply length_map).
    rewrite Hs. destruct (Nat.ltb_spec (length l) 2) as [H|_]; [lia |].
    unfold Float.changePercent.
    destruct (series_halves rnd l) as [-> ->].
    rewrite !half_average_series by assumption.
    rewrite !rmean_zeros
      by (intros v Hv; apply Hl, halves_In; auto).
    rewrite rsub, Rminus_diag, (rnd_0 rnd model), rdiv_zeros.
    reflexivity.
  - destruct (constant_change l c Hlen Hmax Hc Hl) as [Hf Hb].
    rewrite direction_of_change; try assumption; try lra.
    destruct (Rltb_lt 10
                (Rounding.rchange rnd
                   (Rounding.rmean rnd (Spec.first_half l))
                   (Rounding.rmean rnd (Spec.second_half l)))) as [A _].
    destruct (Rltb_lt
                (Rounding.rchange rnd
                   (Rounding.rmean rnd (Spec.first_half l))
                   (Rounding.rmean rnd (Spec.second_half l))) (-10))
      as [B _].
    destruct (Rltb 10 _); [specialize (A eq_refl); lra |].
    destruct (Rltb _ (-10)); [specialize (B eq_refl); lra |].
    reflexivity.
Qed.

(** A series of non-negative numbers whose first half has a positive mean:
    the direction against the exact half means [fa] and [sa]. *)
Lemma direction_margins (l : list R) :
  (2 <= length l)%nat -> INR (length l) <= 2 ^ 32 ->
  (forall v, In v l -> 0 <= v) ->
  let fa := Spec.mean (Spec.first_half l) in
  let sa := Spec.mean (Spec.second_half l) in
  let direction :=
    Float.calculateTrendDirection (Float.rounded rnd)
      (Rounding.series rnd l) in
  0 < fa ->
  (1.1001 * fa <= sa -> direction = "improving"%string) /\
  (sa <= 1.0999 * fa -> direction <> "improving"%string) /\
  (sa <= 0.8999 * fa -> direction = "declining"%string) /\
  (0.9001 * fa <= sa -> direction <> "declining"%string).
Proof.
  intros Hlen Hmax Hl fa sa direction Hfa.
  destruct (half_means_close l Hlen Hmax Hl) as [[F1 F2] [S1 S2]].
  fold fa in F1, F2. fold sa in S1, S2.
  set (f := Rounding.rmean rnd (Spec.first_half l)) in *.
  set (s := Rounding.rmean rnd (Spec.second_half l)) in *.
  assert (Hf : 0 < f) by lra.
  assert (Hd : direction
               = if Rltb 10 (Rounding.rchange rnd f s)
                 then "improving"%string
                 else if Rltb (Rounding.rchange rnd f s) (-10)
                      then "declining"%string else "stable"%string).
  { unfold direction. apply direction_of_change; [exact Hlen |].
    fold f. lra. }
  destruct (Rltb_lt 10 (Rounding.rchange rnd f s)) as [A1 A2].
  destruct (Rltb_lt (Rounding.rchange rnd f s) (-10)) as [B1 B2].
  repeat split.
  - intros H.
    assert (10 < Rounding.rchange rnd f s)
      by (apply (change_above rnd model f s 1.10005); lra).
    rewrite Hd, A2 by assumption. reflexivity.
  - intros H.
    assert (Rounding.rchange rnd f s <= 10)
      by (apply (change_at_most rnd model f s 1.09995); lra).
    rewrite Hd. destruct (Rltb 10 _); [specialize (A1 eq_refl); lra |].
    destruct (Rltb _ (-10)); discriminate.
  - intros H.
    assert (Rounding.rchange rnd f s < -10)
      by (apply (change_below rnd model f s 0.89995); lra).
    rewrite Hd. destruct (Rltb 10 _); [specialize (A1 eq_refl); lra |].
    rewrite B2 by assumption. reflexivity.
  - intros H.
    assert (-10 <= Rounding.rchange rnd f s)
      by (apply (change_at_least rnd model f s 0.90005); lra).
    rewrite Hd. destruct (Rltb 10 _); [discriminate |].
    destruct (Rltb _ (-10)); [specialize (B1 eq_refl); lra | discriminate].
Qed.

End TrendDirection.

(** C3, as stated, fails in binary64 on the series 100, 101, 102, 103: it is
    strictly increasing and of length 4, the two half averages are 100.5 and
    102.5, a change of about 2 percent, and the direction is [stable]. *)
Lemma increasing_series_stable :
  let values := map Examples64.int [100; 101; 102; 103]%Z in
  Examples64.increasing values = true /\
  length values = 4%nat /\
  Float.calculateTrendDirection Float.binary64 (Examples64.series values)
  = "stable"%string /\
  Float.calculateTrendDirection Float.binary64 (Examples64.series values)
  <> "improving"%string.
Proof.
  cbv zeta. repeat split; try (vm_compute; reflexivity).
  vm_compute. discriminate.
Qed.

(** C3, amended.  [calculateTrendDirection] returns [insufficient_data] on
    every series of fewer than two points, in particular of length 1, and
    [stable] on every constant series of at least two points.  On a strictly
    increasing series of positive numbers of length at least 4 it returns
    [improving] or [stable]: [improving] when the average of the second half
    exceeds the average of the first half by 10.01 percent or more, [stable]
    when it exceeds it by 9.99 percent or less (in between, the rounding of
    the computation decides).  This holds for every rounding of the standard
    model, of series of at most [2^32] points. *)
Theorem trend_direction_cases (rnd : R -> R) (values : list R) :
  Rounding.StandardModel rnd ->
  INR (length values) <= 2 ^ 32 ->
  let direction :=
    Float.calculateTrendDirection (Float.rounded rnd)
      (Rounding.series rnd values) in
  let fa := Spec.mean (Spec.first_half values) in
  let sa := Spec.mean (Spec.second_half values) in
  ((length values < 2)%nat -> direction = "insufficient_data"%string) /\
  ((2 <= length values)%nat ->
   (exists c, forall v, In v values -> v = c) ->
   direction = "stable"%string) /\
  ((4 <= length values)%nat -> Sorted Rlt values ->
   (forall v, In v values -> 0 < v) ->
   (direction = "improving"%string \/ direction = "stable"%string) /\
   (1.1001 * fa <= sa -> direction = "improving"%string) /\
   (sa <= 1.0999 * fa -> direction = "stable"%string)).
Proof.
  intros model Hmax direction fa sa. split; [| split].
  - intros Hlen. unfold direction, Float.calculateTrendDirection.
    unfold Rounding.series. rewrite length_map.
    destruct (Nat.ltb_spec (length values) 2) as [_|H]; [reflexivity | lia].
  - intros Hlen [c Hc].
    apply (direction_constant_series rnd model values c); assumption.
  - intros Hlen Hsorted Hpos.
    assert (Hlen2 : (2 <= length values)%nat) by lia.
    assert (Hnn : forall v, In v values -> 0 <= v)
      by (intros v Hv; apply Rlt_le, Hpos, Hv).
    destruct (halves_nonempty values Hlen2) as [H1 H2].
    assert (Hfa : 0 < fa).
    { apply mean_gt_bound; [exact H1 |].
      intros a Ha. apply Hpos, halves_In. left. exact Ha. }
    assert (Hsa : fa < sa) by (apply halves_means_lt; assumption).
    destruct (direction_margins rnd model values Hlen2 Hmax Hnn Hfa)
      as [Hi [Hni [_ Hnd]]].
    fold direction fa sa in Hi, Hni, Hnd.
    assert (Hcases : direction = "improving"%string
                     \/ direction = "declining"%string
                     \/ direction = "stable"%string).
    { assert (Hs : length (Rounding.series rnd values) = length values)
        by (unfold Rounding.series; apply length_map).
      unfold direction, Float.calculateTrendDirection. rewrite Hs.
      destruct (Nat.ltb_spec (length values) 2) as [H|_]; [lia |].
      destruct (Float.gtb _ _ _); [left; reflexivity |].
      destruct (Float.ltb _ _ _); [right; left | right; right];
        reflexivity. }
    assert (Hd : direction <> "declining"%string) by (apply Hnd; lra).
    split; [| split].
    + destruct Hcases as [H|[H|H]];
        [left; exact H | contradiction | right; exact H].
    + exact Hi.
    + intros H. specialize (Hni H).
      destruct Hcases as [Hc|[Hc|Hc]];
        [contradiction | contradiction | exact Hc].
Qed.

(** The amended C3 in exact arithmetic at the strictly increasing series 1,
    2, 3, 4, whose half averages are 1.5 and 3.5. *)
Lemma trend_direction_cases_witness :
  Float.calculateTrendDirection Float.exact
    (Rounding.series (fun r => r) [1; 2; 3; 4])
  = "improving"%string.
Proof.
  apply (trend_direction_cases (fun r => r) [1; 2; 3; 4] exact_model).
  - cbn [length INR]. rewrite (pow_IZR 2 32).
    change (2 ^ Z.of_nat 32)%Z with 4294967296%Z. lra.
  - cbn [length]. lia.
  - repeat constructor; lra.
  - intros v [<-|[<-|[<-|[<-|[]]]]]; lra.
  - unfold Spec.mean, Spec.first_half, Spec.second_half, Spec.total.
    cbn [length Nat.div Nat.divmod fst firstn skipn fold_right INR]. lra.
Defined.

(** ** C7: calculateStandardDeviation and calculateStabilityMetrics *)

Section RoundedDeviation.

Variable rnd : R -> R.
Hypothesis model : Rounding.StandardModel rnd.

Lemma sum_list_reals (l : list R) (acc : R) :
  fold_left (Float.add (Float.rounded rnd)) (Rounding.reals rnd l) (Fin acc)
  = Fin (fold_left (fun sum val => rnd (sum + val)) l acc).
Proof.
  revert acc. induction l as [|v l IH]; intros acc; [reflexivity |].
  cbn [Rounding.reals map fold_left]. rewrite radd. apply IH.
Qed.

Lemma calculateMean_reals (l : list R) :
  l <> [] ->
  Float.calculateMean (Float.rounded rnd) (Rounding.reals rnd l)
  = Fin (Rounding.rmean rnd l).
Proof.
  intros Hl. unfold Float.calculateMean, Rounding.reals.
  rewrite length_map. destruct l as [|a l]; [contradiction |].
  cbn [length Nat.eqb]. unfold Float.sum_list, Float.zero.
  cbn [Float.of_Z Float.rounded].
  fold (Float.rounded rnd). fold (Rounding.reals rnd (a :: l)).
  rewrite sum_list_reals.
  unfold Float.of_nat. cbn [Float.of_Z Float.rounded].
  rewrite <- INR_IZR_INZ. fold (Float.rounded rnd).
  rewrite rdiv; [reflexivity |]. apply not_0_INR. discriminate.
Qed.

Lemma rsquares_nonneg (l : list R) :
  forall v, In v (Rounding.rsquares rnd l) -> 0 <= v.
Proof.
  intros v Hv. unfold Rounding.rsquares in Hv.
  apply in_map_iff in Hv as [w [<- _]].
  apply (rnd_nonneg rnd model). apply Rle_0_sqr.
Qed.

Lemma rmean_nonneg (l : list R) :
  (forall v, In v l -> 0 <= v) -> 0 <= Rounding.rmean rnd l.
Proof.
  intros Hl. unfold Rounding.rmean. apply (rnd_nonneg rnd model).
  apply Rmult_le_pos; [apply (rsum_nonneg rnd model); exact Hl |].
  destruct l as [|a l].
  - cbn [length INR]. rewrite Rinv_0. lra.
  - apply Rlt_le, Rinv_0_lt_compat, lt_0_INR. cbn. lia.
Qed.

Lemma rstddev_nonneg (l : list R) : 0 <= Rounding.rstddev rnd l.
Proof.
  destruct l as [|a l]; [cbn; lra |].
  unfold Rounding.rstddev. apply (rnd_nonneg rnd model), sqrt_pos.
Qed.

Lemma calculateStandardDeviation_reals (l : list R) :
  Float.calculateStandardDeviation (Float.rounded rnd) (Rounding.reals rnd l)
  = Fin (Rounding.rstddev rnd l).
Proof.
  destruct l as [|a l]; [reflexivity |].
  unfold Float.calculateStandardDeviation.
  assert (Hne : a :: l <> []) by discriminate.
  unfold Rounding.reals at 1. rewrite length_map. cbn [length Nat.eqb].
  rewrite (calculateMean_reals _ Hne).
  assert (Hsq : map
                  (fun val =>
                     Float.pow2 (Float.rounded rnd)
                       (Float.sub (Float.rounded rnd) val
                          (Fin (Rounding.rmean rnd (a :: l)))))
                  (Rounding.reals rnd (a :: l))
                = Rounding.reals rnd (Rounding.rsquares rnd (a :: l))).
  { unfold Rounding.reals, Rounding.rsquares. rewrite !map_map.
    apply map_ext. intros v. unfold Float.pow2. rewrite rsub, rmul.
    reflexivity. }
  rewrite Hsq.
  assert (Hne' : Rounding.rsquares rnd (a :: l) <> [])
    by (unfold Rounding.rsquares; discriminate).
  rewrite (calculateMean_reals _ Hne').
  rewrite rsqrt by (apply rmean_nonneg, rsquares_nonneg).
  reflexivity.
Qed.

Lemma rmax (a b : R) :
  Float.max (Float.rounded rnd) (Fin a) (Fin b) = Fin (Rmax a b).
Proof.
  unfold Float.max, Float.is_nan. cbn [Float.eqb Float.ltb Float.rounded].
  unfold JSNum.eqb, JSNum.ltb, Reqb, Rltb.
  destruct (Req_dec_T a a) as [_|H]; [| contradiction].
  destruct (Req_dec_T b b) as [_|H]; [| contradiction].
  cbn [negb orb]. unfold Rmax.
  destruct (Rlt_dec a b), (Rle_dec a b); try reflexivity; try lra.
  f_equal. lra.
Qed.

Lemma sample_errors_reals (positions : list Sample) :
  map (fun p =>
         Float.or_default (Float.rounded rnd) (Float.error _ p)
           (Float.zero (Float.rounded rnd)))
    (map (Rounding.sample rnd) positions)
  = Rounding.reals rnd (Spec.sample_errors positions).
Proof.
  unfold Rounding.reals, Spec.sample_errors. rewrite !map_map.
  apply map_ext. intros p. unfold Rounding.sample. cbn [Float.error].
  destruct (error p) as [e|]; [| reflexivity].
  cbn [option_map Float.or_default]. unfold Float.truthy, Float.is_nan.
  cbn [Float.eqb Float.rounded Float.zero Float.of_Z].
  unfold JSNum.eqb, Reqb.
  destruct (Req_dec_T e e) as [_|H]; [| contradiction].
  destruct (Req_dec_T e 0) as [->|H]; reflexivity.
Qed.

Lemma stability_fields (positions : list Sample) :
  let m :=
    Float.calculateStabilityMetrics (Float.rounded rnd)
      (map (Rounding.sample rnd) positions) in
  let v := Rounding.rstddev rnd (Spec.sample_errors positions) in
  Float.errorVariance _ m = Fin v /\
  Float.overallStabilityScore _ m = Fin (Rounding.score rnd v).
Proof.
  intros m v. unfold m, Float.calculateStabilityMetrics.
  cbn [Float.errorVariance Float.overallStabilityScore].
  rewrite sample_errors_reals, calculateStandardDeviation_reals.
  fold v. split; [reflexivity |].
  unfold Float.zero. cbn [Float.of_Z Float.rounded].
  fold (Float.rounded rnd). rewrite rmul, rsub, rmax. reflexivity.
Qed.

Lemma score_range (v : R) : 0 <= v -> 0 <= Rounding.score rnd v <= 100.
Proof.
  intros Hv. unfold Rounding.score. split; [apply Rmax_l |].
  apply Rmax_lub; [lra |].
  assert (H : 0 <= rnd (v * 1000)) by (apply (rnd_nonneg rnd model); lra).
  rewrite <- (rnd_small_int rnd model 100) at 2
    by (vm_compute; discriminate).
  apply (Rounding.rnd_mono rnd model). lra.
Qed.

Lemma score_zero : Rounding.score rnd 0 = 100.
Proof.
  unfold Rounding.score. rewrite Rmult_0_l, (rnd_0 rnd model), Rminus_0_r.
  rewrite (rnd_small_int rnd model 100) by (vm_compute; discriminate).
  apply Rmax_right. lra.
Qed.

Lemma score_antitone (v v' : R) :
  v <= v' -> Rounding.score rnd v' <= Rounding.score rnd v.
Proof.
  intros H. unfold Rounding.score. apply Rle_max_compat_l.
  apply (Rounding.rnd_mono rnd model).
  assert (rnd (v * 1000) <= rnd (v' * 1000))
    by (apply (Rounding.rnd_mono rnd model); lra).
  lra.
Qed.

Lemma rmean_all_zero (l : list R) :
  (forall v, In v l -> v = 0) -> Rounding.rmean rnd l = 0.
Proof. apply (rmean_zeros rnd model). Qed.

Lemma rstddev_zeros (l : list R) :
  (forall v, In v l -> v = 0) -> Rounding.rstddev rnd l = 0.
Proof.
  intros Hl. destruct l as [|a l]; [reflexivity |].
  unfold Rounding.rstddev.
  rewrite rmean_all_zero; [rewrite sqrt_0; apply (rnd_0 rnd model) |].
  intros v Hv. unfold Rounding.rsquares in Hv.
  apply in_map_iff in Hv as [w [<- Hw]].
  rewrite (Hl w Hw), (rmean_all_zero _ Hl), Rminus_diag.
  rewrite (rnd_0 rnd model), Rmult_0_l. apply (rnd_0 rnd model).
Qed.

End RoundedDeviation.

Lemma rmean_exact (l : list R) :
  Rounding.rmean (fun r => r) l = Spec.mean l.
Proof.
  unfold Rounding.rmean, Rounding.rsum, Spec.mean.
  change (fold_left (fun sum val => sum + val) l 0)
    with (fold_left Rplus l 0).
  rewrite fold_left_Rplus, Rplus_0_l. reflexivity.
Qed.

Lemma rstddev_exact (l : list R) :
  Rounding.rstddev (fun r => r) l = Spec.population_stddev l.
Proof.
  destruct l as [|a l]; [reflexivity |].
  unfold Rounding.rstddev, Spec.population_stddev.
  rewrite rmean_exact. unfold Rounding.rsquares. rewrite rmean_exact.
  reflexivity.
Qed.

(** C7, as stated, fails in binary64 on three samples of error 0.1: the
    population standard deviation of equal values is 0, so the score should
    be exactly 100, but the variance term that is computed is [2^-56] and
    the score is less than 100. *)
Lemma equal_errors_below_100 :
  (forall c : R, Spec.population_stddev [c; c; c] = 0) /\
  Float.gtb Float.binary64
    (Float.errorVariance _
       (Examples64.metrics (repeat (Examples64.dec 1 10) 3)))
    (Examples64.int 0) = true /\
  Float.ltb Float.binary64
    (Float.overallStabilityScore _
       (Examples64.metrics (repeat (Examples64.dec 1 10) 3)))
    (Examples64.int 100) = true.
Proof.
  split; [| split].
  - intros c. apply (population_stddev_repeat c 3).
  - vm_compute. reflexivity.
  - vm_compute. reflexivity.
Qed.

(** C7, amended.  The overall stability score is [max(0, 100 - v * 1000)]
    computed in floating point, [v] being the error-variance term: the
    population standard deviation of the per-sample errors (an absent error
    counting as 0) as the two-pass formula computes it, which in exact
    arithmetic is that standard deviation.  For every rounding of the
    standard model the term is not negative, the score lies in [[0, 100]],
    it is exactly 100 when the term is 0 (as it is when every error is 0 or
    absent), and a larger term never gives a larger score.  In binary64 the
    flights with errors 0, 0.02 and 0, 0.04 have the terms 0.01 and 0.02 and
    score 90 and 80, exactly 10 apart. *)
Theorem stability_score_formula
    (rnd : R -> R) (positions positions' : list Sample) :
  Rounding.StandardModel rnd ->
  let metrics l :=
    Float.calculateStabilityMetrics (Float.rounded rnd)
      (map (Rounding.sample rnd) l) in
  let v := Rounding.rstddev rnd (Spec.sample_errors positions) in
  let v' := Rounding.rstddev rnd (Spec.sample_errors positions') in
  Float.errorVariance _ (metrics positions) = Fin v /\
  Float.overallStabilityScore _ (metrics positions)
  = Fin (Rmax 0 (rnd (100 - rnd (v * 1000)))) /\
  0 <= v /\
  0 <= Rmax 0 (rnd (100 - rnd (v * 1000))) <= 100 /\
  (v = 0 -> Float.overallStabilityScore _ (metrics positions) = Fin 100) /\
  ((forall p, In p positions -> error p = None \/ error p = Some 0) ->
   v = 0) /\
  (v <= v' ->
   Rmax 0 (rnd (100 - rnd (v' * 1000)))
   <= Rmax 0 (rnd (100 - rnd (v * 1000)))) /\
  Rounding.rstddev (fun r => r) (Spec.sample_errors positions)
  = Spec.population_stddev (Spec.sample_errors positions) /\
  let a := Examples64.metrics [Examples64.int 0; Examples64.dec 2 100] in
  let b := Examples64.metrics [Examples64.int 0; Examples64.dec 4 100] in
  Float.errorVariance _ a = Examples64.dec 1 100 /\
  Float.errorVariance _ b = Examples64.dec 2 100 /\
  Float.overallStabilityScore _ a = Examples64.int 90 /\
  Float.overallStabilityScore _ b = Examples64.int 80 /\
  Float.sub Float.binary64 (Float.overallStabilityScore _ a)
    (Float.overallStabilityScore _ b) = Examples64.int 10.
Proof.
  intros model metrics v v'.
  destruct (stability_fields rnd model positions) as [Hv Hs].
  fold (metrics positions) in Hv, Hs. fold v in Hv, Hs.
  assert (Hv0 : 0 <= v) by apply (rstddev_nonneg rnd model).
  split; [exact Hv |]. split; [exact Hs |]. split; [exact Hv0 |].
  split; [apply (score_range rnd model v Hv0) |].
  split.
  { intros E. rewrite Hs, E. f_equal. apply (score_zero rnd model). }
  split.
  { intros H. apply (rstddev_zeros rnd model).
    intros e He. unfold Spec.sample_errors in He.
    apply in_map_iff in He as [p [<- Hp]].
    destruct (H p Hp) as [-> | ->]; reflexivity. }
  split; [apply (score_antitone rnd model) |].
  split; [apply rstddev_exact |].
  cbv zeta. repeat split; vm_compute; reflexivity.
Qed.

(** The amended C7 in exact arithmetic at a flight of two samples without
    errors and a flight with errors 0 and 0.02. *)
Lemma stability_score_formula_witness :
  Float.overallStabilityScore _
    (Float.calculateStabilityMetrics Float.exact
       (map (Rounding.sample (fun r => r))
          [Examples.sample_with_error 0; Examples.sample_with_error 0]))
  = Fin 100.
Proof.
  apply (stability_score_formula (fun r => r)
           [Examples.sample_with_error 0; Examples.sample_with_error 0]
           [Examples.sample_with_error 0; Examples.sample_with_error 0.02]
           exact_model).
  apply (stability_score_formula (fun r => r)
           [Examples.sample_with_error 0; Examples.sample_with_error 0]
           [Examples.sample_with_error 0; Examples.sample_with_error 0.02]
           exact_model).
  intros p [<-|[<-|[]]]; right; reflexivity.
Defined.

(** ** C9: calculateCorrelation *)

Section SelfProducts.

Variable A : Float.Arith.



End SelfProducts.





Section RoundedCorrelation.

Variable rnd : R -> R.
Hypothesis model : Rounding.StandardModel rnd.








End RoundedCorrelation.




(** ** calculateTrendSummary *)

Lemma last_map {A B : Type} (g : A -> B) (l : list A) (d : A) :
  last (map g l) (g d) = g (last l d).
Proof.
  induction l as [|a l IH]; [reflexivity |].
  destruct l as [|b l]; [reflexivity |].
  cbn [map last] in *. exact IH.
Qed.

(** X15.  [calculateTrendSummary] answers with a message for fewer than two
    points.  For more points with a positive first value it reports the
    number of points and, as the change, the last value relative to the
    first in percent as computed with three roundings; the trend is
    [improving] when the last value is at least 5.00001 percent above the
    first, [declining] when it is at least 5.00001 percent below, and
    [stable] when it is within 4.99999 percent of it.  This holds for every
    rounding of the standard model. *)
Theorem trend_summary_thresholds (rnd : R -> R) (values : list R) :
  Rounding.StandardModel rnd ->
  let result :=
    Float.calculateTrendSummary (Float.rounded rnd)
      (Rounding.trend_series rnd values) in
  ((length values < 2)%nat ->
   result = Float.Message _ "Insufficient data for trend analysis") /\
  (forall first rest,
     values = first :: rest -> rest <> [] ->
     let f := first in
     let l := last values first in
     0 < f ->
     exists s,
       result = Float.Summary _ s /\
       Float.totalDataPoints _ s = length values /\
       Float.overallChange _ s = Fin (Rounding.rchange rnd f l) /\
       (1.0500001 * f <= l -> Float.trend _ s = "improving"%string) /\
       (l <= 0.9499999 * f -> Float.trend _ s = "declining"%string) /\
       (0.9500001 * f <= l <= 1.0499999 * f ->
        Float.trend _ s = "stable"%string)).
Proof.
  intros model result. split.
  - intros Hlen. unfold result.
    destruct values as [|a [|b l]]; try reflexivity. cbn in Hlen. lia.
  - intros first rest E Hrest f l Hf.
    destruct rest as [|b rest']; [contradiction |].
    assert (El : Float.tp_value _
                   (last (Rounding.trend_series rnd values)
                      (Float.mkTrendPoint (A := Float.rounded rnd)
                         "2025-05-13" (Fin first) 1%nat 0))
                 = Fin l).
    { unfold Rounding.trend_series.
      rewrite (last_map
                 (fun v =>
                    Float.mkTrendPoint (A := Float.rounded rnd)
                      "2025-05-13" (Fin v) 1%nat 0)).
      reflexivity. }
    unfold result. rewrite E in *.
    cbn [Rounding.trend_series map Float.calculateTrendSummary].
    cbn [Rounding.trend_series map] in El.
    cbn [Float.tp_value]. rewrite El.
    rewrite rsub, rdiv by (unfold f in Hf; lra).
    cbn [Float.of_Z Float.rounded]. fold (Float.rounded rnd).
    rewrite rmul. fold (Rounding.rchange rnd first l). fold f.
    rewrite rgtb, rltb.
    eexists. split; [reflexivity |].
    cbn [Float.totalDataPoints Float.overallChange Float.trend].
    split; [cbn [length]; rewrite !length_map; reflexivity |].
    split; [reflexivity |].
    destruct (Rltb_lt 5 (Rounding.rchange rnd f l)) as [A1 A2].
    destruct (Rltb_lt (Rounding.rchange rnd f l) (-5)) as [B1 B2].
    split; [| split].
    + intros H.
      assert (5 < Rounding.rchange rnd f l)
        by (apply (change_above rnd model f l 1.0500001); lra).
      rewrite A2 by assumption. reflexivity.
    + intros H.
      assert (Rounding.rchange rnd f l < -5)
        by (apply (change_below rnd model f l 0.9499999); lra).
      destruct (Rltb 5 _); [specialize (A1 eq_refl); lra |].
      rewrite B2 by assumption. reflexivity.
    + intros [H1 H2].
      assert (Rounding.rchange rnd f l <= 5)
        by (apply (change_at_most rnd model f l 1.0499999); lra).
      assert (-5 <= Rounding.rchange rnd f l)
        by (apply (change_at_least rnd model f l 0.9500001); lra).
      destruct (Rltb 5 _); [specialize (A1 eq_refl); lra |].
      destruct (Rltb _ (-5)); [specialize (B1 eq_refl); lra |].
      reflexivity.
Qed.

(** X15 in exact arithmetic at the series 100, 106. *)
Lemma trend_summary_thresholds_witness :
  exists s,
    Float.calculateTrendSummary Float.exact
      (Rounding.trend_series (fun r => r) [100; 106])
    = Float.Summary _ s /\
    Float.trend _ s = "improving"%string.
Proof.
  destruct (trend_summary_thresholds (fun r => r) [100; 106] exact_model)
    as [_ H].
  destruct (H 100 [106] eq_refl ltac:(discriminate) ltac:(lra))
    as (s & Hs & _ & _ & Hi & _).
  exists s. split; [exact Hs |]. apply Hi. cbn [last]. lra.
Defined.

(** ** analyzeFlightPatterns *)

Section FlightPatterns.

Variable A : Float.Arith.

Lemma patterns_fields (flights : list (Float.Flight A)) :
  let p := Float.analyzeFlightPatterns A flights in
  let d := Float.trend_accuracy p in
  d = Float.calculateTrendDirection A
        (map (fun flight =>
                Float.mkDataPoint (Float.createdAt A flight)
                  (Float.overall_average A flight)) flights) /\
  Float.insights p
  = ((if String.eqb d "improving"
      then ["Flight accuracy is improving over time"%string]
      else if String.eqb d "declining"
      then ["Flight accuracy is declining - consider system maintenance"%string]
      else [])
     ++ Float.identifyCommonIssues A flights)%list /\
  Float.recommendations p
  = if String.eqb d "declining"
    then ["Review and recalibrate positioning sensors"%string] else [].
Proof.
  cbv zeta. unfold Float.analyzeFlightPatterns.
  set (dir := Float.calculateTrendDirection A
                (map (fun flight =>
                        Float.mkDataPoint (Float.createdAt A flight)
                          (Float.overall_average A flight)) flights)).
  destruct (String.eqb dir "improving") eqn:Ei.
  - cbn [Float.trend_accuracy Float.insights Float.recommendations].
    rewrite Ei. apply String.eqb_eq in Ei. rewrite Ei.
    repeat split; reflexivity.
  - destruct (String.eqb dir "declining") eqn:Ed;
      cbn [Float.trend_accuracy Float.insights Float.recommendations];
      rewrite Ei, Ed; repeat split; reflexivity.
Qed.

Lemma issues_cases (flights : list (Float.Flight A)) (issue : string) :
  In issue (Float.identifyCommonIssues A flights) ->
  issue = Routes.high_error_issue \/ issue = Routes.low_battery_issue.
Proof.
  unfold Float.identifyCommonIssues.
  destruct (Float.gtb A _ _), (Float.gtb A _ _); simpl; intuition.
Qed.

Lemma patterns_structure (flights : list (Float.Flight A)) :
  let p := Float.analyzeFlightPatterns A flights in
  (forall issue, In issue (Float.identifyCommonIssues A flights) ->
                 In issue (Float.insights p)) /\
  (Float.recommendations p <> []
   <-> Float.trend_accuracy p = "declining"%string) /\
  (In "Flight accuracy is improving over time"%string (Float.insights p)
   <-> Float.trend_accuracy p = "improving"%string) /\
  ((length flights < 2)%nat ->
   Float.insights p = Float.identifyCommonIssues A flights /\
   Float.recommendations p = []).
Proof.
  cbv zeta.
  destruct (patterns_fields flights) as (Hd & Hi & Hr).
  cbv zeta in Hd, Hi, Hr.
  set (p := Float.analyzeFlightPatterns A flights) in *.
  set (d := Float.trend_accuracy p) in *.
  assert (Hnot : ~ In "Flight accuracy is improving over time"%string
                   (Float.identifyCommonIssues A flights)).
  { intros H. apply issues_cases in H.
    destruct H as [H|H]; discriminate H. }
  split.
  { intros issue H. rewrite Hi. apply in_or_app. right. exact H. }
  split.
  { rewrite Hr. destruct (String.eqb d "declining") eqn:E.
    - apply String.eqb_eq in E. split; [intros _; exact E | discriminate].
    - apply String.eqb_neq in E. split; [intros H; contradiction H |].
      + reflexivity.
      + intros H. contradiction. }
  split.
  { rewrite Hi, in_app_iff. destruct (String.eqb d "improving") eqn:E.
    - apply String.eqb_eq in E. split; [intros _; exact E |].
      intros _. left. left. reflexivity.
    - apply String.eqb_neq in E.
      split; [| intros H; contradiction].
      intros [H|H]; [| contradiction].
      destruct (String.eqb d "declining"); [| contradiction].
      destruct H as [H|H]; [discriminate H | contradiction]. }
  intros Hshort.
  assert (E : d = "insufficient_data"%string).
  { rewrite Hd. unfold Float.calculateTrendDirection. rewrite length_map.
    apply Nat.ltb_lt in Hshort. rewrite Hshort. reflexivity. }
  rewrite Hi, Hr, E. split; reflexivity.
Qed.

End FlightPatterns.

(** X16.  In every arithmetic, [analyzeFlightPatterns] appends the common
    issues to its insights, recommends a recalibration exactly when the
    accuracy trend is [declining], and gives the common issues alone for
    fewer than two flights.  The accuracy trend is the trend of the average
    ERROR in list order: for every rounding of the standard model, with
    non-negative average errors and a positive mean error [fa] in the first
    half of the list, the insight [Flight accuracy is improving over time]
    is given when the mean error [sa] of the second half is at least 10.01
    percent larger and not when it is at most 9.99 percent larger; the
    recommendation is given when [sa] is at least 10.01 percent smaller and
    not when it is at most 9.99 percent smaller. *)
Theorem flight_patterns_insights
    (A : Float.Arith) (stored : list (Float.Flight A))
    (rnd : R -> R) (flights : list Routes.Flight) :
  Rounding.StandardModel rnd ->
  let p := Float.analyzeFlightPatterns A stored in
  (forall issue, In issue (Float.identifyCommonIssues A stored) ->
                 In issue (Float.insights p)) /\
  (Float.recommendations p <> []
   <-> Float.trend_accuracy p = "declining"%string) /\
  (In "Flight accuracy is improving over time"%string (Float.insights p)
   <-> Float.trend_accuracy p = "improving"%string) /\
  ((length stored < 2)%nat ->
   Float.insights p = Float.identifyCommonIssues A stored /\
   Float.recommendations p = []) /\
  let q :=
    Float.analyzeFlightPatterns (Float.rounded rnd)
      (map (Rounding.flight rnd) flights) in
  let errors := map Routes.overall_average flights in
  let fa := Spec.mean (Spec.first_half errors) in
  let sa := Spec.mean (Spec.second_half errors) in
  ((2 <= length flights)%nat -> INR (length flights) <= 2 ^ 32 ->
   (forall e, In e errors -> 0 <= e) -> 0 < fa ->
   (1.1001 * fa <= sa ->
    In "Flight accuracy is improving over time"%string
      (Float.insights q)) /\
   (sa <= 1.0999 * fa ->
    ~ In "Flight accuracy is improving over time"%string
        (Float.insights q)) /\
   (sa <= 0.8999 * fa -> Float.recommendations q <> []) /\
   (0.9001 * fa <= sa -> Float.recommendations q = [])).
Proof.
  intros model p.
  destruct (patterns_structure A stored) as (S1 & S2 & S3 & S4).
  split; [exact S1 |]. split; [exact S2 |]. split; [exact S3 |].
  split; [exact S4 |].
  intros q errors fa sa Hlen Hmax Hnn Hfa.
  destruct (patterns_structure (Float.rounded rnd)
              (map (Rounding.flight rnd) flights)) as (_ & Q2 & Q3 & _).
  fold q in Q2, Q3.
  destruct (patterns_fields (Float.rounded rnd)
              (map (Rounding.flight rnd) flights)) as (Hd & _ & _).
  cbv zeta in Hd. fold q in Hd.
  assert (Es : map (fun flight =>
                      Float.mkDataPoint
                        (Float.createdAt (Float.rounded rnd) flight)
                        (Float.overall_average (Float.rounded rnd) flight))
                 (map (Rounding.flight rnd) flights)
               = map (fun f =>
                        Float.mkDataPoint (A := Float.rounded rnd)
                          (Routes.createdAt f)
                          (Fin (Routes.overall_average f))) flights).
  { rewrite map_map. reflexivity. }
  rewrite Es in Hd.
  (* the dates play no part in the direction *)
  assert (Ed : Float.trend_accuracy q
               = Float.calculateTrendDirection (Float.rounded rnd)
                   (Rounding.series rnd errors)).
  { rewrite Hd. unfold Float.calculateTrendDirection, Float.changePercent,
      Float.half_average, Float.sum_values.
    unfold Rounding.series, errors. rewrite !length_map.
    rewrite !firstn_map, !skipn_map, !length_map.
    assert (Hsum : forall (l : list Routes.Flight) acc,
               fold_left
                 (fun sum point =>
                    Float.add (Float.rounded rnd) sum
                      (Float.value (Float.rounded rnd) point))
                 (map (fun f =>
                         Float.mkDataPoint (A := Float.rounded rnd)
                           (Routes.createdAt f)
                           (Fin (Routes.overall_average f))) l) acc
               = fold_left
                   (fun sum point =>
                      Float.add (Float.rounded rnd) sum
                        (Float.value (Float.rounded rnd) point))
                   (map (fun v =>
                           Float.mkDataPoint (A := Float.rounded rnd) 0
                             (Fin v))
                      (map Routes.overall_average l)) acc).
    { induction l as [|f l IH]; intros acc; [reflexivity |].
      cbn [map fold_left Float.value]. apply IH. }
    rewrite !Hsum. reflexivity. }
  assert (Hlen' : (2 <= length errors)%nat)
    by (unfold errors; rewrite length_map; exact Hlen).
  assert (Hmax' : INR (length errors) <= 2 ^ 32)
    by (unfold errors; rewrite length_map; exact Hmax).
  destruct (direction_margins rnd model errors Hlen' Hmax' Hnn Hfa)
    as (D1 & D2 & D3 & D4).
  fold fa sa in D1, D2, D3, D4. rewrite <- Ed in D1, D2, D3, D4.
  split; [| split; [| split]].
  - intros H. apply Q3, D1, H.
  - intros H Hin. apply Q3 in Hin. exact (D2 H Hin).
  - intros H. apply Q2, D3, H.
  - intros H.
    destruct (Float.recommendations q) as [|r l] eqn:Er; [reflexivity |].
    exfalso. apply (D4 H). apply Q2. discriminate.
Qed.

(** X16 in exact arithmetic at two flights with the average errors 0.05 and
    0.2. *)
Lemma flight_patterns_insights_witness :
  In "Flight accuracy is improving over time"%string
    (Float.insights
       (Float.analyzeFlightPatterns Float.exact
          (map (Rounding.flight (fun r => r))
             [Examples.flight_with 0.05 None;
              Examples.flight_with 0.2 None]))).
Proof.
  apply (flight_patterns_insights Float.exact []
           (fun r => r)
           [Examples.flight_with 0.05 None; Examples.flight_with 0.2 None]
           exact_model).
  - cbn [length]. lia.
  - cbn [length INR]. rewrite (pow_IZR 2 32).
    change (2 ^ Z.of_nat 32)%Z with 4294967296%Z. lra.
  - intros e [<-|[<-|[]]]; cbn; lra.
  - unfold Spec.mean, Spec.first_half, Spec.total. cbn. lra.
  - unfold Spec.mean, Spec.first_half, Spec.second_half, Spec.total.
    cbn. lra.
Defined.

(** ** The quality grade *)

Section QualityGrade.

Variable rnd : R -> R.
Hypothesis model : Rounding.StandardModel rnd.

Lemma rleb (a b : R) :
  Float.leb (Float.rounded rnd) (Fin a) (Fin b) = Rleb a b.
Proof.
  cbn [Float.leb Float.rounded]. unfold Float.num_leb, JSNum.ltb, JSNum.eqb.
  unfold Rltb, Reqb, Rleb.
  destruct (Rlt_dec a b), (Req_dec_T a b), (Rle_dec a b);
    try reflexivity; exfalso; lra.
Qed.

Lemma rmin (a b : R) :
  Float.min (Float.rounded rnd) (Fin a) (Fin b) = Fin (Rmin a b).
Proof.
  unfold Float.min, Float.is_nan. cbn [Float.eqb Float.ltb Float.rounded].
  unfold JSNum.eqb, JSNum.ltb, Reqb, Rltb.
  destruct (Req_dec_T a a) as [_|H]; [| contradiction].
  destruct (Req_dec_T b b) as [_|H]; [| contradiction].
  cbn [negb orb]. unfold Rmin.
  destruct (Rlt_dec b a), (Rle_dec a b); try reflexivity; lra.
Qed.

(** The score before the clamping: [100 - avgError * 1000] with its two
    roundings. *)
Lemma accuracyScore_value (avg : R) :
  Float.accuracyScore (Float.rounded rnd) (Fin avg)
  = Fin (Rmin 100 (Rmax 0 (rnd (100 - rnd (avg * 1000))))).
Proof.
  unfold Float.accuracyScore, Float.zero.
  cbn [Float.of_Z Float.rounded]. fold (Float.rounded rnd).
  rewrite rmul, rsub, rmax, rmin. reflexivity.
Qed.

Lemma qualityGrade_value (avg : R) :
  Float.qualityGrade (Float.rounded rnd) (Fin avg)
  = UAVDataProcessor.assignQualityGrade
      (Rmin 100 (Rmax 0 (rnd (100 - rnd (avg * 1000))))).
Proof.
  unfold Float.qualityGrade. rewrite accuracyScore_value.
  unfold Float.assignQualityGrade, UAVDataProcessor.assignQualityGrade.
  cbn [Float.of_Z Float.rounded]. fold (Float.rounded rnd).
  rewrite !rleb. reflexivity.
Qed.

(** One threshold [c] of the product [avgError * 1000], for the score
    [100 - c]. *)
Lemma grade_step (c avg : R) :
  rnd c = c -> rnd (100 - c) = 100 - c -> 10 <= c <= 40 ->
  let w := rnd (100 - rnd (avg * 1000)) in
  (avg * 1000 <= c -> 100 - c <= w) /\
  (c * 1.000000000001 <= avg * 1000 -> w < 100 - c).
Proof.
  intros Hc Hc' Hr w. split.
  - intros H. unfold w. rewrite <- Hc'.
    apply (Rounding.rnd_mono rnd model).
    assert (rnd (avg * 1000) <= c).
    { rewrite <- Hc. apply (Rounding.rnd_mono rnd model). exact H. }
    lra.
  - intros H.
    assert (Ht : c * 1.000000000001 * (1 - / 1000000000000000)
                 <= rnd (avg * 1000)).
    { eapply Rle_trans;
        [| apply (Rounding.rnd_mono rnd model), H].
      apply (rnd_close rnd model). lra. }
    unfold w. set (t := rnd (avg * 1000)) in *.
    destruct (Rle_dec 0 (100 - t)) as [Hp|Hn].
    + pose proof (rnd_close rnd model (100 - t) Hp) as [_ H2]. lra.
    + assert (rnd (100 - t) <= 0)
        by (apply (rnd_nonpos rnd model); lra).
      lra.
Qed.

End QualityGrade.

(** X7.  The grade of the quality assessment depends on the average error
    only.  For every rounding of the standard model it is A up to an average
    error of 0.01, B from there up to 0.02, C up to 0.03, D up to 0.04 and F
    above, where an error within one part in [10^12] above a threshold may
    still get the better grade; and the accuracy score that is graded lies
    in [[0, 100]]. *)
Theorem quality_grade_thresholds (rnd : R -> R) (avg : R) :
  Rounding.StandardModel rnd ->
  let grade := Float.qualityGrade (Float.rounded rnd) (Fin avg) in
  let above t := t * 1.000000000001 <= avg in
  (avg <= 0.01 -> grade = "A"%string) /\
  (above 0.01 -> avg <= 0.02 -> grade = "B"%string) /\
  (above 0.02 -> avg <= 0.03 -> grade = "C"%string) /\
  (above 0.03 -> avg <= 0.04 -> grade = "D"%string) /\
  (above 0.04 -> grade = "F"%string) /\
  exists score,
    Float.accuracyScore (Float.rounded rnd) (Fin avg) = Fin score /\
    0 <= score <= 100.
Proof.
  intros model grade above.
  assert (Hint : forall k : Z, (Z.abs k <= 100)%Z -> rnd (IZR k) = IZR k).
  { intros k Hk. apply (rnd_small_int rnd model). lia. }
  pose proof (grade_step rnd model 10 avg (Hint 10%Z ltac:(lia))) as G10.
  pose proof (grade_step rnd model 20 avg (Hint 20%Z ltac:(lia))) as G20.
  pose proof (grade_step rnd model 30 avg (Hint 30%Z ltac:(lia))) as G30.
  pose proof (grade_step rnd model 40 avg (Hint 40%Z ltac:(lia))) as G40.
  replace (100 - 10) with 90 in G10 by lra.
  replace (100 - 20) with 80 in G20 by lra.
  replace (100 - 30) with 70 in G30 by lra.
  replace (100 - 40) with 60 in G40 by lra.
  specialize (G10 (Hint 90%Z ltac:(lia)) ltac:(lra)).
  specialize (G20 (Hint 80%Z ltac:(lia)) ltac:(lra)).
  specialize (G30 (Hint 70%Z ltac:(lia)) ltac:(lra)).
  specialize (G40 (Hint 60%Z ltac:(lia)) ltac:(lra)).
  cbv zeta in G10, G20, G30, G40.
  destruct G10 as [A10 B10], G20 as [A20 B20], G30 as [A30 B30],
    G40 as [A40 B40].
  unfold grade, above. rewrite (qualityGrade_value rnd).
  set (w := rnd (100 - rnd (avg * 1000))) in *.
  assert (Hs : forall c, 0 < c <= 100 ->
                 (c <= w -> c <= Rmin 100 (Rmax 0 w)) /\
                 (w < c -> Rmin 100 (Rmax 0 w) < c)).
  { intros c Hc. unfold Rmin, Rmax.
    destruct (Rle_dec 0 w); destruct (Rle_dec 100 w);
      try destruct (Rle_dec 100 0); split; intros; lra. }
  assert (Hr : 0 <= Rmin 100 (Rmax 0 w) <= 100).
  { unfold Rmin, Rmax.
    destruct (Rle_dec 0 w); destruct (Rle_dec 100 w);
      try destruct (Rle_dec 100 0); lra. }
  destruct (Hs 90 ltac:(lra)) as [S90 T90].
  destruct (Hs 80 ltac:(lra)) as [S80 T80].
  destruct (Hs 70 ltac:(lra)) as [S70 T70].
  destruct (Hs 60 ltac:(lra)) as [S60 T60].
  set (s := Rmin 100 (Rmax 0 w)) in *.
  unfold UAVDataProcessor.assignQualityGrade, Rleb.
  repeat split.
  - intros H. specialize (S90 (A10 ltac:(lra))).
    destruct (Rle_dec 90 s); [reflexivity | lra].
  - intros H1 H2. specialize (T90 (B10 ltac:(lra))).
    specialize (S80 (A20 ltac:(lra))).
    destruct (Rle_dec 90 s); [lra |].
    destruct (Rle_dec 80 s); [reflexivity | lra].
  - intros H1 H2. specialize (T80 (B20 ltac:(lra))).
    specialize (S70 (A30 ltac:(lra))).
    destruct (Rle_dec 90 s); [lra |].
    destruct (Rle_dec 80 s); [lra |].
    destruct (Rle_dec 70 s); [reflexivity | lra].
  - intros H1 H2. specialize (T70 (B30 ltac:(lra))).
    specialize (S60 (A40 ltac:(lra))).
    destruct (Rle_dec 90 s); [lra |].
    destruct (Rle_dec 80 s); [lra |].
    destruct (Rle_dec 70 s); [lra |].
    destruct (Rle_dec 60 s); [reflexivity | lra].
  - intros H1. specialize (T60 (B40 ltac:(lra))).
    destruct (Rle_dec 90 s); [lra |].
    destruct (Rle_dec 80 s); [lra |].
    destruct (Rle_dec 70 s); [lra |].
    destruct (Rle_dec 60 s); [lra | reflexivity].
  - exists s. split; [| exact Hr].
    unfold s, w. apply (accuracyScore_value rnd).
Qed.

(** X7 in exact arithmetic at an average error of 0.025. *)
Lemma quality_grade_thresholds_witness :
  Float.qualityGrade Float.exact (Fin 0.025) = "C"%string.
Proof.
  apply (quality_grade_thresholds (fun r => r) 0.025 exact_model); lra.
Defined.

(** ** calculateStats *)

Section RoundedStats.

Variable rnd : R -> R.
Hypothesis model : Rounding.StandardModel rnd.

(** The comparator [a - b] has the sign of the exact difference, so the
    sort is the sort of the real numbers. *)
Lemma insert_sorted_reals (a : R) (sorted : list R) :
  Float.insert_sorted (Float.rounded rnd) (Fin a) (Rounding.reals rnd sorted)
  = Rounding.reals rnd (UAVDataProcessor.insert_sorted a sorted).
Proof.
  induction sorted as [|h t IH]; [reflexivity |].
  cbn [Rounding.reals map Float.insert_sorted UAVDataProcessor.insert_sorted].
  rewrite rsub. unfold Float.zero. cbn [Float.of_Z Float.rounded].
  fold (Float.rounded rnd). rewrite rgtb.
  unfold UAVDataProcessor.compare_numbers.
  assert (E : Rltb 0 (rnd (a - h)) = Rltb 0 (a - h)).
  { unfold Rltb.
    destruct (Rlt_dec 0 (a - h)) as [H|H], (Rlt_dec 0 (rnd (a - h)))
      as [H'|H']; try reflexivity; exfalso.
    - apply H'. apply (rnd_pos rnd model). exact H.
    - assert (rnd (a - h) <= 0) by (apply (rnd_nonpos rnd model); lra).
      lra. }
  rewrite E. destruct (Rltb 0 (a - h)).
  - fold (Rounding.reals rnd t). rewrite IH. reflexivity.
  - reflexivity.
Qed.

Lemma sort_numbers_reals (values : list R) :
  Float.sort_numbers (Float.rounded rnd) (Rounding.reals rnd values)
  = Rounding.reals rnd (UAVDataProcessor.sort_numbers values).
Proof.
  induction values as [|a l IH]; [reflexivity |].
  cbn [Rounding.reals map Float.sort_numbers fold_right
         UAVDataProcessor.sort_numbers].
  fold (Rounding.reals rnd l).
  change (fold_right (Float.insert_sorted (Float.rounded rnd)) []
            (Rounding.reals rnd l))
    with (Float.sort_numbers (Float.rounded rnd) (Rounding.reals rnd l)).
  rewrite IH. apply insert_sorted_reals.
Qed.

Lemma at_index_reals (l : list R) (i : nat) :
  Float.at_index (Float.rounded rnd) (Rounding.reals rnd l) i
  = Fin (nth i l 0).
Proof.
  unfold Float.at_index, Rounding.reals, Float.zero.
  cbn [Float.of_Z Float.rounded].
  change (Fin 0) with (Fin (IZR 0)). apply (map_nth Fin).
Qed.

Lemma calculateStats_reals (values : list R) :
  values <> [] ->
  let sorted := UAVDataProcessor.sort_numbers values in
  let s :=
    Float.calculateStats (Float.rounded rnd) (Rounding.reals rnd values) in
  Float.average _ s = Fin (Rounding.rmean rnd values) /\
  Float.median _ s = Fin (nth (length values / 2) sorted 0) /\
  Float.min_value _ s = Fin (nth 0 sorted 0) /\
  Float.max_value _ s = Fin (nth (length values - 1) sorted 0).
Proof.
  intros Hne sorted s. unfold s, Float.calculateStats.
  assert (Hl : length (Rounding.reals rnd values) = length values)
    by (unfold Rounding.reals; apply length_map).
  rewrite Hl. destruct (Nat.eqb_spec (length values) 0) as [E|E].
  { destruct values; [contradiction | discriminate]. }
  cbn [Float.average Float.median Float.min_value Float.max_value].
  rewrite sort_numbers_reals, !at_index_reals.
  unfold Rounding.reals at 2 3. rewrite length_map.
  rewrite sort_numbers_length.
  repeat split; try reflexivity.
  unfold Float.sum_list, Float.zero. cbn [Float.of_Z Float.rounded].
  fold (Float.rounded rnd). rewrite sum_list_reals.
  unfold Float.of_nat. cbn [Float.of_Z Float.rounded].
  rewrite <- INR_IZR_INZ. fold (Float.rounded rnd).
  rewrite rdiv by (apply not_0_INR; exact E). reflexivity.
Qed.

End RoundedStats.

(** X1.  For every rounding of the standard model and every non-empty
    sequence of at most [2^32] numbers, [min] and [max] of [calculateStats]
    are values of the sequence that bound every value, and the median is a
    value of the sequence between them.  The average is the rounded sum
    divided by the length: for non-negative values it lies between [min] and
    [max] up to two parts in a million, and it can exceed [max] (in binary64
    the average of 0.1, 0.1, 0.1 is 0.10000000000000002). *)
Theorem stats_bounds (rnd : R -> R) (values : list R) :
  Rounding.StandardModel rnd ->
  values <> [] -> INR (length values) <= 2 ^ 32 ->
  let s :=
    Float.calculateStats (Float.rounded rnd) (Rounding.reals rnd values) in
  exists avg med lo hi,
    Float.average _ s = Fin avg /\ Float.median _ s = Fin med /\
    Float.min_value _ s = Fin lo /\ Float.max_value _ s = Fin hi /\
    (forall v, In v values -> lo <= v <= hi) /\
    In lo values /\ In hi values /\ In med values /\
    lo <= med <= hi /\
    avg = Rounding.rmean rnd values /\
    ((forall v, In v values -> 0 <= v) ->
     lo * (1 - / 500000) <= avg <= hi * (1 + / 500000)) /\
    Float.gtb Float.binary64
      (Float.average _
         (Float.calculateStats Float.binary64
            (repeat (Examples64.dec 1 10) 3)))
      (Float.max_value _
         (Float.calculateStats Float.binary64
            (repeat (Examples64.dec 1 10) 3))) = true.
Proof.
  intros model Hne Hmax s.
  destruct (calculateStats_reals rnd model values Hne)
    as (Ha & Hm & Hlo & Hhi).
  fold s in Ha, Hm, Hlo, Hhi.
  set (sorted := UAVDataProcessor.sort_numbers values) in *.
  assert (Hlen : length sorted = length values)
    by apply sort_numbers_length.
  assert (Hn : (0 < length values)%nat)
    by (destruct values; [contradiction | simpl; lia]).
  assert (Hss : StronglySorted Rle sorted).
  { apply Sorted_StronglySorted;
      [exact Rle_transitive | apply sort_numbers_sorted]. }
  assert (Hperm : Permutation sorted values) by apply sort_numbers_perm.
  assert (Hin : forall i, (i < length values)%nat ->
                          In (nth i sorted 0) values).
  { intros i Hi. apply (Permutation_in _ Hperm), nth_In. lia. }
  assert (Hb : forall v, In v values ->
                 nth 0 sorted 0 <= v <= nth (length values - 1) sorted 0).
  { intros v Hv. apply (Permutation_in _ (Permutation_sym Hperm)) in Hv.
    destruct (In_nth _ _ 0 Hv) as (i & Hi & <-).
    split; apply sorted_nth_le; try exact Hss; lia. }
  assert (Hhalf : (length values / 2 < length values)%nat)
    by (apply Nat.div_lt; lia).
  exists (Rounding.rmean rnd values), (nth (length values / 2) sorted 0),
    (nth 0 sorted 0), (nth (length values - 1) sorted 0).
  split; [exact Ha |]. split; [exact Hm |]. split; [exact Hlo |].
  split; [exact Hhi |]. split; [exact Hb |].
  split; [apply Hin; lia |]. split; [apply Hin; lia |].
  split; [apply Hin; exact Hhalf |].
  split; [apply Hb, Hin; exact Hhalf |].
  split; [reflexivity |].
  split; [| vm_compute; reflexivity].
  intros Hnn.
  pose proof (rmean_close rnd model values Hnn Hne Hmax) as [M1 M2].
  pose proof (mean_between _ _ values Hne Hb) as [B1 B2].
  assert (0 <= nth 0 sorted 0) by (apply Hnn, Hin; lia).
  lra.
Qed.

(** X1 in exact arithmetic at the sequence 0.1, 0.2, 0.3. *)
Lemma stats_bounds_witness :
  exists lo,
    Float.min_value _
      (Float.calculateStats Float.exact
         (Rounding.reals (fun r => r) [0.1; 0.2; 0.3])) = Fin lo /\
    In lo [0.1; 0.2; 0.3].
Proof.
  destruct (stats_bounds (fun r => r) [0.1; 0.2; 0.3] exact_model)
    as (avg & med & lo & hi & _ & _ & Hlo & _ & _ & Hin & _).
  - discriminate.
  - cbn [length INR]. rewrite (pow_IZR 2 32).
    change (2 ^ Z.of_nat 32)%Z with 4294967296%Z. lra.
  - exists lo. split; assumption.
Defined.

(** ** calculatePathAccuracy *)

Section RoundedAccuracy.

Variable rnd : R -> R.
Hypothesis model : Rounding.StandardModel rnd.

Lemma infinity_value : Float.infinity (Float.rounded rnd) = PosInf.
Proof.
  unfold Float.infinity, Float.zero. cbn [Float.div Float.of_Z Float.rounded].
  unfold JSNum.div. destruct (Req_dec_T 0 0) as [_|H]; [| contradiction].
  unfold by_sign. destruct (Rlt_dec 0 1); [reflexivity | lra].
Qed.

Lemma min_list_reals (e : R) (l : list R) :
  Float.min_list (Float.rounded rnd) (Rounding.reals rnd (e :: l))
  = Fin (fold_left Rmin l e).
Proof.
  unfold Float.min_list. rewrite infinity_value.
  cbn [Rounding.reals map fold_left].
  assert (E : Float.min (Float.rounded rnd) PosInf (Fin e) = Fin e).
  { unfold Float.min, Float.is_nan. cbn [Float.eqb Float.ltb Float.rounded].
    unfold JSNum.eqb, JSNum.ltb, Reqb.
    destruct (Req_dec_T e e) as [_|H]; [reflexivity | contradiction]. }
  rewrite E. clear E. revert e.
  induction l as [|w l IH]; intros e; [reflexivity |].
  cbn [map fold_left]. rewrite rmin. apply IH.
Qed.

Lemma accuracy_fold_rounded (positions : list Sample) :
  forall (st : Float.AccuracyAcc (Float.rounded rnd)) (t m : R),
    Float.acc_totalDeviation _ st = Fin t ->
    Float.acc_maxDeviation _ st = Fin m ->
    let st' :=
      fold_left (Float.accuracy_step (Float.rounded rnd))
        (map (Rounding.sample rnd) positions) st in
    let es := UAVDataProcessor.defined_errors positions in
    Float.acc_errors _ st'
    = (Float.acc_errors _ st ++ Rounding.reals rnd es)%list /\
    Float.acc_totalDeviation _ st'
    = Fin (fold_left (fun sum val => rnd (sum + val)) es t) /\
    Float.acc_maxDeviation _ st' = Fin (fold_left Rmax es m).
Proof.
  induction positions as [|pos l IH]; intros st t m Ht Hm; cbv zeta.
  - cbn [map fold_left UAVDataProcessor.defined_errors flat_map
           Rounding.reals].
    rewrite app_nil_r. repeat split; assumption.
  - cbn [map fold_left UAVDataProcessor.defined_errors flat_map].
    fold (UAVDataProcessor.defined_errors l).
    set (st1 := Float.accuracy_step (Float.rounded rnd) st
                  (Rounding.sample rnd pos)).
    assert (Hstep :
              let es := match error pos with Some e => [e] | None => [] end in
              Float.acc_errors _ st1
              = (Float.acc_errors _ st ++ Rounding.reals rnd es)%list /\
              Float.acc_totalDeviation _ st1
              = Fin (fold_left (fun sum val => rnd (sum + val)) es t) /\
              Float.acc_maxDeviation _ st1 = Fin (fold_left Rmax es m)).
    { unfold st1, Float.accuracy_step, Rounding.sample.
      cbn [Float.error Float.error_xy Float.error_z].
      destruct (error pos) as [e|], (error_xy pos), (error_z pos);
        cbn [option_map Float.acc_errors Float.acc_totalDeviation
               Float.acc_maxDeviation fold_left Rounding.reals map];
        rewrite ?app_nil_r, ?Ht, ?Hm, ?radd, ?rgtb;
        (split; [reflexivity |]); (split; [reflexivity |]);
        try reflexivity;
        unfold Rltb, Rmax;
        destruct (Rlt_dec m e), (Rle_dec m e);
        try reflexivity; try lra; f_equal; lra. }
    cbv zeta in Hstep. destruct Hstep as (S1 & S2 & S3).
    destruct (IH st1 _ _ S2 S3) as (H1 & H2 & H3).
    rewrite H1, H2, H3, S1.
    unfold Rounding.reals. rewrite map_app, <- app_assoc, !fold_left_app.
    repeat split; reflexivity.
Qed.

Lemma defined_errors_length (positions : list Sample) :
  (length (UAVDataProcessor.defined_errors positions)
   <= length positions)%nat.
Proof.
  induction positions as [|p l IH]; [cbn; lia |].
  cbn [UAVDataProcessor.defined_errors flat_map length].
  fold (UAVDataProcessor.defined_errors l).
  rewrite length_app. destruct (error p); cbn [length]; lia.
Qed.

End RoundedAccuracy.

(** X2.  For every rounding of the standard model,
    [calculatePathAccuracy] counts the samples that have an error; [maxError]
    is 0 or one of these errors and none of them exceeds it; [minError] is a
    finite number that none of them is below and, when there is one, one of
    them; the average is 0 without errors and the rounded sum of the errors
    divided by their number otherwise, which for non-negative errors of at
    most [2^32] samples lies between [minError] and [maxError] up to two
    parts in a million. *)
Theorem path_accuracy_bounds (rnd : R -> R) (positions : list Sample) :
  Rounding.StandardModel rnd ->
  INR (length positions) <= 2 ^ 32 ->
  let pa :=
    Float.calculatePathAccuracy (Float.rounded rnd)
      (map (Rounding.sample rnd) positions) in
  let errors := UAVDataProcessor.defined_errors positions in
  Float.pa_totalPoints _ pa = length errors /\
  exists avg hi lo,
    Float.averageError _ pa = Fin avg /\
    Float.maxError _ pa = Fin hi /\
    Float.minError _ pa = Fin lo /\
    (errors = [] -> avg = 0) /\
    (errors <> [] -> avg = Rounding.rmean rnd errors) /\
    0 <= hi /\
    (forall e, In e errors -> e <= hi) /\
    (hi = 0 \/ In hi errors) /\
    (forall e, In e errors -> lo <= e) /\
    (errors <> [] -> In lo errors) /\
    ((forall e, In e errors -> 0 <= e) ->
     lo * (1 - / 500000) <= avg <= hi * (1 + / 500000)).
Proof.
  intros model Hmax pa errors.
  destruct (accuracy_fold_rounded rnd positions
              (Float.mkAccuracyAcc (Float.rounded rnd) [] [] []
                 (Float.zero _) (Float.zero _)) 0 0 eq_refl eq_refl)
    as (H1 & H2 & H3).
  cbn [Float.acc_errors app] in H1. fold errors in H1, H2, H3.
  unfold pa, Float.calculatePathAccuracy.
  cbn [Float.pa_totalPoints Float.averageError Float.maxError
         Float.minError].
  rewrite H1, H2, H3.
  assert (Hl : length (Rounding.reals rnd errors) = length errors)
    by (unfold Rounding.reals; apply length_map).
  rewrite Hl. split; [reflexivity |].
  destruct (fold_Rmax_spec errors 0) as (M0 & Mall & Min).
  assert (Hne : nonempty (Rounding.reals rnd errors) = nonempty errors)
    by (unfold nonempty; rewrite Hl; reflexivity).
  rewrite Hne.
  destruct errors as [|e l] eqn:E.
  - cbn [nonempty length Nat.ltb Nat.leb fold_left].
    exists 0, 0, 0. repeat split; try reflexivity; try contradiction;
      try lra.
  - cbn [nonempty length Nat.ltb Nat.leb].
    unfold Float.of_nat. cbn [Float.of_Z Float.rounded].
    fold (Float.rounded rnd).
    rewrite <- INR_IZR_INZ, rdiv
      by (apply not_0_INR; discriminate).
    rewrite min_list_reals.
    destruct (fold_Rmin_spec l e) as (m1 & m2 & m3).
    assert (Hle : forall v, In v (e :: l) -> fold_left Rmin l e <= v).
    { intros v [<-|Hv]; [exact m1 | apply m2, Hv]. }
    exists (Rounding.rmean rnd (e :: l)), (fold_left Rmax (e :: l) 0),
      (fold_left Rmin l e).
    split; [reflexivity |]. split; [reflexivity |]. split; [reflexivity |].
    split; [discriminate |]. split; [reflexivity |].
    split; [exact M0 |]. split; [exact Mall |]. split; [exact Min |].
    split; [exact Hle |].
    split.
    { intros _. destruct m3 as [-> | Hin];
        [left; reflexivity | right; exact Hin]. }
    intros Hnn.
    assert (Hlen : INR (length (e :: l)) <= 2 ^ 32).
    { eapply Rle_trans; [| exact Hmax]. apply le_INR.
      rewrite <- E. apply defined_errors_length. }
    pose proof (rmean_close rnd model (e :: l) Hnn ltac:(discriminate) Hlen)
      as [A1 A2].
    assert (Hb : forall v, In v (e :: l) ->
                   fold_left Rmin l e <= v <= fold_left Rmax (e :: l) 0).
    { intros v Hv. split; [apply Hle, Hv | apply Mall, Hv]. }
    pose proof (mean_between _ _ (e :: l) ltac:(discriminate) Hb)
      as [B1 B2].
    assert (0 <= fold_left Rmin l e).
    { destruct m3 as [-> | Hin]; apply Hnn; [left; reflexivity |].
      right. exact Hin. }
    lra.
Qed.

(** X2 in exact arithmetic at two samples with the errors 0.01 and 0.03. *)
Lemma path_accuracy_bounds_witness :
  Float.pa_totalPoints _
    (Float.calculatePathAccuracy Float.exact
       (map (Rounding.sample (fun r => r))
          [Examples.sample_with_error 0.01;
           Examples.sample_with_error 0.03])) = 2%nat.
Proof.
  apply (path_accuracy_bounds (fun r => r)
           [Examples.sample_with_error 0.01; Examples.sample_with_error 0.03]
           exact_model).
  cbn [length INR]. rewrite (pow_IZR 2 32).
  change (2 ^ Z.of_nat 32)%Z with 4294967296%Z. lra.
Defined.

(** ** calculateActualDistance *)

Lemma sqrt_scale_up (S t : R) :
  0 <= S -> 1 <= t -> R_sqrt.sqrt (S * t) <= R_sqrt.sqrt S * t.
Proof.
  intros HS Ht. rewrite sqrt_mult by lra.
  apply Rmult_le_compat_l; [apply sqrt_pos |].
  destruct (Rtotal_order t 1) as [H1|[->|H1]];
    [lra | rewrite sqrt_1; lra |].
  apply Rlt_le, sqrt_less; lra.
Qed.

Lemma sqrt_scale_down (S t : R) :
  0 <= S -> 0 <= t <= 1 -> R_sqrt.sqrt S * t <= R_sqrt.sqrt (S * t).
Proof.
  intros HS Ht. rewrite sqrt_mult by lra.
  apply Rmult_le_compat_l; [apply sqrt_pos |].
  destruct (Rtotal_order t 0) as [H0|[->|H0]];
    [lra | rewrite sqrt_0; lra |].
  destruct (Rtotal_order t 1) as [H1|[->|H1]];
    [| rewrite sqrt_1; lra | lra].
  apply Rlt_le, sqrt_more; lra.
Qed.

Section RoundedDistance.

Variable rnd : R -> R.
Hypothesis model : Rounding.StandardModel rnd.

(** The rounded square of a rounded difference. *)
Lemma square_close (t : R) :
  t * t * (1 - / 100000000000000)
  <= rnd (rnd t * rnd t)
  <= t * t * (1 + / 100000000000000).
Proof.
  assert (H : forall s, 0 <= s ->
                s * s * (1 - / 100000000000000)
                <= rnd (rnd s * rnd s)
                <= s * s * (1 + / 100000000000000)).
  { intros s Hs.
    pose proof (rnd_close rnd model s Hs) as [A1 A2].
    pose proof (rnd_nonneg rnd model s Hs) as A0.
    set (a := rnd s) in *.
    assert (Haa : 0 <= a * a) by (apply Rmult_le_pos; assumption).
    pose proof (rnd_close rnd model (a * a) Haa) as [B1 B2].
    assert (Hss : 0 <= s * s) by (apply Rmult_le_pos; assumption).
    assert (L : s * s * (1 - / 400000000000000) <= a * a).
    { apply Rle_trans
        with (s * (1 - / 1000000000000000) * (s * (1 - / 1000000000000000))).
      - replace (s * (1 - / 1000000000000000)
                 * (s * (1 - / 1000000000000000)))
          with (s * s * ((1 - / 1000000000000000)
                         * (1 - / 1000000000000000))) by ring.
        apply Rmult_le_compat_l; lra.
      - apply Rmult_le_compat; lra. }
    assert (U : a * a <= s * s * (1 + / 400000000000000)).
    { apply Rle_trans
        with (s * (1 + / 1000000000000000) * (s * (1 + / 1000000000000000))).
      - apply Rmult_le_compat; lra.
      - replace (s * (1 + / 1000000000000000)
                 * (s * (1 + / 1000000000000000)))
          with (s * s * ((1 + / 1000000000000000)
                         * (1 + / 1000000000000000))) by ring.
        apply Rmult_le_compat_l; lra. }
    set (q := a * a) in *. set (T := s * s) in *. lra. }
  destruct (Rle_dec 0 t) as [Ht|Ht]; [apply H, Ht |].
  specialize (H (- t) ltac:(lra)).
  rewrite (Rounding.rnd_opp rnd model) in H.
  replace (- rnd t * - rnd t) with (rnd t * rnd t) in H by ring.
  replace (- t * - t) with (t * t) in H by ring. exact H.
Qed.

Lemma rdist_close (curr prev : Sample) :
  let D := TrajectoryAnalyzer.sample_dist curr prev in
  D * (1 - / 10000000000000) <= Rounding.rdist rnd curr prev
  <= D * (1 + / 10000000000000).
Proof.
  intros D. unfold Rounding.rdist.
  pose proof (square_close (x curr - x prev)) as [X1 X2].
  pose proof (square_close (y curr - y prev)) as [Y1 Y2].
  pose proof (square_close (z curr - z prev)) as [Z1 Z2].
  set (sx := rnd (rnd (x curr - x prev) * rnd (x curr - x prev))) in *.
  set (sy := rnd (rnd (y curr - y prev) * rnd (y curr - y prev))) in *.
  set (sz := rnd (rnd (z curr - z prev) * rnd (z curr - z prev))) in *.
  assert (Tx : 0 <= (x curr - x prev) * (x curr - x prev))
    by apply Rle_0_sqr.
  assert (Ty : 0 <= (y curr - y prev) * (y curr - y prev))
    by apply Rle_0_sqr.
  assert (Tz : 0 <= (z curr - z prev) * (z curr - z prev))
    by apply Rle_0_sqr.
  set (tx := (x curr - x prev) * (x curr - x prev)) in *.
  set (ty := (y curr - y prev) * (y curr - y prev)) in *.
  set (tz := (z curr - z prev) * (z curr - z prev)) in *.
  assert (Hxy : 0 <= sx + sy) by lra.
  pose proof (rnd_close rnd model (sx + sy) Hxy) as [P1 P2].
  set (sxy := rnd (sx + sy)) in *.
  assert (Hxyz : 0 <= sxy + sz) by lra.
  pose proof (rnd_close rnd model (sxy + sz) Hxyz) as [Q1 Q2].
  set (S := rnd (sxy + sz)) in *.
  set (T := tx + ty + tz).
  assert (HT : 0 <= T) by (unfold T; lra).
  assert (HS1 : T * (1 - / 50000000000000) <= S) by (unfold T; lra).
  assert (HS2 : S <= T * (1 + / 50000000000000)) by (unfold T; lra).
  assert (HS0 : 0 <= S) by lra.
  assert (ED : D = R_sqrt.sqrt T).
  { unfold D, TrajectoryAnalyzer.sample_dist, T, tx, ty, tz.
    f_equal. ring. }
  pose proof (sqrt_pos S) as Hq0.
  pose proof (rnd_close rnd model (R_sqrt.sqrt S) Hq0) as [R1 R2].
  assert (G1 : R_sqrt.sqrt T * (1 - / 50000000000000) <= R_sqrt.sqrt S).
  { eapply Rle_trans; [apply sqrt_scale_down; lra |].
    apply sqrt_le_1_alt. exact HS1. }
  assert (G2 : R_sqrt.sqrt S <= R_sqrt.sqrt T * (1 + / 50000000000000)).
  { eapply Rle_trans; [| apply sqrt_scale_up; lra].
    apply sqrt_le_1_alt. exact HS2. }
  pose proof (sqrt_pos T) as HD0.
  rewrite ED. set (q := R_sqrt.sqrt S) in *. set (d := R_sqrt.sqrt T) in *.
  lra.
Qed.

Lemma rdist_nonneg (curr prev : Sample) :
  0 <= Rounding.rdist rnd curr prev.
Proof.
  unfold Rounding.rdist. apply (rnd_nonneg rnd model), sqrt_pos.
Qed.

(** The running sum of the loop, against the exact length [L] of the path
    that starts at [prev]. *)
Lemma rloop_bounds (rest : list Sample) :
  forall (prev : Sample) (total : R),
    0 <= total ->
    let L :=
      Spec.consecutive_sum TrajectoryAnalyzer.sample_dist (prev :: rest) in
    (total + L * (1 - / 10000000000000)) * (1 - Rounding.u) ^ length rest
    <= Rounding.rloop rnd prev rest total
    <= (total + L * (1 + / 10000000000000)) * (1 + Rounding.u) ^ length rest.
Proof.
  pose proof u_bounds as [Hu1 Hu2].
  induction rest as [|curr rest IH]; intros prev total Ht L.
  - unfold L. cbn [Rounding.rloop length pow Spec.consecutive_sum]. lra.
  - cbn [Rounding.rloop length].
    pose proof (rdist_close curr prev) as [D1 D2]. cbv zeta in D1, D2.
    pose proof (rdist_nonneg curr prev) as D0.
    pose proof (sample_dist_nonneg curr prev) as E0.
    set (dc := Rounding.rdist rnd curr prev) in *.
    set (de := TrajectoryAnalyzer.sample_dist curr prev) in *.
    assert (Hs : 0 <= total + dc) by lra.
    pose proof (rnd_between rnd model (total + dc) Hs) as [B1 B2].
    pose proof (rnd_nonneg rnd model (total + dc) Hs) as B0.
    specialize (IH curr (rnd (total + dc)) B0). cbv zeta in IH.
    destruct IH as [I1 I2].
    set (L' := Spec.consecutive_sum TrajectoryAnalyzer.sample_dist
                 (curr :: rest)) in *.
    assert (EL : L = de + L') by reflexivity.
    assert (HL' : 0 <= L').
    { unfold L'. apply consecutive_sum_nonneg, sample_dist_nonneg. }
    assert (Hp1 : 0 <= (1 - Rounding.u) ^ length rest)
      by (apply pow_le; lra).
    assert (Hp2 : 0 <= (1 + Rounding.u) ^ length rest)
      by (apply pow_le; lra).
    rewrite EL. split.
    + eapply Rle_trans; [| exact I1]. simpl pow.
      rewrite <- Rmult_assoc. apply Rmult_le_compat_r; [exact Hp1 |].
      assert (0 <= L' * (1 - / 10000000000000) * Rounding.u).
      { apply Rmult_le_pos; [apply Rmult_le_pos |]; lra. }
      nra.
    + eapply Rle_trans; [exact I2 |]. simpl pow.
      rewrite <- Rmult_assoc. apply Rmult_le_compat_r; [exact Hp2 |].
      assert (0 <= L' * (1 + / 10000000000000) * Rounding.u).
      { apply Rmult_le_pos; [apply Rmult_le_pos |]; lra. }
      nra.
Qed.

Lemma sample_dist_rounded (curr prev : Sample) :
  Float.sample_dist (Float.rounded rnd) (Rounding.sample rnd curr)
    (Rounding.sample rnd prev)
  = Fin (Rounding.rdist rnd curr prev).
Proof.
  unfold Float.sample_dist, Float.pow2, Rounding.sample.
  cbn [Float.x Float.y Float.z].
  rewrite !rsub, !rmul, !radd.
  rewrite rsqrt; [reflexivity |].
  apply (rnd_nonneg rnd model).
  assert (forall t, 0 <= rnd (rnd t * rnd t)).
  { intros t. apply (rnd_nonneg rnd model), Rle_0_sqr. }
  apply Rplus_le_le_0_compat; [| auto].
  apply (rnd_nonneg rnd model). apply Rplus_le_le_0_compat; auto.
Qed.

Lemma distance_loop_rounded (rest : list Sample) :
  forall (prev : Sample) (total : R),
    Float.distance_loop (Float.rounded rnd) (Rounding.sample rnd prev)
      (map (Rounding.sample rnd) rest) (Fin total)
    = Fin (Rounding.rloop rnd prev rest total).
Proof.
  induction rest as [|curr rest IH]; intros prev total; [reflexivity |].
  cbn [map Float.distance_loop Rounding.rloop].
  rewrite sample_dist_rounded, radd. apply IH.
Qed.

End RoundedDistance.

(** X5.  For every rounding of the standard model and every flight of at
    most [2^32] samples, the distance of [calculateActualDistance] is a
    non-negative number, 0 for fewer than two samples, within 2.5 parts in a
    million of the exact length of the path, and so never shorter than the
    straight line from the first sample to the last by more than that.  In
    binary64 it can be shorter than the straight line as computed: on the
    samples at 0.3, 2.3, 3.1 and 3.4 of a line the path is
    3.0999999999999996 and the straight line 3.1. *)
Theorem actual_distance_properties
    (rnd : R -> R) (positions : list Sample) :
  Rounding.StandardModel rnd ->
  INR (length positions) <= 2 ^ 32 ->
  let L := Spec.consecutive_sum TrajectoryAnalyzer.sample_dist positions in
  exists d,
    Float.calculateActualDistance (Float.rounded rnd)
      (map (Rounding.sample rnd) positions) = Fin d /\
    0 <= d /\
    ((length positions < 2)%nat -> d = 0) /\
    L * (1 - / 400000) <= d <= L * (1 + / 400000) /\
    (forall first rest, positions = first :: rest ->
       TrajectoryAnalyzer.sample_dist (last positions first) first
       * (1 - / 400000) <= d) /\
    Float.ltb Float.binary64
      (Float.calculateActualDistance Float.binary64
         Examples64.collinear_path)
      (Float.sample_dist Float.binary64
         (Examples64.sample_at (Examples64.dec 34 10))
         (Examples64.sample_at (Examples64.dec 3 10))) = true.
Proof.
  intros model Hmax L.
  pose proof u_bounds as [Hu1 Hu2].
  destruct positions as [|first rest].
  { exists 0. unfold L. cbn [Spec.consecutive_sum map].
    repeat split; try reflexivity; try lra.
    intros f r E. discriminate. }
  exists (Rounding.rloop rnd first rest 0).
  assert (HL : 0 <= L).
  { unfold L. apply consecutive_sum_nonneg, sample_dist_nonneg. }
  pose proof (rloop_bounds rnd model rest first 0 (Rle_refl 0)) as [B1 B2].
  fold L in B1, B2. rewrite Rplus_0_l in B1, B2.
  assert (Hlen : INR (length rest) <= 4294967296).
  { rewrite (pow_IZR 2 32) in Hmax.
    change (2 ^ Z.of_nat 32)%Z with 4294967296%Z in Hmax.
    cbn [length] in Hmax. rewrite S_INR in Hmax. lra. }
  pose proof (pos_INR (length rest)) as Hn0.
  assert (Hup : (1 + Rounding.u) ^ length rest <= 1 + / 1000000).
  { eapply Rle_trans; [apply pow_up |]; rewrite ?u_value; lra. }
  assert (Hdown : 1 - / 1000000 <= (1 - Rounding.u) ^ length rest).
  { eapply Rle_trans; [| apply pow_down]; rewrite ?u_value; lra. }
  assert (C1 : L * (1 - / 400000) <= Rounding.rloop rnd first rest 0).
  { eapply Rle_trans; [| exact B1].
    apply Rle_trans
      with (L * (1 - / 10000000000000) * (1 - / 1000000)).
    - assert (0 <= L * / 10000000000000) by lra. nra.
    - apply Rmult_le_compat_l; [| exact Hdown].
      apply Rmult_le_pos; lra. }
  assert (C2 : Rounding.rloop rnd first rest 0 <= L * (1 + / 400000)).
  { eapply Rle_trans; [exact B2 |].
    apply Rle_trans
      with (L * (1 + / 10000000000000) * (1 + / 1000000)).
    - apply Rmult_le_compat_l; [| exact Hup].
      apply Rmult_le_pos; lra.
    - assert (0 <= L * / 10000000000000) by lra. nra. }
  split.
  { cbn [map Float.calculateActualDistance].
    apply (distance_loop_rounded rnd model). }
  split; [lra |].
  split.
  { intros H. destruct rest; [reflexivity | cbn in H; lia]. }
  split; [split; assumption |].
  split; [| vm_compute; reflexivity].
  intros f r E. injection E as <- <-.
  eapply Rle_trans; [| exact C1].
  apply Rmult_le_compat_r; [lra |].
  apply straight_line_bound.
Qed.

(** X5 in exact arithmetic at two samples one metre apart. *)
Lemma actual_distance_properties_witness :
  exists d,
    Float.calculateActualDistance Float.exact
      (map (Rounding.sample (fun r => r))
         [mkSample 0 0 0 0 None None None "transit" false None None;
          mkSample 1 0 0 1 None None None "transit" false None None])
    = Fin d /\ 0 <= d.
Proof.
  destruct (actual_distance_properties (fun r => r)
              [mkSample 0 0 0 0 None None None "transit" false None None;
               mkSample 1 0 0 1 None None None "transit" false None None]
              exact_model) as (d & Hd & H0 & _).
  - cbn [length INR]. rewrite (pow_IZR 2 32).
    change (2 ^ Z.of_nat 32)%Z with 4294967296%Z. lra.
  - exists d. split; assumption.
Defined.

(** ** calculatePerformanceVariation *)

Lemma product_bound (a b A B : R) :
  - A <= a <= A -> - B <= b <= B -> - (A * B) <= a * b <= A * B.
Proof.
  intros [a1 a2] [b1 b2].
  assert (H1 : 0 <= (A - a) * (B - b)) by (apply Rmult_le_pos; lra).
  assert (H2 : 0 <= (A + a) * (B + b)) by (apply Rmult_le_pos; lra).
  assert (H3 : 0 <= (A - a) * (B + b)) by (apply Rmult_le_pos; lra).
  assert (H4 : 0 <= (A + a) * (B - b)) by (apply Rmult_le_pos; lra).
  lra.
Qed.

Lemma total_map_close (f g : R -> R) (b : R) (l : list R) :
  (forall v, In v l -> g v - b <= f v <= g v + b) ->
  Spec.total (map g l) - INR (length l) * b <= Spec.total (map f l)
  <= Spec.total (map g l) + INR (length l) * b.
Proof.
  induction l as [|a l IH]; intros H.
  - cbn. lra.
  - assert (Ha : g a - b <= f a <= g a + b) by (apply H; left; reflexivity).
    assert (Hl : Spec.total (map g l) - INR (length l) * b
                 <= Spec.total (map f l)
                 <= Spec.total (map g l) + INR (length l) * b)
      by (apply IH; intros v Hv; apply H; right; exact Hv).
    cbn [map length]. rewrite S_INR.
    replace (Spec.total (g a :: map g l)) with (g a + Spec.total (map g l))
      by reflexivity.
    replace (Spec.total (f a :: map f l)) with (f a + Spec.total (map f l))
      by reflexivity.
    lra.
Qed.

Lemma mean_map_close (f g : R -> R) (b : R) (l : list R) :
  l <> [] ->
  (forall v, In v l -> g v - b <= f v <= g v + b) ->
  Spec.mean (map g l) - b <= Spec.mean (map f l) <= Spec.mean (map g l) + b.
Proof.
  intros Hne H. pose proof (total_map_close f g b l H) as [T1 T2].
  assert (Hn : 0 < INR (length l)).
  { destruct l; [contradiction |]. apply lt_0_INR. cbn. lia. }
  unfold Spec.mean. rewrite !length_map.
  assert (Hi : 0 < / INR (length l)) by (apply Rinv_0_lt_compat, Hn).
  assert (E : INR (length l) * b * / INR (length l) = b)
    by (field; lra).
  split.
  - apply Rle_trans
      with ((Spec.total (map g l) - INR (length l) * b) * / INR (length l)).
    + unfold Rdiv. rewrite Rmult_minus_distr_r, E. lra.
    + unfold Rdiv. apply Rmult_le_compat_r; lra.
  - apply Rle_trans
      with ((Spec.total (map g l) + INR (length l) * b) * / INR (length l)).
    + unfold Rdiv. apply Rmult_le_compat_r; lra.
    + unfold Rdiv. rewrite Rmult_plus_distr_r, E. lra.
Qed.

Section RoundedVariation.

Variable rnd : R -> R.
Hypothesis model : Rounding.StandardModel rnd.

(** The variance that is computed for scores of [[0, 100]], against the
    exact population variance. *)
Lemma variance_close (l : list R) :
  l <> [] -> INR (length l) <= 2 ^ 32 ->
  (forall v, In v l -> 0 <= v <= 100) ->
  let var := Spec.mean (map (fun v => Rsqr (v - Spec.mean l)) l) in
  0 <= var /\
  var - 7 / 100 <= Rounding.rmean rnd (Rounding.rsquares rnd l)
  <= var + 7 / 100.
Proof.
  intros Hne Hmax Hr var.
  assert (Hnn : forall v, In v l -> 0 <= v) by (intros v Hv; apply Hr, Hv).
  pose proof (mean_between 0 100 l Hne Hr) as [M0 M1].
  pose proof (rmean_close rnd model l Hnn Hne Hmax) as [C1 C2].
  set (m := Spec.mean l) in *. set (mc := Rounding.rmean rnd l) in *.
  assert (Hd : - (2 / 10000) <= m - mc <= 2 / 10000) by lra.
  set (q := fun v => rnd (rnd (v - mc) * rnd (v - mc))).
  assert (Eq : Rounding.rsquares rnd l = map q l) by reflexivity.
  assert (Hq : forall v, In v l ->
                 Rsqr (v - m) - 402 / 10000 <= q v
                 <= Rsqr (v - m) + 402 / 10000).
  { intros v Hv. destruct (Hr v Hv) as [V0 V1].
    pose proof (square_close rnd model (v - mc)) as [S1 S2]. fold (q v) in S1, S2.
    set (D := v - m). set (dl := m - mc) in *.
    assert (ET : (v - mc) * (v - mc) = D * D + 2 * D * dl + dl * dl)
      by (unfold D, dl; ring).
    rewrite ET in S1, S2.
    assert (HD : - 100 <= D <= 100) by (unfold D; lra).
    pose proof (product_bound D dl 100 (2 / 10000) HD Hd) as P1.
    pose proof (product_bound dl dl (2 / 10000) (2 / 10000) Hd Hd) as P2.
    pose proof (product_bound D D 100 100 HD HD) as P3.
    pose proof (Rle_0_sqr dl) as P4. unfold Rsqr in P4.
    pose proof (Rle_0_sqr D) as P5. unfold Rsqr in P5.
    unfold Rsqr. fold D.
    pose proof (Rle_0_sqr (D + dl)) as P6. unfold Rsqr in P6.
    remember (D * D + 2 * D * dl + dl * dl) as T eqn:HT.
    assert (HT' : 0 <= T <= 10001) by lra.
    split; lra. }
  assert (Hvar : 0 <= var).
  { unfold var. apply mean_nonneg. intros w Hw.
    apply in_map_iff in Hw as [v [<- _]]. apply Rle_0_sqr. }
  assert (Hvmax : var <= 10000).
  { unfold var. apply mean_between with (m := 0).
    - destruct l; [contradiction | discriminate].
    - intros w Hw. apply in_map_iff in Hw as [v [<- Hv]].
      destruct (Hr v Hv). split; [apply Rle_0_sqr |].
      unfold Rsqr. fold m. assert (-100 <= v - m <= 100) by lra. nra. }
  pose proof (mean_map_close q (fun v => Rsqr (v - m)) (402 / 10000) l Hne Hq)
    as [Q1 Q2].
  fold var in Q1, Q2.
  assert (Hqn : forall w, In w (map q l) -> 0 <= w).
  { intros w Hw. apply in_map_iff in Hw as [v [<- _]].
    unfold q. apply (rnd_nonneg rnd model), Rle_0_sqr. }
  assert (Hqne : map q l <> []) by (destruct l; [contradiction | discriminate]).
  assert (Hqlen : INR (length (map q l)) <= 2 ^ 32)
    by (rewrite length_map; exact Hmax).
  pose proof (rmean_close rnd model (map q l) Hqn Hqne Hqlen) as [R1 R2].
  rewrite Eq. split; [exact Hvar |].
  set (mq := Spec.mean (map q l)) in *.
  set (vc := Rounding.rmean rnd (map q l)) in *. lra.
Qed.

Lemma variation_reals (l : list R) :
  l <> [] ->
  Float.calculatePerformanceVariation (Float.rounded rnd)
    (Rounding.reals rnd l)
  = if Rltb (Rounding.rstddev rnd l) 5 then "Low - Consistent performance"%string
    else if Rltb (Rounding.rstddev rnd l) 15
    then "Medium - Some variation in performance"%string
    else "High - Significant performance differences"%string.
Proof.
  intros Hne. unfold Float.calculatePerformanceVariation.
  assert (Hl : length (Rounding.reals rnd l) = length l)
    by (unfold Rounding.reals; apply length_map).
  assert (Hn : INR (length l) <> 0).
  { apply not_0_INR. destruct l; [contradiction | discriminate]. }
  rewrite Hl. unfold Float.sum_list, Float.zero, Float.of_nat.
  cbn [Float.of_Z Float.rounded]. fold (Float.rounded rnd).
  rewrite sum_list_reals, <- INR_IZR_INZ, rdiv by exact Hn.
  fold (Rounding.rsum rnd l). fold (Rounding.rmean rnd l).
  assert (Hf : forall (k : list R) acc,
             fold_left
               (fun sum val =>
                  Float.add (Float.rounded rnd) sum
                    (Float.pow2 (Float.rounded rnd)
                       (Float.sub (Float.rounded rnd) val
                          (Fin (Rounding.rmean rnd l)))))
               (Rounding.reals rnd k) (Fin acc)
             = Fin (fold_left (fun sum val => rnd (sum + val))
                      (map (fun val =>
                              rnd (rnd (val - Rounding.rmean rnd l)
                                   * rnd (val - Rounding.rmean rnd l))) k)
                      acc)).
  { induction k as [|v k IH]; intros acc; [reflexivity |].
    cbn [Rounding.reals map fold_left]. unfold Float.pow2.
    rewrite rsub, rmul, radd. apply IH. }
  rewrite Hf, rdiv by exact Hn.
  change (map (fun val =>
                 rnd (rnd (val - Rounding.rmean rnd l)
                      * rnd (val - Rounding.rmean rnd l))) l)
    with (Rounding.rsquares rnd l).
  assert (Hlen : length l = length (Rounding.rsquares rnd l))
    by (unfold Rounding.rsquares; rewrite length_map; reflexivity).
  fold (Rounding.rsum rnd (Rounding.rsquares rnd l)).
  assert (Em : rnd (Rounding.rsum rnd (Rounding.rsquares rnd l)
                    / INR (length l))
               = Rounding.rmean rnd (Rounding.rsquares rnd l))
    by (unfold Rounding.rmean; rewrite <- Hlen; reflexivity).
  rewrite Em.
  rewrite rsqrt
    by (apply (rmean_nonneg rnd model), (rsquares_nonneg rnd model)).
  rewrite !rltb.
  destruct l as [|a l]; [contradiction |]. reflexivity.
Qed.

End RoundedVariation.

(** X14.  For every rounding of the standard model and at most [2^32]
    flights with stability scores in [[0, 100]], the performance variation is
    [Low] when the population standard deviation of the scores is at most
    4.99, [Medium] when it is between 5.01 and 14.99, and [High] from 15.01
    on (in between, the rounding of the computation decides: in binary64 the
    scores 90.1 and 60.1, of standard deviation 15, give [Medium]).  Without
    flights the deviation is [NaN] and the variation is [High]. *)
Theorem performance_variation_labels (rnd : R -> R) (scores : list R) :
  Rounding.StandardModel rnd ->
  let label :=
    Float.calculatePerformanceVariation (Float.rounded rnd)
      (Rounding.reals rnd scores) in
  let sd := Spec.population_stddev scores in
  Float.calculatePerformanceVariation (Float.rounded rnd) []
  = "High - Significant performance differences"%string /\
  Float.calculatePerformanceVariation Float.binary64 []
  = "High - Significant performance differences"%string /\
  Float.calculatePerformanceVariation Float.binary64
    [Examples64.dec 901 10; Examples64.dec 601 10]
  = "Medium - Some variation in performance"%string /\
  (scores <> [] -> INR (length scores) <= 2 ^ 32 ->
   (forall v, In v scores -> 0 <= v <= 100) ->
   (sd <= 4.99 -> label = "Low - Consistent performance"%string) /\
   (5.01 <= sd <= 14.99 ->
    label = "Medium - Some variation in performance"%string) /\
   (15.01 <= sd ->
    label = "High - Significant performance differences"%string)).
Proof.
  intros model label sd.
  split.
  { unfold Float.calculatePerformanceVariation, Float.sum_list, Float.zero,
      Float.of_nat.
    cbn [fold_left length Z.of_nat Float.of_Z Float.rounded].
    fold (Float.rounded rnd). rewrite rdiv_zeros. reflexivity. }
  split; [vm_compute; reflexivity |].
  split; [vm_compute; reflexivity |].
  intros Hne Hmax Hr.
  destruct (variance_close rnd model scores Hne Hmax Hr) as (Hv0 & V1 & V2).
  unfold label. rewrite (variation_reals rnd model scores Hne).
  set (var := Spec.mean (map (fun v => Rsqr (v - Spec.mean scores)) scores))
    in *.
  assert (Esd : sd = R_sqrt.sqrt var).
  { unfold sd, Spec.population_stddev, var.
    destruct scores; [contradiction | reflexivity]. }
  assert (Hsd0 : 0 <= sd) by (rewrite Esd; apply sqrt_pos).
  assert (Hsq : sd * sd = var) by (rewrite Esd; apply sqrt_sqrt, Hv0).
  assert (Evc : Rounding.rstddev rnd scores
                = rnd (R_sqrt.sqrt
                         (Rounding.rmean rnd (Rounding.rsquares rnd scores)))).
  { destruct scores; [contradiction | reflexivity]. }
  set (vc := Rounding.rmean rnd (Rounding.rsquares rnd scores)) in *.
  pose proof (sqrt_pos vc) as Hq0.
  pose proof (rnd_close rnd model (R_sqrt.sqrt vc) Hq0) as [R1 R2].
  rewrite <- Evc in R1, R2.
  set (sc := Rounding.rstddev rnd scores) in *.
  assert (Below : forall t, 0 <= t -> vc <= t * t -> R_sqrt.sqrt vc <= t).
  { intros t Ht H. rewrite <- (sqrt_square t Ht).
    apply sqrt_le_1_alt. exact H. }
  assert (Above : forall t, 0 <= t -> t * t <= vc -> t <= R_sqrt.sqrt vc).
  { intros t Ht H. rewrite <- (sqrt_square t Ht) at 1.
    apply sqrt_le_1_alt. exact H. }
  destruct (Rltb_lt sc 5) as [A1 A2].
  destruct (Rltb_lt sc 15) as [B1 B2].
  split; [| split].
  - intros H. assert (var <= 4.99 * 4.99) by nra.
    pose proof (Below 4.998 ltac:(lra) ltac:(lra)).
    rewrite A2 by lra. reflexivity.
  - intros [H1 H2].
    assert (5.01 * 5.01 <= var) by nra.
    assert (var <= 14.99 * 14.99) by nra.
    pose proof (Above 5.002 ltac:(lra) ltac:(lra)).
    pose proof (Below 14.995 ltac:(lra) ltac:(lra)).
    destruct (Rltb sc 5); [specialize (A1 eq_refl); lra |].
    rewrite B2 by lra. reflexivity.
  - intros H. assert (15.01 * 15.01 <= var) by nra.
    pose proof (Above 15.005 ltac:(lra) ltac:(lra)).
    destruct (Rltb sc 5); [specialize (A1 eq_refl); lra |].
    destruct (Rltb sc 15); [specialize (B1 eq_refl); lra |].
    reflexivity.
Qed.

(** X14 in exact arithmetic at two equal scores. *)
Lemma performance_variation_labels_witness :
  Float.calculatePerformanceVariation Float.exact
    (Rounding.reals (fun r => r) [90; 90])
  = "Low - Consistent performance"%string.
Proof.
  apply (performance_variation_labels (fun r => r) [90; 90] exact_model).
  - discriminate.
  - cbn [length INR]. rewrite (pow_IZR 2 32).
    change (2 ^ Z.of_nat 32)%Z with 4294967296%Z. lra.
  - intros v [<-|[<-|[]]]; lra.
  - change (Spec.population_stddev (repeat 90 2) <= 4.99).
    rewrite (population_stddev_repeat 90 2). lra.
Defined.
